(* ===== verification/_CoqProject ===== *)
-Q . S2P
Prelude.v
Styles.v
Bytes.v
Bech32.v
Utf8.v
UrlSearchParams.v
WalletConnect.v
Secp256k1.v
NostrTools.v
App.v
Page.v
AppRuns.v
Clock.v
Spec.v
Refinement.v
Main.v
