(* ===== verification/Prelude.v ===== *)
(** * A verification development of [src/NostrKeyGen.js] (nostr_keys)

    ** The program

    [src/NostrKeyGen.js] is one React component,
    [NostrKeyAndWalletConnectDemo]. It keeps five pieces of React state
    ([clientKeys], [showPrivate], [relay], [walletConnectURI],
    [copyMessage]) and has three handlers:
    - [generateClientKeys] draws a secp256k1 secret key with
      [nostrTools.generateSecretKey], derives its x-only public key with
      [getPublicKey], encodes both with NIP-19 ([npubEncode], [nsecEncode]),
      stores the four values and clears any previous URI; an exception is
      caught and logged;
    - [generateWalletConnectURI] refuses (with an [alert]) when no client
      keys exist or when the trimmed relay is empty, otherwise draws a fresh
      "Buho" service key pair and builds
      [nostr+walletconnect://<buhoPK>?relay=..&secret=..] with a
      [URLSearchParams] object;
    - [copyToClipboard] writes a text to the clipboard asynchronously, shows
      a message and schedules its removal after 2000 ms.
    The JSX render shows the keys (the secret ones masked unless
    [showPrivate]), the relay input, the URI and the copy message, styled
    with the inline style objects of lines 4-113.

    The program calls collaborators outside [src/]: nostr-tools
    (secp256k1 key generation from noble-curves, hex from noble-hashes,
    bech32 from scure-base), the WHATWG [URLSearchParams] serializer and
    parser, UTF-8, and the JS conversions [String.prototype.trim],
    [Number.prototype.toString] and [TypedArray.prototype.toString]. Those
    are modelled from their specifications and marked [spec_modelled] in
    the manifest.

    ** Files (in dependency order)

    - [Prelude] (this file): JS strings as lists of UTF-16 code units
      ([jsstring], the [js] literal converter), the exception type [exn] and
      the [throws] monad with its notation in [nostr_scope] ([x <- c ;; k],
      [assert! b else e ;; k]), bytes as [Z] in [0,256), the separator
      lemmas (split/join) the parsers share, the bit lemmas the UTF-8 coder
      uses, the [nostr], [nostr_rw] and [bits_rw] hint databases and the
      development's tactics ([zcase], [ifcase], [zlia], [not_in_lit]),
      and JS string equality [jseqb].
    - [Styles]: module [Style], the JavaScript objects the styles are
      (ordered own properties, [set]/[get], object literals, the spread
      [{...o, k: v}]); module [Styles], the constants of lines 4-113, the
      function [buttonStyle] and the merged heading style of line 289;
      [StyleFacts]: the laws of [set], [get] and the spread.
    - [Bytes]: module [Radix] ([Number.prototype.toString], digit lists,
      [padStart]); module [Hex] (noble's [bytesToHex], [hexToBytes],
      [bytesToNumberBE], [numberToBytesBE]); module [Uint8]
      ([TypedArray.prototype.toString], comma-joined decimals, and the text
      React renders for a [Uint8Array]).
    - [Bech32]: scure-base's [bech32] (module [Bech32]: [polymod],
      [checksum], [convertRadix2], [encode], [decode]) and nostr-tools'
      [nip19] (module [Nip19]: [encodeBytes], [npubEncode], [nsecEncode],
      [decodeBytes]); [Bech32Facts] proves the radix loop consumes every
      word, the output lengths and alphabet, and [polymod]'s 30-bit bound;
      [Nip19Facts] the shapes of npub/nsec and that they never coincide;
      [Nip19Examples] checks the NIP-19 test vector both ways.
    - [Utf8]: module [Utf16] (WebIDL USVString conversion and back),
      module [Utf8] (the WHATWG encoder and the decoder as a byte-by-byte
      state machine); [Utf8Facts]: decode after encode is the identity on
      scalar values, and well-formed strings survive the round trip.
    - [UrlSearchParams]: module [Form] (the urlencoded serializer and
      parser), module [SearchParams] ([append], [toString], [get]);
      parsing a serialized list gives it back.
    - [WalletConnect]: module [WalletConnect] is lines 163-169 of
      [generateWalletConnectURI] ([scheme], [uri_params], [build_uri]);
      module [Reader] is how a wallet reads a URI back (authority, query,
      parameters); [WalletConnectFacts] gives the exact text of the URI,
      its query round trip, and what the [secret] parameter holds.
    - [Secp256k1]: nostr-tools' [generateSecretKey] (noble's
      [mapHashToField] over 48 random bytes) and [getPublicKey] (private
      key checks, x-only [d * G]); the key's range and length, the error
      paths, and BIP-340 test vector 0.
    - [NostrTools]: the interface the component uses, class [NostrTools]
      (the four calls of lines 130-133 and 157-158), with the laws the
      component's proofs need in class [NostrToolsLaws].
    - [App]: the component. Module [App], in a section over any
      [NostrTools] instance, has the [state] record (the five [useState]
      hooks, plus the pending clipboard writes, the pending timers and the
      clipboard), one definition per handler ([generateClientKeys],
      [generateWalletConnectURI], [copyToClipboard] split at its [await]
      into [copyToClipboard] and [settle], the timer [timer_fires]), the
      event dispatch [handle], the render ([render], [render_keys]), and
      the runs: [step] (a rendered button clicked, a JS string typed, a
      pending write or timer completing), [reachable], [run]. Module
      [AppFacts], in a section over the laws, proves the invariant [inv] of
      every reachable state by rule induction ([inv_step],
      [reachable_inv]) and from it what a shown URI carries; the handlers
      on every branch, errors included; the interleaving of two copies and
      their timers; what the render masks and what it shows; and
      that every shown URI is made of URI characters only
      ([uri_well_formed], over the character sets [FormFacts.query_char]
      and [WalletConnectFacts.uri_char]).
    - [Page]: the whole JSX of lines 189-327 as the React element tree it
      evaluates to (module [Jsx]: elements, text, fragments, iterable
      children, React's rules for [{s}] and [{a && b}], and the
      observations [buttons], [styled], [inputs], [texts]; module [Page]:
      [page s], built from [keys_card], [uri_card], [relay_form],
      [details_box] and the static text). [PageFacts] relates each observation
      of the page to a field of [App.render] ([page_buttons],
      [page_inputs], [page_uri_box], ...), so [App.enabled] offers the
      clicks of the page; it proves that the masked page does not
      depend on the secret key or the nsec ([page_hides_secret], a
      noninterference property over the equivalence [low_eq], with its
      [Equivalence] and [Proper] instances); and that the page's URI
      Details contradict the URI it shows ([page_secret_doc_mismatch]),
      and the private key's box the text its Copy button writes
      ([page_sk_copy_differs]).
    - [AppRuns]: the end of the copy helper's asynchronous work: the events
      [pending_events] that settle every clipboard write and fire every
      timer leave nothing pending and the message cleared
      ([copy_work_terminates]).
    - [Clock]: the component under the browser's clock: [tstep] keeps the
      time [now] and the deadline of each [setTimeout(..., 2000)]
      (line 186); [Wait dt] runs the callbacks due, in deadline order.
      [ClockFacts] shows that a timed step is an [App] run with one
      [TimerFires] per timer that comes due ([tstep_untimed], so the
      counter of [App] is a sound abstraction), that reachable timed
      states keep their deadlines sorted within [(now, now + 2000]]
      ([treachable_twf]), that no copy message outlives 2000 ms
      ([message_gone_after_delay]), and measures the timer race
      ([timer_race_duration]).
    - [Spec]: the abstract session of [spec.md] (sections 4, 7, 9): state
      [astate] (the secret key, the relay, the URI as a consumer reads it),
      operations [Generate], [SetRelay], [BuildURI] with the errors
      [MissingClientKey], [MissingRelay], [RandomSourceUnavailable], in a
      section over what the spec leaves open (the generator, the service
      key draw, the encoding of the secret in the query).
    - [Refinement]: the component refines [Spec]: a map of states [abs], of
      events [ev_op] (copying, toggling, settling and timers are stuttering
      steps) and of effects [report] (alerts and logs to the spec's
      errors); each handler is its operation ([handle_refines]) and every
      run is the specification's run ([run_refines]), the specification
      instantiated with the code's own choices ([spec_generate] is the try
      block of [generateClientKeys], [spec_serviceKey] lines 157-158, the
      secret written with [String()]).
    - [Main]: the instance [Main.nostr_tools] built from [Secp256k1] and
      [Bech32] and its laws; [MainFacts] states the component's properties
      that depend on the real collaborators (stored keys well formed, the
      calls of lines 130-133 on their inputs, bad entropy); [Session] runs
      the component on a concrete session (random source returning zero
      bytes) and holds the witnesses of the component's theorems.

    ** What the theorems show

    A shown URI is exactly [nostr+walletconnect://<pk>?relay=<r>&secret=<s>]
    with [s] the urlencoded [String()] of the client secret key's
    [Uint8Array]: comma-separated decimal bytes, not the hex the spec and
    the page's own documentation promise. In every reachable state the URI
    was built from the currently stored secret (regenerating keys clears
    it) and a non-blank relay, and the stored keys are derived from one
    another. The error paths alert or log and change nothing, and a failed
    service-key draw keeps an older URI. Two copies in quick succession
    race on the message timer. The masked secret is still shown in the
    URI. The NIP-19 strings have the right shape, but [nsecEncode] accepts
    keys of any length, where the spec requires [InvalidKeyLength]. The
    nsec and npub decode back to the stored keys. The component refines the
    spec's session, for relays that are empty or not blank (the code trims,
    the spec does not), only when the secret is written as [String()]
    writes it: with the spec's hex the refinement fails
    ([Main.Session.hex_spec_not_refined]). On the full page, the masking
    hides the secret key and the nsec completely (the URI apart), and the
    page's own "URI Details" say hex next to a URI that carries decimal
    bytes; the private key is shown as decimals run together and copied
    comma-separated. Under the clock, a copy message never lasts more than
    2000 ms, and a copy [d] ms after another shows its message for
    [2000 - d] ms only. The errors the component logs carry the exception nostr-tools
    threw.

    ** Bounds and fuel

    [Radix.digits] runs on fuel [log2 n + 1], which bounds the number of
    digits of [n] in any base [>= 2] ([digits_aux_ok]). The inner loop of
    [convertRadix2] has fuel 33: its position is at most 32 by the loop's
    own check, and each round lowers it by at least 1 ([drain_ok]).
    Integers are unbounded [Z]. [polymod_bound] shows the bech32 checksum
    stays below [2^30], where JavaScript's 32-bit bit operations agree with
    [Z]'s. The event interpreter [run] recurses on the event list, and
    the asynchronous work ends after [length pendingWrites] settlements and
    [pendingTimers + length pendingWrites] timer firings
    ([AppRuns.copy_work_terminates]). Time is an unbounded [Z] of
    milliseconds and a wait a [N], so the clock never goes back. Everything
    else is structural recursion.

    ** Not modelled

    CSS layout: the styles are modelled as the objects the code builds,
    not what a browser draws with them. React DOM's reconciliation: the
    page is the element tree, in which an empty string child and a
    fragment still appear; React DOM skips the one and flattens the other,
    which changes neither a text nor a handler. React's batching: each
    handler's state update is applied at once. The reason a clipboard
    write is rejected: one exception, [ExnClipboardWrite]. The two module
    lines of the file ([import React], [export default function]) have no
    behaviour of their own.

    noble's projective, windowed scalar multiplication is modelled as the
    affine double-and-add it computes, with inverses by Fermat's little
    theorem. Proving that the projective formulas compute the affine sum,
    or that [getPublicKey] never fails on a key in [1, n-1], needs the
    primality of the 256-bit field prime and of the group order [n] (a
    primality certificate and the theory of the multiplicative group),
    which none of the available libraries provides. These are library
    internals the component only calls through [NostrTools]. The WHATWG URL
    parser beyond what the wallet needs: the authority before the first
    [?], and the query after it. *)

From Stdlib Require Import ZArith List Lia Bool.
From Stdlib Require String Ascii.
Export String.StringSyntax.
Import ListNotations.
Open Scope Z_scope.

Declare Scope nostr_scope.
Delimit Scope nostr_scope with nostr.

(** ** JavaScript strings

    A JS string is a sequence of UTF-16 code units, each in [0, 65536). *)

Definition jsstring := list Z.

(** [js s] is the JS string literal whose characters are the (ASCII)
    characters of [s]. Source literals are written with it. *)
Definition js (s : String.string) : jsstring :=
  map (fun a => Z.of_nat (Ascii.nat_of_ascii a)) (String.list_ascii_of_string s).
Arguments js s%_string_scope.

(** JS string equality [===]: code unit by code unit. *)
Fixpoint jseqb (a b : jsstring) : bool :=
  match a, b with
  | [], [] => true
  | x :: a', y :: b' => (x =? y) && jseqb a' b'
  | _, _ => false
  end.

Lemma jseqb_spec a b : reflect (a = b) (jseqb a b).
Proof.
  revert b; induction a as [|x a IH]; intros [|y b]; cbn; try (constructor; congruence).
  destruct (Z.eqb_spec x y) as [->|Hne]; cbn; [|constructor; congruence].
  destruct (IH b); constructor; congruence.
Qed.

Lemma jseqb_refl a : jseqb a a = true.
Proof. destruct (jseqb_spec a a); congruence. Qed.

(** ** Exceptions

    The collaborators throw JS [Error]s; the component catches them all in
    its [try]/[catch] blocks. [exn] names each error the model can raise. *)

Inductive exn : Type :=
| ExnRandomSourceUnavailable       (** [crypto.getRandomValues] missing *)
| ExnHashToFieldLength             (** [mapHashToField]: bad input length *)
| ExnHexUnpadded                   (** [hexToBytes]: odd length *)
| ExnHexCharacter                  (** [hexToBytes]: non-hex character *)
| ExnPrivateKeyRange               (** secret key outside [1, n-1] *)
| ExnBech32Prefix                  (** bech32 prefix empty or not printable *)
| ExnBech32Length                  (** bech32 output above its limit *)
| ExnRadix                         (** radix conversion: bad word *)
| ExnBech32Decode                  (** bech32 decoder: malformed input *)
| ExnClipboardWrite.               (** [navigator.clipboard.writeText] rejected *)

Inductive throws (A : Type) : Type :=
| Ret (a : A)
| Throw (e : exn).
Arguments Ret {A} a.
Arguments Throw {A} e.

Definition throws_bind {A B} (c : throws A) (k : A -> throws B) : throws B :=
  match c with
  | Ret a => k a
  | Throw e => Throw e
  end.

Notation "x <- c1 ;; c2" := (throws_bind c1 (fun x => c2))
  (at level 61, c1 at next level, right associativity) : nostr_scope.
Notation "'assert!' b 'else' e ;; c" := (if b then c else Throw e)
  (at level 61, b at next level, e at next level, right associativity) : nostr_scope.

Open Scope nostr_scope.

Lemma throws_bind_ret {A B} (a : A) (k : A -> throws B) :
  throws_bind (Ret a) k = k a.
Proof. reflexivity. Qed.

Lemma throws_bind_throw {A B} (e : exn) (k : A -> throws B) :
  throws_bind (Throw e) k = Throw e.
Proof. reflexivity. Qed.

(** [injection] without the normalisation of its result. *)
Lemma Ret_inj {A} (a b : A) : Ret a = Ret b -> a = b.
Proof. congruence. Qed.

Lemma throws_bind_Ret_inv {A B} (c : throws A) (k : A -> throws B) (b : B) :
  throws_bind c k = Ret b -> exists a, c = Ret a /\ k a = Ret b.
Proof. destruct c; simpl; [eauto | discriminate]. Qed.

(** ** Bytes

    A byte is a [Z] in [0, 256); a [Uint8Array] is a list of bytes. *)

Definition is_byte (b : Z) : Prop := 0 <= b < 256.
Definition is_byteb (b : Z) : bool := (0 <=? b) && (b <? 256).
Definition bytesb (l : list Z) : bool := forallb is_byteb l.

(** A lowercase hex digit, as [bytesToHex] writes them. *)
Definition is_lower_hex (c : Z) : Prop := (48 <= c <= 57) \/ (97 <= c <= 102).

Lemma is_byteb_spec b : is_byteb b = true <-> is_byte b.
Proof. unfold is_byteb, is_byte. rewrite andb_true_iff, Z.leb_le, Z.ltb_lt. tauto. Qed.

Lemma bytesb_spec l : bytesb l = true <-> Forall is_byte l.
Proof.
  unfold bytesb. rewrite forallb_forall, Forall_forall.
  split; intros H x Hx; apply is_byteb_spec; auto.
Qed.

(** ** Separators

    [split_on sep l] cuts [l] at every occurrence of [sep] (JS
    [String.prototype.split] with a one-unit separator, and the
    [&]-splitting of the urlencoded parser); [join sep ls] is its
    inverse ([Array.prototype.join]). [split_first sep l] cuts at the first
    occurrence only. *)

Fixpoint split_on (sep : Z) (l : list Z) : list (list Z) :=
  match l with
  | [] => [[]]
  | c :: rest =>
      let pieces := split_on sep rest in
      if c =? sep then [] :: pieces
      else match pieces with
           | p :: ps => (c :: p) :: ps
           | [] => [[c]]
           end
  end.

Fixpoint join (sep : list Z) (ls : list (list Z)) : list Z :=
  match ls with
  | [] => []
  | [x] => x
  | x :: xs => x ++ sep ++ join sep xs
  end.

Fixpoint split_first (sep : Z) (l : list Z) : option (list Z * list Z) :=
  match l with
  | [] => None
  | c :: rest =>
      if c =? sep then Some ([], rest)
      else match split_first sep rest with
           | Some (a, b) => Some (c :: a, b)
           | None => None
           end
  end.

Create HintDb nostr discriminated.
Create Rewrite HintDb nostr_rw.

Lemma split_on_not_nil sep l : split_on sep l <> [].
Proof.
  induction l as [|c l IH]; simpl; [discriminate|].
  destruct (c =? sep); [discriminate|]. destruct (split_on sep l); discriminate.
Qed.

Lemma split_on_app_sep sep a b :
  ~ In sep a -> split_on sep (a ++ sep :: b) = a :: split_on sep b.
Proof.
  induction a as [|c a IH]; intros Hn; simpl.
  - rewrite Z.eqb_refl. reflexivity.
  - rewrite IH by (intro; apply Hn; right; assumption).
    destruct (Z.eqb_spec c sep); [exfalso; apply Hn; left; congruence|].
    reflexivity.
Qed.

Lemma split_on_no_sep sep a : ~ In sep a -> split_on sep a = [a].
Proof.
  induction a as [|c a IH]; intros Hn; simpl; [reflexivity|].
  rewrite IH by (intro; apply Hn; right; assumption).
  destruct (Z.eqb_spec c sep); [exfalso; apply Hn; left; congruence|].
  reflexivity.
Qed.

(** Splitting a join gives the pieces back when no piece holds the
    separator. *)
Lemma Forall_join {P : Z -> Prop} sep ls :
  Forall P sep -> Forall (Forall P) ls -> Forall P (join sep ls).
Proof.
  intros Hs Hls. induction Hls as [|x xs Hx Hxs IH]; [constructor|].
  destruct xs as [|y ys]; [exact Hx|].
  change (Forall P (x ++ sep ++ join sep (y :: ys))). rewrite !Forall_app. auto.
Qed.

Lemma split_on_join sep ls :
  ls <> [] -> Forall (fun p => ~ In sep p) ls -> split_on sep (join [sep] ls) = ls.
Proof.
  induction ls as [|x xs IH]; intros Hne Hall; [congruence|].
  inversion Hall as [|? ? Hx Hxs]; subst.
  destruct xs as [|y ys].
  - simpl. apply split_on_no_sep; assumption.
  - change (join [sep] (x :: y :: ys)) with (x ++ sep :: join [sep] (y :: ys)).
    rewrite split_on_app_sep by assumption.
    rewrite IH by (discriminate || assumption). reflexivity.
Qed.

Lemma split_first_app_sep sep a b :
  ~ In sep a -> split_first sep (a ++ sep :: b) = Some (a, b).
Proof.
  induction a as [|c a IH]; intros Hn; simpl.
  - rewrite Z.eqb_refl. reflexivity.
  - rewrite IH by (intro; apply Hn; right; assumption).
    destruct (Z.eqb_spec c sep); [exfalso; apply Hn; left; congruence|].
    reflexivity.
Qed.

Lemma split_first_none sep a : ~ In sep a -> split_first sep a = None.
Proof.
  induction a as [|c a IH]; intros Hn; simpl; [reflexivity|].
  rewrite IH by (intro; apply Hn; right; assumption).
  destruct (Z.eqb_spec c sep); [exfalso; apply Hn; left; congruence|].
  reflexivity.
Qed.

Lemma In_flat_map_inv {A B} (f : A -> list B) (l : list A) (y : B) :
  In y (flat_map f l) -> exists x, In x l /\ In y (f x).
Proof. apply in_flat_map. Qed.

Lemma not_In_app {A} (x : A) (a b : list A) :
  ~ In x a -> ~ In x b -> ~ In x (a ++ b).
Proof. intros Ha Hb H. apply in_app_or in H. tauto. Qed.

Lemma flat_map_map {A B C} (f : B -> list C) (g : A -> B) (l : list A) :
  flat_map f (map g l) = flat_map (fun x => f (g x)) l.
Proof. induction l as [|x l IH]; simpl; [reflexivity|]. rewrite IH. reflexivity. Qed.

(** Decision by computation, for concrete inputs. *)
Lemma not_In_check x l : existsb (Z.eqb x) l = false -> ~ In x l.
Proof.
  intros H Hin. assert (existsb (Z.eqb x) l = true) by (apply existsb_exists; exists x; split; [exact Hin | apply Z.eqb_refl]).
  congruence.
Qed.

Lemma Forall_check {A} (P : A -> Prop) (p : A -> bool) :
  (forall x, p x = true -> P x) -> forall l, forallb p l = true -> Forall P l.
Proof.
  intros Hp l H. apply Forall_forall. intros x Hx. rewrite forallb_forall in H. auto.
Qed.

Lemma bytes_check l : bytesb l = true -> Forall is_byte l.
Proof. apply bytesb_spec. Qed.

#[export] Hint Resolve not_In_app split_on_not_nil : nostr.
#[export] Hint Rewrite @throws_bind_ret @throws_bind_throw : nostr_rw.

(** ** Bit operations on non-negative integers

    The encoders are written with [>>], [<<], [&] and [|] as their sources
    are; these lemmas turn them into arithmetic where the operands do not
    overlap, so that [lia] can finish. *)

Lemma land_shift_mod_0 a b k : 0 <= k -> Z.land (a * 2 ^ k) (b mod 2 ^ k) = 0.
Proof.
  intros Hk. apply Z.bits_inj'. intros i Hi. rewrite Z.land_spec, Z.bits_0.
  destruct (Z.lt_ge_cases i k).
  - rewrite Z.mul_pow2_bits_low by lia. reflexivity.
  - rewrite Z.mod_pow2_bits_high by lia. apply andb_false_r.
Qed.

Lemma lor_shift_mod a b k : 0 <= k ->
  Z.lor (a * 2 ^ k) (b mod 2 ^ k) = a * 2 ^ k + b mod 2 ^ k.
Proof.
  intros Hk. rewrite <- Z.lxor_lor, Z.add_nocarry_lxor; auto using land_shift_mod_0.
Qed.

Lemma lor_disjoint a y k : 0 <= k -> 0 <= y < 2 ^ k -> Z.lor (a * 2 ^ k) y = a * 2 ^ k + y.
Proof.
  intros Hk Hy. rewrite <- (Z.mod_small y (2 ^ k)) by lia. apply lor_shift_mod; lia.
Qed.

Lemma land_mask x k : 0 <= k -> Z.land x (2 ^ k - 1) = x mod 2 ^ k.
Proof.
  intros Hk. replace (2 ^ k - 1) with (Z.ones k) by (rewrite Z.ones_equiv; lia).
  apply Z.land_ones. lia.
Qed.

(** The low [k + t] bits of [a]: its bits [k .. k + t - 1] above its low
    [k] bits. *)
Lemma mod_pow2_split a k t : 0 <= k -> 0 <= t ->
  a mod 2 ^ (k + t) = (a / 2 ^ k) mod 2 ^ t * 2 ^ k + a mod 2 ^ k.
Proof.
  intros Hk Ht. rewrite Z.pow_add_r by lia.
  assert (Hm : 0 < 2 ^ k) by (apply Z.pow_pos_nonneg; lia).
  assert (Hn : 0 < 2 ^ t) by (apply Z.pow_pos_nonneg; lia).
  generalize (2 ^ k) (2 ^ t) Hm Hn. clear. intros M Nn Hm Hn.
  symmetry. apply Z.mod_unique with ((a / M) / Nn).
  - pose proof (Z.mod_pos_bound (a / M) Nn Hn). pose proof (Z.mod_pos_bound a M Hm). left. nia.
  - pose proof (Z.div_mod a M ltac:(lia)). pose proof (Z.div_mod (a / M) Nn ltac:(lia)). nia.
Qed.

Lemma land_63 x : Z.land x 63 = x mod 64.
Proof. apply (land_mask x 6). lia. Qed.
Lemma land_31 x : Z.land x 31 = x mod 32.
Proof. apply (land_mask x 5). lia. Qed.
Lemma land_15 x : Z.land x 15 = x mod 16.
Proof. apply (land_mask x 4). lia. Qed.
Lemma land_7 x : Z.land x 7 = x mod 8.
Proof. apply (land_mask x 3). lia. Qed.
Lemma shiftr_6 x : Z.shiftr x 6 = x / 64.
Proof. apply (Z.shiftr_div_pow2 x 6). lia. Qed.
Lemma shiftr_12 x : Z.shiftr x 12 = x / 4096.
Proof. apply (Z.shiftr_div_pow2 x 12). lia. Qed.
Lemma shiftr_18 x : Z.shiftr x 18 = x / 262144.
Proof. apply (Z.shiftr_div_pow2 x 18). lia. Qed.
Lemma shiftl_6 x : Z.shiftl x 6 = x * 64.
Proof. apply (Z.shiftl_mul_pow2 x 6). lia. Qed.
Lemma lor_128 y : 0 <= y < 64 -> Z.lor 128 y = 128 + y.
Proof. intros Hy. apply (lor_disjoint 2 y 6); lia. Qed.
Lemma lor_mul64 a y : 0 <= y < 64 -> Z.lor (a * 64) y = a * 64 + y.
Proof. intros Hy. apply (lor_disjoint a y 6); lia. Qed.

Create Rewrite HintDb bits_rw.
#[export] Hint Rewrite land_63 land_31 land_15 land_7 shiftr_6 shiftr_12 shiftr_18 shiftl_6 : bits_rw.
#[export] Hint Rewrite lor_128 lor_mul64 using (apply Z.mod_pos_bound; lia) : bits_rw.

(** ** Tactics *)

(** Case on every boolean [Z] comparison in the goal, turning each into
    its [Prop] form for [lia]. *)
Ltac zcase :=
  repeat match goal with
         | |- context [?a =? ?b] => destruct (Z.eqb_spec a b)
         | |- context [?a <=? ?b] => destruct (Z.leb_spec a b)
         | |- context [?a <? ?b] => destruct (Z.ltb_spec a b)
         end.

(** Same, in hypotheses. *)
Ltac zcase_in H :=
  repeat match type of H with
         | context [?a =? ?b] => destruct (Z.eqb_spec a b)
         | context [?a <=? ?b] => destruct (Z.leb_spec a b)
         | context [?a <? ?b] => destruct (Z.ltb_spec a b)
         end.

(** Case on the outermost [if] of the goal, one comparison at a time,
    dropping the branches that contradict the hypotheses. *)
Ltac zcmp c :=
  match c with
  | context [?a =? ?b] => destruct (Z.eqb_spec a b)
  | context [?a <=? ?b] => destruct (Z.leb_spec a b)
  | context [?a <? ?b] => destruct (Z.ltb_spec a b)
  end.
Ltac ifcase :=
  repeat (match goal with |- context [if ?c then _ else _] => zcmp c end;
          cbn [andb orb negb]; try (exfalso; lia)).

(** [lia] after turning [/] and [mod] by constants into equations. *)
Ltac zlia := Z.div_mod_to_equations; lia.

(** Close a goal [~ In x l] for a literal list [l] of integers. *)
Ltac not_in_lit := simpl; intros Hin; repeat (destruct Hin as [Hin|Hin]; [lia|]); exact Hin.
