(* ===== verification/Styles.v ===== *)
(** The inline styles of lines 4-113 and the JavaScript objects they are.

    Module [Style] is the part of ECMAScript's object semantics the styles
    use: an object is the ordered list of its own properties (no key of the
    styles is an array index, so the order is that of creation); an object
    literal defines its properties left to right, a key defined again keeps
    its place and takes the new value (CreateDataProperty); the spread
    [{...base, k: v}] first copies [base]'s own properties into the new
    object, then defines the rest. Module [Styles] is the twelve constants
    and the function [buttonStyle] of the source, and the merged style of
    the "Generated URI" heading (line 289). *)

From Stdlib Require Import ZArith List Lia Bool.
From S2P Require Import Prelude.
Import ListNotations.
Open Scope Z_scope.
Open Scope nostr_scope.

Module Style.

(** A style value: a string or, for [flexGrow], a number. *)
Inductive value := VStr (s : jsstring) | VNum (n : Z).

Definition object := list (jsstring * value).

(** Defining property [k] on [o]. *)
Fixpoint set (k : jsstring) (v : value) (o : object) : object :=
  match o with
  | [] => [(k, v)]
  | (k', v') :: rest => if jseqb k k' then (k, v) :: rest else (k', v') :: set k v rest
  end.

Fixpoint get (k : jsstring) (o : object) : option value :=
  match o with
  | [] => None
  | (k', v) :: rest => if jseqb k k' then Some v else get k rest
  end.

Definition keys (o : object) : list jsstring := map fst o.

Definition define (o : object) (p : jsstring * value) : object := set (fst p) (snd p) o.

(** An object literal [{k1: v1, ..., kn: vn}]. *)
Definition literal (ps : list (jsstring * value)) : object := fold_left define ps [].

(** [{...base, k1: v1, ..., kn: vn}]. *)
Definition spread (base : object) (ps : list (jsstring * value)) : object :=
  fold_left define ps (literal base).

(** Source notation for a property. *)
Definition str (k v : String.string) : jsstring * value := (js k, VStr (js v)).
Definition num (k : String.string) (n : Z) : jsstring * value := (js k, VNum n).
Arguments str (k v)%_string_scope.
Arguments num k%_string_scope n%_Z_scope.

(** The keys of an object after defining [k]. *)
Definition add_key (ks : list jsstring) (k : jsstring) : list jsstring :=
  if existsb (jseqb k) ks then ks else ks ++ [k].

End Style.

Module Styles.
Import Style.

(** Lines 5-12. *)
Definition containerStyle : object := literal
  [str "display" "flex"; str "flexDirection" "column"; str "alignItems" "center";
   str "minHeight" "100vh"; str "background" "linear-gradient(135deg, #141414, #2c2c2c)";
   str "padding" "20px"].

(** Lines 14-24. *)
Definition cardStyle : object := literal
  [str "width" "100%"; str "maxWidth" "700px"; str "padding" "30px";
   str "backgroundColor" "#1f1f1f"; str "borderRadius" "15px";
   str "boxShadow" "0 12px 30px rgba(0,0,0,0.5)"; str "color" "#e0e0e0";
   str "fontFamily" "'Segoe UI', Tahoma, Geneva, Verdana, sans-serif";
   str "marginBottom" "30px"].

(** Lines 26-31. *)
Definition headerStyle : object := literal
  [str "textAlign" "center"; str "color" "#4dabf7"; str "marginBottom" "15px";
   str "fontSize" "1.8rem"].

(** Lines 33-40. *)
Definition infoStyle : object := literal
  [str "backgroundColor" "#272727"; str "padding" "20px"; str "borderRadius" "10px";
   str "marginBottom" "25px"; str "fontSize" "0.95rem"; str "lineHeight" "1.6"].

(** Lines 42-47. *)
Definition labelStyle : object := literal
  [str "fontWeight" "bold"; str "marginBottom" "5px"; str "display" "block";
   str "fontSize" "0.95rem"].

(** Lines 49-58. *)
Definition inputStyle : object := literal
  [str "width" "100%"; str "padding" "12px"; str "marginBottom" "20px";
   str "borderRadius" "6px"; str "border" "1px solid #444"; str "backgroundColor" "#2c2c2c";
   str "color" "#e0e0e0"; str "fontSize" "0.95rem"].

(** Lines 60-70: a function of the background colour. *)
Definition buttonStyle (bgColor : jsstring) : object := literal
  [(js "backgroundColor", VStr bgColor); str "color" "#fff"; str "padding" "10px 20px";
   str "borderRadius" "5px"; str "border" "none"; str "cursor" "pointer";
   str "fontSize" "0.95rem"; str "marginRight" "10px"; str "marginBottom" "10px"].

(** Lines 72-81. *)
Definition keyBoxStyle : object := literal
  [str "display" "flex"; str "alignItems" "center"; str "backgroundColor" "#333";
   str "padding" "12px"; str "borderRadius" "6px"; str "marginBottom" "15px";
   str "wordBreak" "break-all"; str "fontFamily" "monospace"].

(** Lines 83-87. *)
Definition hexKeyTextStyle : object := literal
  [num "flexGrow" 1; str "color" "#ffeb3b"; str "fontSize" "1.1rem"].

(** Lines 89-93. *)
Definition nipKeyTextStyle : object := literal
  [num "flexGrow" 1; str "color" "#4caf50"; str "fontSize" "1rem"].

(** Lines 95-103. *)
Definition uriBoxStyle : object := literal
  [str "padding" "15px"; str "backgroundColor" "#333"; str "borderRadius" "6px";
   str "wordBreak" "break-all"; str "fontFamily" "monospace"; str "fontSize" "1rem";
   str "marginTop" "15px"].

(** Lines 105-113. *)
Definition detailsBoxStyle : object := literal
  [str "backgroundColor" "#2c2c2c"; str "padding" "15px"; str "borderRadius" "6px";
   str "fontSize" "0.9rem"; str "lineHeight" "1.5"; str "marginTop" "20px";
   str "color" "#c0c0c0"].

(** Line 289: the "Generated URI" heading. *)
Definition uriHeaderStyle : object :=
  spread headerStyle [str "fontSize" "1.4rem"; str "marginTop" "25px"].

End Styles.

Module StyleFacts.
Import Style Styles.

Lemma get_set k k' v o : get k (set k' v o) = if jseqb k k' then Some v else get k o.
Proof.
  induction o as [|[k0 v0] o IH]; cbn; [reflexivity|].
  destruct (jseqb_spec k' k0) as [->|Hne]; cbn.
  - destruct (jseqb k k0); reflexivity.
  - rewrite IH. destruct (jseqb_spec k k') as [->|]; [|reflexivity].
    destruct (jseqb_spec k' k0); [contradiction|reflexivity].
Qed.

Lemma keys_set k v o :
  keys (set k v o) = add_key (keys o) k.
Proof.
  unfold add_key, keys. induction o as [|[k0 v0] o IH]; cbn; [reflexivity|].
  destruct (jseqb_spec k k0) as [->|Hne]; cbn; [reflexivity|].
  rewrite IH. destruct (existsb _ _); reflexivity.
Qed.

(** Defining [ps] on [o]: a key takes the value [ps] gives it last, else
    the one it had. *)
Lemma get_fold_define k ps : forall o,
  get k (fold_left define ps o) =
  match get k (fold_left define ps []) with Some v => Some v | None => get k o end.
Proof.
  induction ps as [|p ps IH]; intros o; cbn [fold_left]; [reflexivity|].
  rewrite (IH (define o p)), (IH (define [] p)).
  destruct (get k (fold_left define ps [])); [reflexivity|].
  unfold define. rewrite !get_set. cbn. destruct (jseqb k (fst p)); reflexivity.
Qed.

(** Keys already there keep their place; new ones follow, in order. *)
Lemma keys_fold_define ps : forall o,
  keys (fold_left define ps o) = fold_left add_key (map fst ps) (keys o).
Proof.
  induction ps as [|p ps IH]; intros o; [reflexivity|].
  cbn [fold_left map]. rewrite IH. unfold define. rewrite keys_set. reflexivity.
Qed.

(** [{...base, ps}]: the value of a key is the one [ps] gives it, else the
    one [base] has. *)
Lemma spread_get k base ps :
  get k (spread base ps) =
  match get k (literal ps) with Some v => Some v | None => get k (literal base) end.
Proof. apply get_fold_define. Qed.

Lemma spread_keys base ps :
  keys (spread base ps) = fold_left add_key (map fst ps) (keys (literal base)).
Proof. apply keys_fold_define. Qed.

End StyleFacts.
