(* ===== verification/Bytes.v ===== *)
(** Number and byte conversions used by the component and by nostr-tools:
    [Number.prototype.toString(radix)] on non-negative integers (module
    [Radix]), noble-hashes' [bytesToHex], [hexToBytes], [bytesToNumberBE],
    [numberToBytesBE] (module [Hex]) and [TypedArray.prototype.toString]
    with the React text of a typed array (module [Uint8]). All are
    collaborators outside [src/], modelled from their specifications. *)

From Stdlib Require Import ZArith List Lia Bool.
From S2P Require Import Prelude.
Import ListNotations.
Open Scope Z_scope.
Open Scope nostr_scope.

Module Radix.

(** Value of a digit list, most significant digit first. *)
Definition digits_val (r : Z) (ds : list Z) : Z :=
  fold_left (fun acc d => acc * r + d) ds 0.

(** Repeated division, least significant digit produced first. The fuel
    bounds the number of digits. *)
Fixpoint digits_aux (fuel : nat) (r n : Z) (acc : list Z) : list Z :=
  match fuel with
  | O => acc
  | S f =>
      let acc' := n mod r :: acc in
      if n <? r then acc' else digits_aux f r (n / r) acc'
  end.

(** The shortest digit list of [n >= 0] in base [r]; [0] has the one digit
    [0]. A number below [2 ^ (log2 n + 1)] has at most [log2 n + 1] digits
    in any base [r >= 2], which is the fuel given. *)
Definition digits (r n : Z) : list Z :=
  digits_aux (S (Z.to_nat (Z.log2 n))) r n [].

(** The character of a digit: [0-9] then lowercase [a-z], as
    [Number.prototype.toString] and [BigInt.prototype.toString] print. *)
Definition digit_char (d : Z) : Z := if d <? 10 then 48 + d else 87 + d.

Definition number_toString (r n : Z) : jsstring := map digit_char (digits r n).

(** [String.prototype.padStart(len, fill)] with a one-unit [fill]. *)
Definition padStart (len : nat) (fill : Z) (s : jsstring) : jsstring :=
  repeat fill (len - length s) ++ s.

(** The [k] low digits of [n] in base [r], most significant first. *)
Fixpoint fixed_digits (r : Z) (k : nat) (n : Z) : list Z :=
  match k with
  | O => []
  | S k' => fixed_digits r k' (n / r) ++ [n mod r]
  end.

Definition digit_ok (r d : Z) : Prop := 0 <= d < r.

Lemma digits_val_app1 r ds d : digits_val r (ds ++ [d]) = digits_val r ds * r + d.
Proof. unfold digits_val. rewrite fold_left_app. reflexivity. Qed.

Lemma digits_val_zeros r m ds : digits_val r (repeat 0 m ++ ds) = digits_val r ds.
Proof.
  unfold digits_val. rewrite fold_left_app.
  replace (fold_left (fun acc d => acc * r + d) (repeat 0 m) 0) with 0; [reflexivity|].
  induction m as [|m IH]; simpl; [reflexivity|]. rewrite <- IH. reflexivity.
Qed.

Lemma length_fixed_digits r k n : length (fixed_digits r k n) = k.
Proof.
  revert n; induction k as [|k IH]; intros n; simpl; [reflexivity|].
  rewrite length_app, IH. simpl. lia.
Qed.

Section Base.
Variable r : Z.
Hypothesis Hr : 2 <= r.

Lemma digits_aux_ok fuel : forall n acc,
  0 <= n < r ^ Z.of_nat (S fuel) ->
  exists ds, digits_aux (S fuel) r n acc = ds ++ acc /\ ds <> [] /\
    digits_val r ds = n /\ Forall (digit_ok r) ds /\
    (length ds <= S fuel)%nat /\
    (length ds = 1%nat \/ r ^ Z.of_nat (length ds - 1) <= n).
Proof.
  induction fuel as [|f IH]; intros n acc Hn.
  - simpl in Hn |- *. replace (n <? r) with true by (symmetry; apply Z.ltb_lt; lia).
    exists [n mod r]. rewrite Z.mod_small by lia.
    repeat split; try (constructor; [unfold digit_ok; lia | constructor]); auto; discriminate.
  - change (digits_aux (S (S f)) r n acc) with
      (if n <? r then n mod r :: acc else digits_aux (S f) r (n / r) (n mod r :: acc)).
    destruct (Z.ltb_spec n r) as [Hlt|Hge].
    + exists [n mod r]. rewrite Z.mod_small by lia.
      repeat split; try (constructor; [unfold digit_ok; lia | constructor]); auto;
        [discriminate | simpl; lia].
    + assert (Hq : 0 <= n / r < r ^ Z.of_nat (S f)).
      { split; [apply Z.div_pos; lia|]. apply Z.div_lt_upper_bound; [lia|].
        rewrite <- Z.pow_succ_r by lia. rewrite <- Nat2Z.inj_succ. lia. }
      destruct (IH (n / r) (n mod r :: acc) Hq) as (ds & Heq & Hne & Hval & Hdig & Hlen & Hmin).
      exists (ds ++ [n mod r]). rewrite <- app_assoc. split; [exact Heq|].
      split; [destruct ds; discriminate|].
      split; [rewrite digits_val_app1, Hval; pose proof (Z.div_mod n r ltac:(lia)); lia|].
      split; [apply Forall_app; split; [assumption|constructor; [unfold digit_ok; apply Z.mod_pos_bound; lia|constructor]]|].
      rewrite length_app; simpl. split; [lia|]. right.
      replace (length ds + 1 - 1)%nat with (length ds) by lia.
      destruct ds as [|d0 ds']; [congruence|].
      simpl length in *. rewrite Nat2Z.inj_succ, Z.pow_succ_r by lia.
      destruct Hmin as [H1|H1].
      * injection H1 as ->. simpl. lia.
      * replace (S (length ds') - 1)%nat with (length ds') in H1 by lia.
        pose proof (Z.mul_div_le n r). nia.
Qed.

Lemma digits_ok n : 0 <= n ->
  digits r n <> [] /\ digits_val r (digits r n) = n /\ Forall (digit_ok r) (digits r n) /\
  (length (digits r n) = 1%nat \/ r ^ Z.of_nat (length (digits r n) - 1) <= n).
Proof.
  intros Hn. unfold digits.
  destruct (digits_aux_ok (Z.to_nat (Z.log2 n)) n [])
    as (ds & Heq & Hne & Hval & Hdig & _ & Hmin).
  - split; [lia|]. rewrite Nat2Z.inj_succ, Z2Nat.id by (apply Z.log2_nonneg).
    destruct (Z.eq_dec n 0) as [->|Hn0]; [change (Z.succ (Z.log2 0)) with 1; rewrite Z.pow_1_r; lia|].
    apply Z.lt_le_trans with (2 ^ Z.succ (Z.log2 n)).
    + apply Z.log2_spec; lia.
    + apply Z.pow_le_mono_l; pose proof (Z.log2_nonneg n); lia.
  - rewrite Heq, app_nil_r. auto.
Qed.

Lemma digits_length_le n k : 0 <= n < r ^ Z.of_nat k -> (1 <= k)%nat ->
  (length (digits r n) <= k)%nat.
Proof.
  intros Hn Hk. destruct (digits_ok n) as (Hne & _ & _ & Hmin); [lia|].
  destruct Hmin as [->|Hmin]; [lia|].
  destruct (Nat.le_gt_cases (length (digits r n)) k) as [|Hgt]; [assumption|].
  exfalso. assert (r ^ Z.of_nat k <= r ^ Z.of_nat (length (digits r n) - 1)).
  { apply Z.pow_le_mono_r; lia. }
  lia.
Qed.

Lemma fixed_digits_unique ds :
  Forall (digit_ok r) ds -> fixed_digits r (length ds) (digits_val r ds) = ds.
Proof.
  induction ds as [|d ds IH] using rev_ind; intros Hall; [reflexivity|].
  apply Forall_app in Hall as [Hds Hd]. inversion Hd as [|? ? [Hd0 Hd1] _]; subst.
  rewrite length_app, Nat.add_1_r. simpl fixed_digits.
  rewrite digits_val_app1.
  replace ((digits_val r ds * r + d) / r) with (digits_val r ds).
  2:{ rewrite Z.div_add_l by lia. rewrite Z.div_small by lia. lia. }
  replace ((digits_val r ds * r + d) mod r) with d.
  2:{ rewrite Z.add_comm, Z.mod_add by lia. rewrite Z.mod_small by lia. reflexivity. }
  rewrite IH by assumption. reflexivity.
Qed.

(** Left-padding the shortest digits with zeros to [k] places gives the
    [k] low digits, when [n] has at most [k] digits. *)
Lemma pad_digits n k : 0 <= n < r ^ Z.of_nat k -> (1 <= k)%nat ->
  repeat 0 (k - length (digits r n)) ++ digits r n = fixed_digits r k n.
Proof.
  intros Hn Hk. destruct (digits_ok n) as (_ & Hval & Hdig & _); [lia|].
  pose proof (digits_length_le n k Hn Hk) as Hlen.
  set (ds := repeat 0 (k - length (digits r n)) ++ digits r n).
  assert (Hds : Forall (digit_ok r) ds).
  { apply Forall_app; split; [|assumption].
    apply Forall_forall; intros x Hx. apply repeat_spec in Hx; subst. unfold digit_ok; lia. }
  assert (Hl : length ds = k) by (unfold ds; rewrite length_app, repeat_length; lia).
  rewrite <- (fixed_digits_unique ds Hds). rewrite Hl. unfold ds. rewrite digits_val_zeros, Hval.
  reflexivity.
Qed.

Lemma fixed_digits_ok k n : Forall (digit_ok r) (fixed_digits r k n).
Proof.
  revert n; induction k as [|k IH]; intros n; simpl; [constructor|].
  apply Forall_app; split; [apply IH|]. constructor; [|constructor].
  unfold digit_ok. apply Z.mod_pos_bound. lia.
Qed.

Lemma digits_val_fixed k n : 0 <= n < r ^ Z.of_nat k ->
  digits_val r (fixed_digits r k n) = n.
Proof.
  revert n; induction k as [|k IH]; intros n Hn.
  { change (r ^ Z.of_nat 0) with (r ^ 0) in Hn. rewrite Z.pow_0_r in Hn.
    unfold digits_val; simpl; lia. }
  simpl fixed_digits. rewrite digits_val_app1, IH.
  - pose proof (Z.div_mod n r ltac:(lia)). lia.
  - split; [apply Z.div_pos; lia|]. apply Z.div_lt_upper_bound; [lia|].
    rewrite Nat2Z.inj_succ, Z.pow_succ_r in Hn by lia. lia.
Qed.
End Base.

Lemma digit_char_range d : 0 <= d < 16 ->
  (48 <= digit_char d <= 57 /\ d < 10) \/ (97 <= digit_char d <= 102 /\ 10 <= d).
Proof. unfold digit_char. intros. zcase; lia. Qed.

End Radix.

Module Hex.
Import Radix.

(** noble-hashes [utils.ts]: [hexes[b] = b.toString(16).padStart(2, '0')],
    [bytesToHex] concatenates [hexes[bytes[i]]]. The bytes of a
    [Uint8Array] are in [0, 256) by its type. *)
Definition byte_hex (b : Z) : jsstring := padStart 2 48 (number_toString 16 b).

Definition bytesToHex (bytes : list Z) : jsstring := flat_map byte_hex bytes.

(** [asciiToBase16]: ['0'-'9'], ['A'-'F'], ['a'-'f']. *)
Definition asciiToBase16 (ch : Z) : option Z :=
  if (48 <=? ch) && (ch <=? 57) then Some (ch - 48)
  else if (65 <=? ch) && (ch <=? 70) then Some (ch - 55)
  else if (97 <=? ch) && (ch <=? 102) then Some (ch - 87)
  else None.

(** The loop of [hexToBytes]: two characters per byte, an exception at the
    first pair with a non-hex character. *)
Fixpoint hexToBytes_loop (hex : jsstring) : throws (list Z) :=
  match hex with
  | c1 :: c2 :: rest =>
      match asciiToBase16 c1, asciiToBase16 c2 with
      | Some n1, Some n2 => r <- hexToBytes_loop rest ;; Ret (n1 * 16 + n2 :: r)
      | _, _ => Throw ExnHexCharacter
      end
  | _ => Ret []
  end.

Definition hexToBytes (hex : jsstring) : throws (list Z) :=
  if Nat.odd (length hex) then Throw ExnHexUnpadded else hexToBytes_loop hex.

(** [hexToNumber(hex) = hex === '' ? 0n : BigInt('0x' + hex)]; only applied
    to the output of [bytesToHex], whose characters are all hex digits. *)
Definition hex_value (c : Z) : Z :=
  match asciiToBase16 c with Some v => v | None => 0 end.

Definition hexToNumber (hex : jsstring) : Z := digits_val 16 (map hex_value hex).

Definition bytesToNumberBE (bytes : list Z) : Z := hexToNumber (bytesToHex bytes).

(** [bytesToNumberLE(bytes) = hexToNumber(bytesToHex(Uint8Array.from(bytes).reverse()))]. *)
Definition bytesToNumberLE (bytes : list Z) : Z := hexToNumber (bytesToHex (rev bytes)).

(** [numberToBytesBE(n, len) = hexToBytes(n.toString(16).padStart(len * 2, '0'))]. *)
Definition numberToBytesBE (n : Z) (len : nat) : throws (list Z) :=
  hexToBytes (padStart (2 * len) 48 (number_toString 16 n)).

(** Two hex digits per byte. *)
Fixpoint pair_up (ds : list Z) : list Z :=
  match ds with
  | a :: b :: rest => a * 16 + b :: pair_up rest
  | _ => []
  end.

Lemma asciiToBase16_digit_char d : 0 <= d < 16 -> asciiToBase16 (digit_char d) = Some d.
Proof.
  intros Hd. unfold asciiToBase16, digit_char.
  destruct (Z.ltb_spec d 10); zcase; cbn [andb]; try (f_equal; lia); lia.
Qed.

Lemma hex_value_digit_char d : 0 <= d < 16 -> hex_value (digit_char d) = d.
Proof. intros Hd. unfold hex_value. rewrite asciiToBase16_digit_char; auto. Qed.

Lemma padStart_digits k ds :
  padStart k 48 (map digit_char ds) = map digit_char (repeat 0 (k - length ds) ++ ds).
Proof.
  unfold padStart. rewrite map_app, length_map. f_equal.
  rewrite map_repeat. reflexivity.
Qed.

Lemma byte_hex_fixed b : is_byte b -> byte_hex b = map digit_char (fixed_digits 16 2 b).
Proof.
  intros Hb. unfold byte_hex, number_toString. rewrite padStart_digits.
  rewrite pad_digits by (unfold is_byte in Hb; simpl; lia). reflexivity.
Qed.

Lemma fixed_digits_16_2 b : fixed_digits 16 2 b = [(b / 16) mod 16; b mod 16].
Proof. reflexivity. Qed.

Lemma pair_up_byte b : is_byte b -> (b / 16) mod 16 * 16 + b mod 16 = b.
Proof.
  unfold is_byte. intros Hb. rewrite (Z.mod_small (b / 16)) by (split; [apply Z.div_pos|apply Z.div_lt_upper_bound]; lia).
  pose proof (Z.div_mod b 16 ltac:(lia)). lia.
Qed.

Lemma pair_up_app xs ys : Nat.even (length xs) = true -> pair_up (xs ++ ys) = pair_up xs ++ pair_up ys.
Proof.
  revert xs. fix IH 1. intros [|a [|b xs]] Hev; simpl in *; [reflexivity|discriminate|].
  rewrite IH by assumption. reflexivity.
Qed.

Lemma hexToBytes_loop_digits ds :
  Forall (digit_ok 16) ds -> Nat.even (length ds) = true ->
  hexToBytes_loop (map digit_char ds) = Ret (pair_up ds).
Proof.
  revert ds. fix IH 1. intros [|a [|b ds]] Hall Hev; simpl in *; [reflexivity|discriminate|].
  inversion Hall as [|? ? Ha Hall']; inversion Hall' as [|? ? Hb Hds]; subst.
  rewrite !asciiToBase16_digit_char by assumption.
  rewrite IH by assumption. reflexivity.
Qed.

Lemma length_bytesToHex bs : Forall is_byte bs -> length (bytesToHex bs) = (2 * length bs)%nat.
Proof.
  induction 1 as [|b bs Hb _ IH]; [reflexivity|].
  unfold bytesToHex in *. cbn [flat_map]. rewrite length_app, IH, byte_hex_fixed by assumption.
  simpl. lia.
Qed.

Lemma bytesToHex_digits bs : Forall is_byte bs ->
  bytesToHex bs = map digit_char (flat_map (fixed_digits 16 2) bs).
Proof.
  induction 1 as [|b bs Hb _ IH]; [reflexivity|].
  unfold bytesToHex in *. cbn [flat_map]. rewrite IH, byte_hex_fixed, map_app by assumption.
  reflexivity.
Qed.

Lemma pair_up_hex_bytes bs : Forall is_byte bs -> pair_up (flat_map (fixed_digits 16 2) bs) = bs.
Proof.
  induction 1 as [|b bs Hb _ IH]; [reflexivity|].
  cbn [flat_map]. rewrite fixed_digits_16_2. cbn [app pair_up]. rewrite IH, pair_up_byte by assumption.
  reflexivity.
Qed.

Lemma hex_digits_ok bs : Forall (digit_ok 16) (flat_map (fixed_digits 16 2) bs).
Proof.
  induction bs as [|b bs IH]; cbn [flat_map]; [constructor|].
  apply Forall_app; split; [apply fixed_digits_ok; lia | exact IH].
Qed.

Lemma even_double n : Nat.even (2 * n) = true.
Proof. rewrite Nat.even_mul. reflexivity. Qed.

Lemma odd_double n : Nat.odd (2 * n) = false.
Proof. rewrite <- Nat.negb_even, even_double. reflexivity. Qed.

(** Decoding the hex of a byte array gives the bytes back. *)
Theorem hexToBytes_bytesToHex bs : Forall is_byte bs -> hexToBytes (bytesToHex bs) = Ret bs.
Proof.
  intros Hbs. unfold hexToBytes. rewrite length_bytesToHex, odd_double by assumption.
  rewrite bytesToHex_digits by assumption.
  rewrite hexToBytes_loop_digits.
  - rewrite pair_up_hex_bytes; auto.
  - apply hex_digits_ok.
  - rewrite <- (length_map digit_char), <- bytesToHex_digits, length_bytesToHex by assumption.
    apply even_double.
Qed.

Lemma asciiToBase16_lower c : is_lower_hex c -> exists v, asciiToBase16 c = Some v /\ 0 <= v < 16.
Proof.
  unfold is_lower_hex, asciiToBase16. intros Hc.
  zcase; cbn [andb]; try (exfalso; lia); eexists; (split; [reflexivity|]); lia.
Qed.

(** A lowercase hex string of [2 * n] characters decodes to [n] bytes. *)
Lemma hexToBytes_lower h n : Forall is_lower_hex h -> length h = (2 * n)%nat ->
  exists b, hexToBytes h = Ret b /\ length b = n /\ Forall is_byte b.
Proof.
  intros Hh Hn. unfold hexToBytes. rewrite Hn, odd_double.
  revert h Hh Hn; induction n as [|n IH]; intros h Hh Hn.
  - destruct h; [|discriminate]. exists []. auto.
  - destruct h as [|c1 [|c2 rest]]; try (simpl in Hn; lia).
    apply Forall_cons_iff in Hh as [H1 Hh]. apply Forall_cons_iff in Hh as [H2 Hh].
    destruct (asciiToBase16_lower _ H1) as (v1 & E1 & B1).
    destruct (asciiToBase16_lower _ H2) as (v2 & E2 & B2).
    destruct (IH rest Hh ltac:(simpl in Hn; lia)) as (b & Eb & Lb & Fb).
    exists (v1 * 16 + v2 :: b). cbn [hexToBytes_loop]. rewrite E1, E2, Eb.
    split; [reflexivity|]. split; [simpl; lia|]. constructor; [unfold is_byte; lia|exact Fb].
Qed.

Lemma pair_up_fixed k n : pair_up (fixed_digits 16 (2 * k) n) = fixed_digits 256 k n.
Proof.
  revert n; induction k as [|k IH]; intros n; [reflexivity|].
  replace (2 * S k)%nat with (S (S (2 * k))) by lia.
  change (fixed_digits 16 (S (S (2 * k))) n)
    with ((fixed_digits 16 (2 * k) (n / 16 / 16) ++ [(n / 16) mod 16]) ++ [n mod 16]).
  rewrite <- app_assoc. rewrite pair_up_app by (rewrite length_fixed_digits; apply even_double).
  rewrite IH. simpl. rewrite Z.div_div by lia.
  replace ((n / 16) mod 16 * 16 + n mod 16) with (n mod 256); [reflexivity|].
  change 256 with (16 * 16). rewrite Z.rem_mul_r by lia. lia.
Qed.

(** [numberToBytesBE] on a number that fits: the [len] big-endian bytes. *)
Theorem numberToBytesBE_fits n len : 0 <= n < 256 ^ Z.of_nat len -> (1 <= len)%nat ->
  numberToBytesBE n len = Ret (fixed_digits 256 len n).
Proof.
  intros Hn Hlen. unfold numberToBytesBE, number_toString.
  rewrite padStart_digits, pad_digits by
    (lia || (rewrite Nat2Z.inj_mul, Z.pow_mul_r by lia; exact Hn)).
  unfold hexToBytes. rewrite length_map, length_fixed_digits, odd_double.
  rewrite hexToBytes_loop_digits.
  - apply f_equal, pair_up_fixed.
  - apply fixed_digits_ok; lia.
  - rewrite length_fixed_digits. apply even_double.
Qed.

(** [bytesToNumberBE] is the big-endian value of the bytes. *)
Theorem bytesToNumberBE_val bs : Forall is_byte bs -> bytesToNumberBE bs = digits_val 256 bs.
Proof.
  intros Hbs. unfold bytesToNumberBE, hexToNumber. rewrite bytesToHex_digits by assumption.
  rewrite map_map.
  rewrite (map_ext_in _ (fun d => d)), map_id.
  2:{ intros d Hd. apply hex_value_digit_char.
      pose proof (hex_digits_ok bs) as H. rewrite Forall_forall in H. apply H, Hd. }
  induction bs as [|b bs IH] using rev_ind; [reflexivity|].
  apply Forall_app in Hbs as [Hbs Hb']. inversion Hb' as [|? ? Hb _]; subst.
  rewrite flat_map_app. cbn [flat_map]. rewrite app_nil_r, fixed_digits_16_2.
  change [(b / 16) mod 16; b mod 16] with ([(b / 16) mod 16] ++ [b mod 16]).
  rewrite app_assoc, !digits_val_app1, IH by assumption.
  rewrite <- (pair_up_byte b) at 3 by assumption. lia.
Qed.

Lemma hexToBytes_bytesToHex_witness :
  hexToBytes (bytesToHex [0; 15; 16; 171; 255]) = Ret [0; 15; 16; 171; 255].
Proof. apply hexToBytes_bytesToHex. apply bytes_check. reflexivity. Defined.

End Hex.

Module Uint8.
Import Radix.

(** [TypedArray.prototype.toString] is [Array.prototype.toString], i.e.
    [join(",")] of the elements, each printed by [Number.prototype.toString]
    in base 10. This is what a [Uint8Array] becomes wherever a string is
    expected ([URLSearchParams.append], [clipboard.writeText]). *)
Definition toString (bytes : list Z) : jsstring :=
  join (js ",") (map (number_toString 10) bytes).

(** React renders an iterable child as its items one after the other, a
    number as its decimal text: the text shown for [{clientKeys.sk}]. *)
Definition react_text (bytes : list Z) : jsstring :=
  concat (map (number_toString 10) bytes).

Definition is_decimal_char (c : Z) : Prop := 48 <= c <= 57.

Lemma number_toString_10_chars n : 0 <= n ->
  Forall is_decimal_char (number_toString 10 n).
Proof.
  intros Hn. destruct (digits_ok 10 ltac:(lia) n Hn) as (_ & _ & Hdig & _).
  unfold number_toString. apply Forall_map. eapply Forall_impl; [|exact Hdig].
  intros d Hd. unfold digit_ok, digit_char, is_decimal_char in *. zcase; lia.
Qed.

Lemma number_toString_10_no_comma n : 0 <= n -> ~ In 44 (number_toString 10 n).
Proof.
  intros Hn Hin. pose proof (number_toString_10_chars n Hn) as H.
  rewrite Forall_forall in H. specialize (H 44 Hin). unfold is_decimal_char in H. lia.
Qed.

Lemma number_toString_not_nil r n : 2 <= r -> 0 <= n -> number_toString r n <> [].
Proof.
  intros Hr Hn. unfold number_toString. destruct (digits_ok r Hr n Hn) as (Hne & _).
  destruct (digits r n); [congruence | discriminate].
Qed.

(** The text React shows for a byte array has no comma. *)
Lemma react_text_no_comma bs : Forall is_byte bs -> ~ In 44 (react_text bs).
Proof.
  intros Hbs Hin. unfold react_text in Hin. apply in_concat in Hin as (t & Ht & Hin).
  apply in_map_iff in Ht as (b & <- & Hb). rewrite Forall_forall in Hbs.
  specialize (Hbs b Hb). unfold is_byte in Hbs. exact (number_toString_10_no_comma b ltac:(lia) Hin).
Qed.

(** The comma-separated text splits back into the decimal numbers. *)
Lemma toString_split bs : bs <> [] -> Forall is_byte bs ->
  split_on 44 (toString bs) = map (number_toString 10) bs.
Proof.
  intros Hne Hbs. unfold toString. apply split_on_join.
  - destruct bs; [congruence | discriminate].
  - apply Forall_map. eapply Forall_impl; [|exact Hbs].
    intros b Hb. apply number_toString_10_no_comma. unfold is_byte in Hb. lia.
Qed.

End Uint8.
