(* ===== verification/Bech32.v ===== *)
(** NIP-19 encoding as nostr-tools 2 does it ([nip19.ts]) over scure-base's
    [bech32]: [npubEncode(hex) = encodeBytes('npub', hexToBytes(hex))],
    [nsecEncode(key) = encodeBytes('nsec', key)], where
    [encodeBytes(prefix, bytes) = bech32.encode(prefix, toWords(bytes), 5000)].
    [bech32] is modelled from scure-base: the BIP-173 checksum
    ([bech32Polymod], [bechChecksum]), the bit regrouping [convertRadix2],
    the 32-letter alphabet, [encode] and [decode]. Collaborators outside
    [src/]. JS numbers are modelled as [Z]: the values stay below [2^31],
    where JS bit operations agree with [Z]'s ([polymod_bound]).
    [toLowerCase] and [toUpperCase] are modelled on ASCII letters only
    (the prefixes used are ASCII). *)

From Stdlib Require Import ZArith List Lia Bool.
From S2P Require Import Prelude Bytes.
Import ListNotations.
Open Scope Z_scope.
Open Scope nostr_scope.

Module Bech32.

Definition ALPHABET : jsstring := js "qpzry9x8gf2tvdw0s3jn54khce6mua7l".
Definition GENERATORS : list Z := [0x3b6a57b2; 0x26508e6d; 0x1ea119fa; 0x3d4233dd; 0x2a1462b3].

(** [for (i = 0; i < 5; i++) if (((b >> i) & 1) === 1) chk ^= G[i]]. *)
Fixpoint apply_generators (b i : Z) (gens : list Z) (chk : Z) : Z :=
  match gens with
  | [] => chk
  | g :: gs =>
      apply_generators b (i + 1) gs
        (if Z.land (Z.shiftr b i) 1 =? 1 then Z.lxor chk g else chk)
  end.

(** [bech32Polymod(pre)]. *)
Definition polymod (pre : Z) : Z :=
  let b := Z.shiftr pre 25 in
  apply_generators b 0 GENERATORS (Z.shiftl (Z.land pre 0x1ffffff) 5).

(** [BECH_ALPHABET.encode]: each digit (in [0, 32)) as its letter. *)
Fixpoint alphabet_encode (digits : list Z) : throws jsstring :=
  match digits with
  | [] => Ret []
  | d :: rest =>
      assert! (0 <=? d) && (d <? 32) else ExnRadix ;;
      r <- alphabet_encode rest ;; Ret (nth (Z.to_nat d) ALPHABET 0 :: r)
  end.

Fixpoint index_of (c : Z) (l : list Z) (i : Z) : option Z :=
  match l with
  | [] => None
  | x :: rest => if x =? c then Some i else index_of c rest (i + 1)
  end.

(** [BECH_ALPHABET.decode]: each letter as its digit. *)
Fixpoint alphabet_decode (s : jsstring) : throws (list Z) :=
  match s with
  | [] => Ret []
  | c :: rest =>
      match index_of c ALPHABET 0 with
      | Some d => r <- alphabet_decode rest ;; Ret (d :: r)
      | None => Throw ExnBech32Decode
      end
  end.

(** The inner loop of [convertRadix2]:
    [for (; pos >= to; pos -= to) res.push(((carry >> (pos - to)) & mask) >>> 0)].
    [pos] is at most 32 (checked before), so 33 rounds of fuel end it. *)
Fixpoint drain (fuel : nat) (carry pos to : Z) (res : list Z) : Z * list Z :=
  match fuel with
  | O => (pos, res)
  | S f =>
      if pos <? to then (pos, res)
      else drain f carry (pos - to) to (Z.land (Z.shiftr carry (pos - to)) (2 ^ to - 1) :: res)
  end.

(** The outer loop; [res] is kept reversed. *)
Fixpoint radix_loop (data : list Z) (from to carry pos : Z) (res : list Z)
  : throws (Z * Z * list Z) :=
  match data with
  | [] => Ret (carry, pos, res)
  | n :: rest =>
      assert! (0 <=? n) && (n <? 2 ^ from) else ExnRadix ;;
      let carry := Z.lor (Z.shiftl carry from) n in
      assert! (pos + from <=? 32) else ExnRadix ;;
      match drain 33 carry (pos + from) to res with
      | (pos', res') => radix_loop rest from to (Z.land carry (2 ^ pos' - 1)) pos' res'
      end
  end.

(** [convertRadix2(data, from, to, padding)]. *)
Definition convertRadix2 (data : list Z) (from to : Z) (padding : bool) : throws (list Z) :=
  assert! (0 <? from) && (from <=? 32) && (0 <? to) && (to <=? 32) else ExnRadix ;;
  assert! (from + (to - Z.gcd from to) <=? 32) else ExnRadix ;;
  match radix_loop data from to 0 0 [] with
  | Throw e => Throw e
  | Ret (carry, pos, res) =>
      let carry := Z.land (Z.shiftl carry (to - pos)) (2 ^ to - 1) in
      assert! negb (negb padding && (from <=? pos)) else ExnRadix ;;
      assert! negb (negb padding && (0 <? carry)) else ExnRadix ;;
      Ret (rev (if padding && (0 <? pos) then carry :: res else res))
  end.

Definition toWords (bytes : list Z) : throws (list Z) := convertRadix2 bytes 8 5 true.
Definition fromWords (words : list Z) : throws (list Z) := convertRadix2 words 5 8 false.

Definition lower_char (c : Z) : Z := if (65 <=? c) && (c <=? 90) then c + 32 else c.
Definition upper_char (c : Z) : Z := if (97 <=? c) && (c <=? 122) then c - 32 else c.
Definition toLowerCase (s : jsstring) : jsstring := map lower_char s.
Definition toUpperCase (s : jsstring) : jsstring := map upper_char s.

Definition printable (c : Z) : bool := (33 <=? c) && (c <=? 126).

(** [bechChecksum(prefix, words, encodingConst)]. *)
Definition checksum (prefix : jsstring) (words : list Z) (encodingConst : Z) : throws jsstring :=
  assert! forallb printable prefix else ExnBech32Prefix ;;
  let chk := fold_left (fun chk c => Z.lxor (polymod chk) (Z.shiftr c 5)) prefix 1 in
  let chk := polymod chk in
  let chk := fold_left (fun chk c => Z.lxor (polymod chk) (Z.land c 0x1f)) prefix chk in
  let chk := fold_left (fun chk v => Z.lxor (polymod chk) v) words chk in
  let chk := fold_left (fun chk _ => polymod chk) (repeat tt 6) chk in
  let chk := Z.lxor chk encodingConst in
  ds <- convertRadix2 [chk mod 2 ^ 30] 30 5 false ;;
  alphabet_encode ds.

(** [bech32.encode(prefix, words, limit)] ([limit = None] is [false]). *)
Definition encode (prefix : jsstring) (words : list Z) (limit : option Z) : throws jsstring :=
  let plen := length prefix in
  assert! negb (plen =? 0)%nat else ExnBech32Prefix ;;
  let actualLength := Z.of_nat plen + 7 + Z.of_nat (length words) in
  assert! match limit with Some l => actualLength <=? l | None => true end else ExnBech32Length ;;
  let lowered := toLowerCase prefix in
  sum <- checksum lowered words 1 ;;
  w <- alphabet_encode words ;;
  Ret (lowered ++ js "1" ++ w ++ sum).

Fixpoint last_index_of (c : Z) (l : list Z) (i : Z) (found : Z) : Z :=
  match l with
  | [] => found
  | x :: rest => last_index_of c rest (i + 1) (if x =? c then i else found)
  end.

Fixpoint ends_with (s suffix : jsstring) : bool :=
  if list_eq_dec Z.eq_dec s suffix then true
  else match s with [] => false | _ :: rest => ends_with rest suffix end.

(** [bech32.decode(str, limit)]: the prefix and the data words. *)
Definition decode (str : jsstring) (limit : option Z) : throws (jsstring * list Z) :=
  let slen := Z.of_nat (length str) in
  assert! (8 <=? slen) && match limit with Some l => slen <=? l | None => true end
    else ExnBech32Decode ;;
  let lowered := toLowerCase str in
  assert! (if list_eq_dec Z.eq_dec str lowered then true
           else if list_eq_dec Z.eq_dec str (toUpperCase str) then true else false)
    else ExnBech32Decode ;;
  let sepIndex := last_index_of 0x31 lowered 0 (-1) in
  assert! negb ((sepIndex =? 0) || (sepIndex =? -1)) else ExnBech32Decode ;;
  let prefix := firstn (Z.to_nat sepIndex) lowered in
  let data := skipn (Z.to_nat sepIndex + 1) lowered in
  assert! (6 <=? Z.of_nat (length data)) else ExnBech32Decode ;;
  all <- alphabet_decode data ;;
  let words := firstn (length all - 6) all in
  sum <- checksum prefix words 1 ;;
  assert! ends_with data sum else ExnBech32Decode ;;
  Ret (prefix, words).

End Bech32.

Module Nip19.
Import Bech32.

Definition Bech32MaxSize : Z := 5000.

Definition encodeBytes (prefix : jsstring) (bytes : list Z) : throws jsstring :=
  words <- toWords bytes ;; encode prefix words (Some Bech32MaxSize).

Definition npubEncode (hex : jsstring) : throws jsstring :=
  bytes <- Hex.hexToBytes hex ;; encodeBytes (js "npub") bytes.

Definition nsecEncode (key : list Z) : throws jsstring := encodeBytes (js "nsec") key.

(** [nip19.decode] for the two key types: the prefix and the key bytes. *)
Definition decodeBytes (str : jsstring) : throws (jsstring * list Z) :=
  pw <- decode str (Some Bech32MaxSize) ;;
  bytes <- fromWords (snd pw) ;;
  Ret (fst pw, bytes).

End Nip19.

Module Bech32Facts.
Import Bech32 Nip19.

(** A [k]-bit word. *)
Definition word (k w : Z) : Prop := 0 <= w < 2 ^ k.

(** A letter of the bech32 alphabet. *)
Definition in_alphabet (c : Z) : Prop := In c ALPHABET.

Lemma land_word x k : 0 <= k -> word k (Z.land x (2 ^ k - 1)).
Proof.
  intros Hk. unfold word. rewrite land_mask by lia.
  apply Z.mod_pos_bound, Z.pow_pos_nonneg; lia.
Qed.

Lemma lxor_bound a b k : 0 <= k -> word k a -> word k b -> word k (Z.lxor a b).
Proof.
  unfold word. intros Hk Ha Hb.
  assert (E : Z.lxor a b = Z.lxor a b mod 2 ^ k).
  { apply Z.bits_inj'. intros i Hi. destruct (Z.ltb_spec i k).
    - rewrite Z.mod_pow2_bits_low by lia. reflexivity.
    - rewrite Z.mod_pow2_bits_high, Z.lxor_spec by lia.
      rewrite <- (Z.mod_small a (2 ^ k)), <- (Z.mod_small b (2 ^ k)) by lia.
      rewrite !Z.mod_pow2_bits_high by lia. reflexivity. }
  rewrite E. apply Z.mod_pos_bound, Z.pow_pos_nonneg; lia.
Qed.

Lemma apply_generators_bound b gens : Forall (word 30) gens ->
  forall i chk, word 30 chk -> word 30 (apply_generators b i gens chk).
Proof.
  induction 1 as [|g gs Hg _ IH]; intros i chk Hc; [exact Hc|].
  cbn [apply_generators]. apply IH.
  destruct (_ =? 1); [apply lxor_bound; auto; lia|exact Hc].
Qed.

(** [bech32Polymod] stays below [2^30], whatever its input: the JS bit
    operations it and [bechChecksum] use act on values below [2^31], where
    they agree with the unbounded [Z] operations of the model. *)
Theorem polymod_bound pre : 0 <= polymod pre < 2 ^ 30.
Proof.
  apply apply_generators_bound.
  - repeat constructor; unfold word; lia.
  - unfold word. change 0x1ffffff with (2 ^ 25 - 1).
    rewrite Z.shiftl_mul_pow2, land_mask by lia.
    pose proof (Z.mod_pos_bound pre (2 ^ 25) ltac:(lia)). lia.
Qed.

Lemma drain_ok fuel : forall carry pos to res,
  0 < to -> 0 <= pos -> (Z.to_nat (pos / to) < fuel)%nat -> Forall (word to) res ->
  fst (drain fuel carry pos to res) = pos mod to /\
  length (snd (drain fuel carry pos to res)) = (length res + Z.to_nat (pos / to))%nat /\
  Forall (word to) (snd (drain fuel carry pos to res)).
Proof.
  induction fuel as [|f IH]; intros carry pos to res Hto Hpos Hf Hres; [lia|].
  cbn [drain]. destruct (Z.ltb_spec pos to).
  - cbn [fst snd]. rewrite Z.mod_small, Z.div_small by lia. repeat split; auto; lia.
  - assert (Hq : (pos - to) / to = pos / to - 1).
    { replace (pos - to) with (pos + (-1) * to) by ring. rewrite Z.div_add; lia. }
    assert (Hq0 : 1 <= pos / to) by (apply Z.div_le_lower_bound; lia).
    destruct (IH carry (pos - to) to (Z.land (Z.shiftr carry (pos - to)) (2 ^ to - 1) :: res))
      as (H1 & H2 & H3); try lia; [constructor; [apply land_word; lia|exact Hres]|].
    rewrite H1, H2, Hq. split; [|split; [simpl length; lia|exact H3]].
    replace (pos - to) with (pos + (-1) * to) by ring. apply Z.mod_add; lia.
Qed.

Lemma radix_loop_cons n rest from to carry pos res :
  word from n -> pos + from <= 32 ->
  radix_loop (n :: rest) from to carry pos res =
  (let c := Z.lor (Z.shiftl carry from) n in
   let '(p, r) := drain 33 c (pos + from) to res in
   radix_loop rest from to (Z.land c (2 ^ p - 1)) p r).
Proof.
  intros [H1 H2] H3. cbn [radix_loop].
  rewrite (proj2 (Z.leb_le _ _) H1), (proj2 (Z.ltb_lt _ _) H2), (proj2 (Z.leb_le _ _) H3).
  reflexivity.
Qed.

(** The outer loop of [convertRadix2] consumes every word: it returns, and
    the bits pushed plus the bits pending are the bits read. *)
Lemma radix_loop_ok data : forall from to carry pos res,
  0 < from -> 0 < to -> from + to - 1 <= 32 -> 0 <= pos < to ->
  Forall (word from) data -> Forall (word to) res ->
  exists carry' pos' res', radix_loop data from to carry pos res = Ret (carry', pos', res') /\
    0 <= pos' < to /\
    Z.of_nat (length res') * to + pos' =
      Z.of_nat (length res) * to + pos + Z.of_nat (length data) * from /\
    Forall (word to) res'.
Proof.
  induction data as [|n rest IH]; intros from to carry pos res Hf Ht Hft Hp Hd Hr.
  - exists carry, pos, res. simpl length. repeat split; auto; lia.
  - apply Forall_cons_iff in Hd as [Hn Hd].
    rewrite radix_loop_cons by (auto; lia). cbv zeta.
    pose proof (Z.div_le_upper_bound (pos + from) to 32 ltac:(lia) ltac:(nia)).
    destruct (drain_ok 33 (Z.lor (Z.shiftl carry from) n) (pos + from) to res)
      as (H1 & H2 & H3); try lia; auto.
    destruct (drain 33 _ (pos + from) to res) as [p r]. cbn [fst snd] in *. subst p.
    destruct (IH from to (Z.land (Z.lor (Z.shiftl carry from) n) (2 ^ ((pos + from) mod to) - 1))
                ((pos + from) mod to) r) as (c' & p' & r' & E & Hp' & Hl & Hr');
      auto; try (apply Z.mod_pos_bound; lia).
    exists c', p', r'. repeat split; auto; try lia.
    rewrite Hl, H2. pose proof (Z.div_mod (pos + from) to ltac:(lia)).
    pose proof (Z.div_pos (pos + from) to ltac:(lia) ltac:(lia)).
    simpl length. rewrite Nat2Z.inj_add, Z2Nat.id by lia. lia.
Qed.

(** The bits the conversion holds: the words pushed, then the [pos] low
    bits of [carry]. *)
Definition held (to : Z) (carry pos : Z) (res : list Z) : Z :=
  Radix.digits_val (2 ^ to) (rev res) * 2 ^ pos + carry mod 2 ^ pos.

Lemma drain_val fuel : forall carry pos to res,
  0 < to -> 0 <= pos -> (Z.to_nat (pos / to) < fuel)%nat ->
  held to carry (fst (drain fuel carry pos to res)) (snd (drain fuel carry pos to res)) =
  held to carry pos res.
Proof.
  unfold held. induction fuel as [|f IH]; intros carry pos to res Hto Hpos Hf; [lia|].
  cbn [drain]. destruct (Z.ltb_spec pos to); [reflexivity|].
  assert (Hq : (pos - to) / to = pos / to - 1).
  { replace (pos - to) with (pos + (-1) * to) by ring. rewrite Z.div_add; lia. }
  assert (Hq0 : 1 <= pos / to) by (apply Z.div_le_lower_bound; lia).
  rewrite IH by lia. cbn [rev]. rewrite Radix.digits_val_app1.
  rewrite land_mask, Z.shiftr_div_pow2 by lia.
  pose proof (mod_pow2_split carry (pos - to) to ltac:(lia) ltac:(lia)) as Hs.
  replace (pos - to + to) with pos in Hs by ring. rewrite Hs.
  replace (2 ^ pos) with (2 ^ (pos - to) * 2 ^ to) by (rewrite <- Z.pow_add_r by lia; f_equal; ring).
  ring.
Qed.

(** One word read: [carry << from | n] holds the old bits then [n]. *)
Lemma held_push to carry pos res from n : 0 <= pos -> 0 < from -> word from n ->
  held to (Z.lor (Z.shiftl carry from) n) (pos + from) res = held to carry pos res * 2 ^ from + n.
Proof.
  unfold held, word. intros Hp Hf Hn.
  assert (0 < 2 ^ from) by (apply Z.pow_pos_nonneg; lia).
  rewrite Z.shiftl_mul_pow2, lor_disjoint by lia.
  rewrite (Z.add_comm pos from), mod_pow2_split by lia.
  replace ((carry * 2 ^ from + n) / 2 ^ from) with carry
    by (rewrite Z.div_add_l, Z.div_small; lia).
  replace ((carry * 2 ^ from + n) mod 2 ^ from) with n
    by (rewrite Z.add_comm, Z.mod_add, Z.mod_small; lia).
  rewrite Z.pow_add_r by lia. ring.
Qed.

(** The outer loop loses no bit: what it holds at the end is what it held
    at the start followed by the words read. *)
Lemma radix_loop_val data : forall from to carry pos res consumed c' p' r',
  0 < from -> 0 < to -> from + to - 1 <= 32 -> 0 <= pos < to -> 0 <= carry < 2 ^ pos ->
  Forall (word from) data -> Forall (word to) res ->
  held to carry pos res = Radix.digits_val (2 ^ from) consumed ->
  radix_loop data from to carry pos res = Ret (c', p', r') ->
  held to c' p' r' = Radix.digits_val (2 ^ from) (consumed ++ data) /\ 0 <= c' < 2 ^ p'.
Proof.
  induction data as [|n rest IH];
    intros from to carry pos res consumed c' p' r' Hf Ht Hft Hp Hc Hd Hr Hh E.
  - injection E as <- <- <-. rewrite app_nil_r. auto.
  - apply Forall_cons_iff in Hd as [Hn Hd].
    rewrite radix_loop_cons in E by (auto; lia). cbv zeta in E.
    pose proof (Z.div_le_upper_bound (pos + from) to 32 ltac:(lia) ltac:(nia)).
    set (c1 := Z.lor (Z.shiftl carry from) n) in E.
    pose proof (drain_val 33 c1 (pos + from) to res ltac:(lia) ltac:(lia) ltac:(lia)) as Hv.
    destruct (drain_ok 33 c1 (pos + from) to res) as (Hp1 & _ & Hr1); try lia; auto.
    destruct (drain 33 c1 (pos + from) to res) as [p r]. cbn [fst snd] in *. subst p.
    pose proof (Z.mod_pos_bound (pos + from) to Ht).
    replace (consumed ++ n :: rest) with ((consumed ++ [n]) ++ rest)
      by (rewrite <- app_assoc; reflexivity).
    eapply IH; try exact E; auto; try lia.
    + apply land_word. lia.
    + unfold held in Hv |- *. rewrite land_mask by lia.
      rewrite Z.mod_mod by (apply Z.pow_nonzero; lia).
      rewrite Hv. fold (held to c1 (pos + from) res). unfold c1. rewrite held_push by (auto; lia).
      rewrite Hh, Radix.digits_val_app1. reflexivity.
Qed.

Lemma bytes_words bytes : Forall is_byte bytes -> Forall (word 8) bytes.
Proof. apply Forall_impl. unfold is_byte, word. intros b Hb. exact Hb. Qed.

(** [toWords] of a byte array succeeds with [ceil(8n / 5)] five-bit words. *)
Lemma toWords_ok bytes : Forall is_byte bytes ->
  exists ws, toWords bytes = Ret ws /\
    Z.of_nat (length ws) = (8 * Z.of_nat (length bytes) + 4) / 5 /\ Forall (word 5) ws.
Proof.
  intros Hb. destruct (radix_loop_ok bytes 8 5 0 0 []) as (c & p & r & E & Hp & Hl & Hr);
    try lia; auto using bytes_words.
  unfold toWords, convertRadix2. rewrite E. cbn [andb negb Z.ltb Z.leb Z.gcd].
  simpl length in Hl.
  destruct (Z.ltb_spec 0 p); eexists; (split; [reflexivity|]); rewrite length_rev.
  - split; [simpl length; zlia|]. apply Forall_rev. constructor; [apply land_word; lia|exact Hr].
  - split; [zlia|]. apply Forall_rev, Hr.
Qed.

(** [toWords] pads the bits of the bytes with [q < 5] zero bits up to a
    multiple of five. *)
Lemma toWords_val bytes ws : Forall is_byte bytes -> toWords bytes = Ret ws ->
  exists q, 0 <= q < 5 /\ 5 * Z.of_nat (length ws) = 8 * Z.of_nat (length bytes) + q /\
    Radix.digits_val 32 ws = Radix.digits_val 256 bytes * 2 ^ q /\ Forall (word 5) ws.
Proof.
  intros Hb E.
  destruct (radix_loop_ok bytes 8 5 0 0 []) as (c & p & r & El & Hp & Hl & Hr);
    try lia; auto using bytes_words.
  destruct (radix_loop_val bytes 8 5 0 0 [] [] c p r) as (Hv & Hc);
    try (cbn; lia); auto using bytes_words; try reflexivity.
  unfold held in Hv. rewrite Z.mod_small in Hv by lia. cbn [app length] in Hv, Hl.
  change (2 ^ 5) with 32 in Hv. change (2 ^ 8) with 256 in Hv.
  unfold toWords, convertRadix2 in E.
  change ((0 <? 8) && (8 <=? 32) && (0 <? 5) && (5 <=? 32)) with true in E.
  change (8 + (5 - Z.gcd 8 5) <=? 32) with true in E. rewrite El in E. cbn [negb andb] in E.
  pose proof (Z.pow_pos_nonneg 2 (5 - p) ltac:(lia)).
  revert E; destruct (Z.ltb_spec 0 p) as [Hp0|Hp0]; cbn [andb]; intros E%Ret_inj; subst ws.
  - assert (Hw : Z.land (Z.shiftl c (5 - p)) (2 ^ 5 - 1) = c * 2 ^ (5 - p)).
    { rewrite land_mask, Z.shiftl_mul_pow2 by lia. apply Z.mod_small. split; [nia|].
      replace (2 ^ 5) with (2 ^ p * 2 ^ (5 - p)) by (rewrite <- Z.pow_add_r by lia; f_equal; lia).
      apply Z.mul_lt_mono_pos_r; lia. }
    exists (5 - p). rewrite length_rev. cbn [rev length]. rewrite Radix.digits_val_app1, Hw.
    split; [lia|]. split; [lia|]. split.
    + rewrite <- Hv. replace 32 with (2 ^ p * 2 ^ (5 - p))
        by (rewrite <- Z.pow_add_r by lia; replace (p + (5 - p)) with 5 by ring; reflexivity).
      ring.
    + apply Forall_app. split; [apply Forall_rev, Hr|].
      constructor; [rewrite <- Hw; apply land_word; lia|constructor].
  - assert (p = 0) by lia. subst p. exists 0. rewrite length_rev.
    rewrite Z.pow_0_r, Z.mul_1_r in *. split; [lia|]. split; [lia|]. split; [lia|].
    apply Forall_rev, Hr.
Qed.

(** [fromWords] of [8n + q] bits ending in [q < 5] zero bits: the [n]
    bytes of the value above them. *)
Lemma fromWords_val ws n q V : Forall (word 5) ws -> 0 <= q < 5 ->
  5 * Z.of_nat (length ws) = 8 * Z.of_nat n + q -> Radix.digits_val 32 ws = V * 2 ^ q ->
  exists bs, fromWords ws = Ret bs /\ length bs = n /\ Radix.digits_val 256 bs = V /\
    Forall (word 8) bs.
Proof.
  intros Hw Hq Hl Hv.
  destruct (radix_loop_ok ws 5 8 0 0 []) as (c & p & r & El & Hp & Hlr & Hr); try lia; auto.
  destruct (radix_loop_val ws 5 8 0 0 [] [] c p r) as (Hh & Hc); try (cbn; lia); auto;
    try reflexivity.
  unfold held in Hh. rewrite Z.mod_small in Hh by lia. cbn [app length] in Hh, Hlr.
  change (2 ^ 5) with 32 in Hh. change (2 ^ 8) with 256 in Hh.
  assert (p = q) by lia. subst p.
  pose proof (Z.pow_pos_nonneg 2 q ltac:(lia)).
  destruct (Z.div_mod_unique (2 ^ q) (Radix.digits_val 256 (rev r)) V c 0) as [Ev ->];
    try lia.
  unfold fromWords, convertRadix2.
  change ((0 <? 5) && (5 <=? 32) && (0 <? 8) && (8 <=? 32)) with true.
  change (5 + (8 - Z.gcd 5 8) <=? 32) with true. rewrite El.
  replace (5 <=? q) with false by (symmetry; apply Z.leb_gt; lia).
  rewrite Z.shiftl_0_l, Z.land_0_l. cbn [negb andb Z.ltb Z.compare]. eexists; split; [reflexivity|].
  rewrite length_rev. split; [lia|]. split; [exact Ev|]. apply Forall_rev, Hr.
Qed.

(** [fromWords] undoes [toWords]. *)
Lemma fromWords_toWords bytes ws : Forall is_byte bytes -> toWords bytes = Ret ws ->
  fromWords ws = Ret bytes.
Proof.
  intros Hb E. destruct (toWords_val bytes ws Hb E) as (q & Hq & Hl & Hv & Hw).
  destruct (fromWords_val ws (length bytes) q (Radix.digits_val 256 bytes) Hw Hq Hl Hv)
    as (bs & Ef & Lb & Vb & Fb).
  rewrite Ef. f_equal.
  rewrite <- (Radix.fixed_digits_unique 256 ltac:(lia) bs), <- (Radix.fixed_digits_unique 256 ltac:(lia) bytes).
  - rewrite Lb, Vb. reflexivity.
  - exact Hb.
  - exact Fb.
Qed.


Lemma alphabet_encode_ok ds : Forall (word 5) ds ->
  exists s, alphabet_encode ds = Ret s /\ length s = length ds /\ Forall in_alphabet s.
Proof.
  induction 1 as [|d ds [H1 H2] _ (s & E & L & F)]; [exists []; auto|].
  change (2 ^ 5) with 32 in H2. cbn [alphabet_encode].
  rewrite (proj2 (Z.leb_le _ _) H1), (proj2 (Z.ltb_lt _ _) H2), E.
  eexists; split; [reflexivity|]. split; [simpl; lia|]. constructor; [|exact F].
  apply nth_In. change (length ALPHABET) with 32%nat. lia.
Qed.

(** The last step of [bechChecksum]: thirty bits as six five-bit words. *)
Lemma convert30_ok x :
  exists ds, convertRadix2 [x mod 2 ^ 30] 30 5 false = Ret ds /\
    length ds = 6%nat /\ Forall (word 5) ds.
Proof.
  unfold convertRadix2. cbn [andb negb Z.ltb Z.leb Z.gcd Z.add Z.sub].
  rewrite radix_loop_cons by (try apply Z.mod_pos_bound; lia). cbv zeta.
  destruct (drain_ok 33 (Z.lor (Z.shiftl 0 30) (x mod 2 ^ 30)) (0 + 30) 5 [])
    as (H1 & H2 & H3); try (cbn; lia); auto.
  destruct (drain 33 _ (0 + 30) 5 []) as [p r]. cbn [fst snd] in *. subst p.
  change ((0 + 30) mod 5) with 0. cbn [radix_loop]. change (2 ^ 0 - 1) with 0.
  rewrite Z.land_0_r. cbn. eexists; split; [reflexivity|]. rewrite length_rev, H2.
  split; [reflexivity|]. apply Forall_rev, H3.
Qed.

(** [bechChecksum] of a printable prefix is six letters of the alphabet. *)
Lemma checksum_ok prefix words c : forallb printable prefix = true ->
  exists s, checksum prefix words c = Ret s /\ length s = 6%nat /\ Forall in_alphabet s.
Proof.
  intros Hp. unfold checksum. rewrite Hp. cbv zeta.
  match goal with |- context [convertRadix2 [?x mod 2 ^ 30] 30 5 false] =>
    destruct (convert30_ok x) as (ds & E & L & W) end.
  rewrite E. cbn [throws_bind].
  destruct (alphabet_encode_ok ds W) as (s & Es & Ls & Fs). exists s. rewrite Ls. auto.
Qed.

(** What [bech32.encode] returns, when its checks pass: the lowercased
    prefix, the separator ['1'], a letter per word and six checksum letters. *)
Lemma encode_ok prefix words limit : prefix <> [] ->
  forallb printable (toLowerCase prefix) = true -> Forall (word 5) words ->
  match limit with
  | Some l => Z.of_nat (length prefix) + 7 + Z.of_nat (length words) <= l
  | None => True end ->
  exists w sum, encode prefix words limit = Ret (toLowerCase prefix ++ js "1" ++ w ++ sum) /\
    length w = length words /\ length sum = 6%nat /\ Forall in_alphabet (w ++ sum).
Proof.
  intros Hne Hp Hw Hl. unfold encode.
  replace (negb (length prefix =? 0)%nat) with true
    by (destruct prefix; [congruence|reflexivity]).
  replace (match limit with Some l => _ | None => true end) with true
    by (destruct limit; [symmetry; apply Z.leb_le; exact Hl|reflexivity]).
  destruct (checksum_ok (toLowerCase prefix) words 1 Hp) as (sum & Es & Ls & Fs).
  destruct (alphabet_encode_ok words Hw) as (w & Ew & Lw & Fw).
  cbv zeta. rewrite Es. cbn [throws_bind]. rewrite Ew. cbn [throws_bind].
  exists w, sum. repeat split; auto. apply Forall_app; auto.
Qed.

(** What a successful [bech32.encode] was made of. *)
Lemma encode_Ret_inv prefix words limit s : encode prefix words limit = Ret s ->
  exists w sum, checksum (toLowerCase prefix) words 1 = Ret sum /\ alphabet_encode words = Ret w /\
    s = toLowerCase prefix ++ js "1" ++ w ++ sum.
Proof.
  unfold encode. cbv zeta. intros E.
  repeat match type of E with
  | context [if ?b then _ else _] => destruct b; [|discriminate]
  | context [throws_bind ?c _] => destruct c eqn:?; cbn [throws_bind] in E; [|discriminate]
  end.
  apply Ret_inj in E. eauto.
Qed.

(** [encodeBytes] with a short lowercase printable prefix, on a byte array
    of at most 3000 bytes (within the 5000-character limit). *)
Lemma encodeBytes_ok prefix bytes : prefix <> [] -> (length prefix <= 10)%nat ->
  toLowerCase prefix = prefix -> forallb printable prefix = true ->
  Forall is_byte bytes -> (length bytes <= 3000)%nat ->
  exists d, encodeBytes prefix bytes = Ret (prefix ++ js "1" ++ d) /\
    Z.of_nat (length d) = (8 * Z.of_nat (length bytes) + 4) / 5 + 6 /\ Forall in_alphabet d.
Proof.
  intros Hne Hpl Hlow Hp Hb Hlen. unfold encodeBytes.
  destruct (toWords_ok bytes Hb) as (ws & E & L & W). rewrite E. cbn [throws_bind].
  destruct (encode_ok prefix ws (Some Bech32MaxSize) Hne ltac:(rewrite Hlow; exact Hp) W)
    as (w & sum & Ee & Lw & Ls & F).
  - unfold Bech32MaxSize. rewrite L. zlia.
  - rewrite Ee, Hlow. exists (w ++ sum). split; [reflexivity|]. split; [|exact F].
    rewrite length_app, Nat2Z.inj_add, Lw, Ls, L. lia.
Qed.

(** ** Decoding what was encoded *)

Lemma alphabet_letters c : in_alphabet c ->
  lower_char c = c /\ c <> 0x31 /\ exists d, index_of c ALPHABET 0 = Some d /\ word 5 d.
Proof.
  unfold in_alphabet. intros H. vm_compute in H.
  repeat (destruct H as [<-|H];
    [split; [reflexivity|split; [discriminate|eexists; split; [reflexivity|unfold word; lia]]]|]).
  destruct H.
Qed.

Lemma alphabet_index d : word 5 d -> index_of (nth (Z.to_nat d) ALPHABET 0) ALPHABET 0 = Some d.
Proof.
  unfold word. intros Hd. change (2 ^ 5) with 32 in Hd.
  assert (Hin : In d (map Z.of_nat (seq 0 32))).
  { apply in_map_iff. exists (Z.to_nat d). split; [lia|]. apply in_seq. lia. }
  cbn in Hin. repeat (destruct Hin as [<-|Hin]; [reflexivity|]). destruct Hin.
Qed.

Lemma alphabet_decode_encode ds s : Forall (word 5) ds -> alphabet_encode ds = Ret s ->
  alphabet_decode s = Ret ds.
Proof.
  intros Hds. revert s. induction Hds as [|d ds Hd _ IH]; intros s E.
  - apply Ret_inj in E. subst s. reflexivity.
  - destruct Hd as [H1 H2]. change (2 ^ 5) with 32 in H2. cbn [alphabet_encode] in E.
    rewrite (proj2 (Z.leb_le _ _) H1), (proj2 (Z.ltb_lt _ _) H2) in E.
    destruct (alphabet_encode ds) as [s'|] eqn:Es; [|discriminate]. cbn [throws_bind] in E.
    apply Ret_inj in E. subst s. cbn [alphabet_decode].
    rewrite alphabet_index by (unfold word; lia). rewrite (IH s' eq_refl). reflexivity.
Qed.

Lemma alphabet_decode_ok s : Forall in_alphabet s ->
  exists ds, alphabet_decode s = Ret ds /\ length ds = length s.
Proof.
  induction 1 as [|c s Hc _ (ds & E & L)]; [exists []; auto|].
  destruct (alphabet_letters c Hc) as (_ & _ & d & Ed & _).
  cbn [alphabet_decode]. rewrite Ed, E. eexists; split; [reflexivity|]. simpl. lia.
Qed.

Lemma alphabet_decode_app a b :
  alphabet_decode (a ++ b) = (x <- alphabet_decode a ;; y <- alphabet_decode b ;; Ret (x ++ y)).
Proof.
  induction a as [|c a IH]; cbn [app alphabet_decode].
  - destruct (alphabet_decode b); reflexivity.
  - destruct (index_of c ALPHABET 0); [|reflexivity]. rewrite IH.
    destruct (alphabet_decode a); [|reflexivity]. cbn [throws_bind].
    destruct (alphabet_decode b); reflexivity.
Qed.

Lemma last_index_of_app c l1 l2 i f :
  last_index_of c (l1 ++ l2) i f =
  last_index_of c l2 (i + Z.of_nat (length l1)) (last_index_of c l1 i f).
Proof.
  revert i f; induction l1 as [|x l1 IH]; intros i f; cbn [app last_index_of length].
  - rewrite Z.add_0_r. reflexivity.
  - rewrite IH. f_equal. lia.
Qed.

Lemma last_index_of_absent c l i f : ~ In c l -> last_index_of c l i f = f.
Proof.
  revert i f; induction l as [|x l IH]; intros i f Hn; [reflexivity|]. cbn [last_index_of].
  destruct (Z.eqb_spec x c) as [->|]; [exfalso; apply Hn; left; reflexivity|].
  apply IH. intros H. apply Hn. right. exact H.
Qed.

Lemma ends_with_app a b : ends_with (a ++ b) b = true.
Proof.
  induction a as [|x a IH]; cbn [app].
  - destruct b as [|z b]; [reflexivity|]. cbn [ends_with].
    destruct (list_eq_dec Z.eq_dec (z :: b) (z :: b)) as [_|n]; [reflexivity|congruence].
  - cbn [ends_with]. destruct (list_eq_dec Z.eq_dec (x :: a ++ b) b); [reflexivity|exact IH].
Qed.

Lemma letters_lower s : Forall in_alphabet s -> toLowerCase s = s /\ ~ In 0x31 s.
Proof.
  induction 1 as [|c s Hc _ [IH1 IH2]]; [split; [reflexivity|intros []]|].
  destruct (alphabet_letters c Hc) as (H1 & H2 & _). cbn [toLowerCase map] in *.
  split; [unfold toLowerCase in IH1; rewrite H1, IH1; reflexivity|].
  intros [H|H]; [congruence|contradiction].
Qed.

Lemma firstn_length_app {A} (a b : list A) : firstn (length a) (a ++ b) = a.
Proof. rewrite firstn_app, Nat.sub_diag, firstn_O, app_nil_r, firstn_all. reflexivity. Qed.

Lemma skipn_sep_app (a b : list Z) c : skipn (length a + 1) (a ++ c :: b) = b.
Proof. induction a as [|x a IH]; [reflexivity|]. exact IH. Qed.

(** [bech32.decode] reads back what [bech32.encode] wrote, for a lowercase
    prefix without the separator ['1']. *)
Lemma bech32_decode_encode prefix words s :
  prefix <> [] -> toLowerCase prefix = prefix -> ~ In 0x31 prefix -> Forall (word 5) words ->
  Z.of_nat (length prefix) + 7 + Z.of_nat (length words) <= 5000 ->
  encode prefix words (Some 5000) = Ret s -> decode s (Some 5000) = Ret (prefix, words).
Proof.
  intros Hne Hlow Hsep Hw Hlen E.
  apply encode_Ret_inv in E as (w & sum & Es & Ew & ->). rewrite Hlow in *.
  destruct (alphabet_encode_ok words Hw) as (w' & Ew' & Lw & Fw).
  rewrite Ew in Ew'. apply Ret_inj in Ew'. subst w'.
  assert (Hp : forallb printable prefix = true)
    by (unfold checksum in Es; destruct (forallb printable prefix); [reflexivity|discriminate]).
  destruct (checksum_ok prefix words 1 Hp) as (sum' & Es' & Ls & Fs).
  rewrite Es in Es'. apply Ret_inj in Es'. subst sum'.
  destruct (letters_lower w Fw) as [Lw1 Lw2]. destruct (letters_lower sum Fs) as [Ls1 Ls2].
  destruct (alphabet_decode_ok sum Fs) as (ds & Eds & Lds).
  assert (Hpl : (1 <= length prefix)%nat) by (destruct prefix; [congruence|simpl; lia]).
  change (js "1" ++ w ++ sum) with (0x31 :: w ++ sum).
  set (str := prefix ++ 0x31 :: w ++ sum).
  assert (Hlower : toLowerCase str = str).
  { unfold str, toLowerCase in *. rewrite map_app, Hlow. cbn [map]. rewrite map_app, Lw1, Ls1. reflexivity. }
  assert (Hls : Z.of_nat (length str) = Z.of_nat (length prefix) + 7 + Z.of_nat (length words)).
  { unfold str. rewrite length_app. cbn [length]. rewrite length_app. lia. }
  assert (Hsepi : last_index_of 0x31 str 0 (-1) = Z.of_nat (length prefix)).
  { unfold str. rewrite last_index_of_app, (last_index_of_absent 0x31 prefix) by exact Hsep.
    cbn [last_index_of]. rewrite Z.eqb_refl. apply last_index_of_absent.
    intros H. apply in_app_or in H as [H|H]; contradiction. }
  unfold decode. cbv zeta. rewrite Hlower, Hls, Hsepi, Nat2Z.id.
  replace ((8 <=? _) && (_ <=? 5000)) with true
    by (symmetry; apply andb_true_iff; split; apply Z.leb_le; lia).
  destruct (list_eq_dec Z.eq_dec str str) as [_|n]; [|congruence].
  destruct (Z.eqb_spec (Z.of_nat (length prefix)) 0); [lia|].
  destruct (Z.eqb_spec (Z.of_nat (length prefix)) (-1)); [lia|]. cbn [orb negb].
  unfold str. rewrite firstn_length_app, skipn_sep_app.
  replace (6 <=? Z.of_nat (length (w ++ sum))) with true
    by (symmetry; apply Z.leb_le; rewrite length_app; lia).
  rewrite alphabet_decode_app, (alphabet_decode_encode words w Hw Ew), Eds. cbn [throws_bind].
  rewrite length_app, Lds, Ls, Nat.add_sub, firstn_length_app, Es. cbn [throws_bind].
  rewrite ends_with_app. reflexivity.
Qed.

(** [nip19.decode] undoes [encodeBytes] for a short lowercase prefix
    without ['1'] and at most 3000 bytes. *)
Lemma decodeBytes_encodeBytes prefix bytes s :
  prefix <> [] -> (length prefix <= 10)%nat -> toLowerCase prefix = prefix -> ~ In 0x31 prefix ->
  Forall is_byte bytes -> (length bytes <= 3000)%nat ->
  encodeBytes prefix bytes = Ret s -> decodeBytes s = Ret (prefix, bytes).
Proof.
  intros Hne Hpl Hlow Hsep Hb Hlen E. unfold encodeBytes in E.
  destruct (toWords_ok bytes Hb) as (ws & Ews & L & W). rewrite Ews in E. cbn [throws_bind] in E.
  unfold decodeBytes, Bech32MaxSize in *. rewrite (bech32_decode_encode prefix ws s); auto.
  - cbn [throws_bind fst snd]. rewrite (fromWords_toWords bytes ws Hb Ews). reflexivity.
  - rewrite L. zlia.
Qed.

End Bech32Facts.

Module Nip19Facts.
Import Bech32 Nip19 Bech32Facts.

(** [nip19.npubEncode] of a public key (64 lowercase hex characters)
    is ["npub1"] followed by 58 letters of the bech32 alphabet (52 data
    letters and 6 checksum letters): 63 characters in all. *)
Theorem npubEncode_format pk : Forall is_lower_hex pk -> length pk = 64%nat ->
  exists d, npubEncode pk = Ret (js "npub1" ++ d) /\ length d = 58%nat /\ Forall in_alphabet d.
Proof.
  intros Hh Hl. destruct (Hex.hexToBytes_lower pk 32 Hh Hl) as (b & Eb & Lb & Fb).
  unfold npubEncode. rewrite Eb. cbn [throws_bind].
  destruct (encodeBytes_ok (js "npub") b) as (d & E & L & F);
    try (rewrite ?Lb; cbn; congruence || lia); auto.
  exists d. rewrite E. split; [reflexivity|]. split; [|exact F]. rewrite Lb in L. cbn in L. lia.
Qed.

(** [nip19.nsecEncode] checks neither the length of the key nor its
    range: every byte array of up to 3000 bytes, of any length, is encoded,
    as ["nsec1"] followed by [ceil(8n/5) + 6] letters of the alphabet. *)
Theorem nsecEncode_any_length key : Forall is_byte key -> (length key <= 3000)%nat ->
  exists d, nsecEncode key = Ret (js "nsec1" ++ d) /\
    Z.of_nat (length d) = (8 * Z.of_nat (length key) + 4) / 5 + 6 /\ Forall in_alphabet d.
Proof.
  intros Hb Hl. destruct (encodeBytes_ok (js "nsec") key) as (d & E & L & F);
    try (cbn; congruence || lia); auto.
  exists d. split; [exact E|auto].
Qed.

(** an [npub] and an [nsec] never coincide: the role of a NIP-19 string
    shows in its prefix. *)
Theorem npub_nsec_distinct pk key a b :
  npubEncode pk = Ret a -> nsecEncode key = Ret b -> a <> b.
Proof.
  unfold npubEncode, nsecEncode, encodeBytes. intros Ea Eb ->.
  destruct (Hex.hexToBytes pk) as [bytes|]; [|discriminate]. cbn [throws_bind] in Ea.
  destruct (toWords bytes); [|discriminate]. destruct (toWords key); [|discriminate].
  cbn [throws_bind] in Ea, Eb.
  apply encode_Ret_inv in Ea as (w1 & s1 & _ & _ & ->).
  apply encode_Ret_inv in Eb as (w2 & s2 & _ & _ & E).
  cbn in E. discriminate.
Qed.

End Nip19Facts.

Module Nip19Examples.
Import Bech32 Nip19 Nip19Facts.

(** The NIP-19 test vector. *)
Example npubEncode_vector :
  npubEncode (js "3bf0c63fcb93463407af97a5e5ee64fa883d107ef9e558472c4eb9aaaefa459d")
  = Ret (js "npub180cvv07tjdrrgpa0j7j7tmnyl2yr6yr7l8j4s3evf6u64th6gkwsyjh6w6").
Proof. vm_compute. reflexivity. Qed.

Example decode_npub_vector :
  decodeBytes (js "npub180cvv07tjdrrgpa0j7j7tmnyl2yr6yr7l8j4s3evf6u64th6gkwsyjh6w6")
  = Ret (js "npub", [59; 240; 198; 63; 203; 147; 70; 52; 7; 175; 151; 165; 229; 238; 100; 250;
                     136; 61; 16; 126; 249; 229; 88; 71; 44; 78; 185; 170; 174; 250; 69; 157]).
Proof. vm_compute. reflexivity. Qed.

Lemma npubEncode_format_witness :
  exists d, npubEncode (js "3bf0c63fcb93463407af97a5e5ee64fa883d107ef9e558472c4eb9aaaefa459d")
    = Ret (js "npub1" ++ d) /\ length d = 58%nat /\ Forall Bech32Facts.in_alphabet d.
Proof.
  apply npubEncode_format; [apply Forall_forall; intros c Hc; vm_compute in Hc;
    repeat (destruct Hc as [<-|Hc]; [unfold is_lower_hex; lia|]); destruct Hc | reflexivity].
Defined.

Lemma nsecEncode_any_length_witness :
  exists d, nsecEncode (repeat 7 17) = Ret (js "nsec1" ++ d) /\
    Z.of_nat (length d) = (8 * Z.of_nat (length (repeat 7 17)) + 4) / 5 + 6 /\
    Forall Bech32Facts.in_alphabet d.
Proof.
  apply nsecEncode_any_length; [apply Forall_forall; intros c Hc;
    apply repeat_spec in Hc; subst; unfold is_byte; lia | simpl; lia].
Defined.

Lemma npub_nsec_distinct_witness :
  js "npub180cvv07tjdrrgpa0j7j7tmnyl2yr6yr7l8j4s3evf6u64th6gkwsyjh6w6" <>
  js "nsec1qyqszqgpqyqszqgpqyqszqgpqyqszqgpqyqszqgpqyqszqgpqyqstywftw".
Proof.
  apply (npub_nsec_distinct
    (js "3bf0c63fcb93463407af97a5e5ee64fa883d107ef9e558472c4eb9aaaefa459d") (repeat 1 32));
    vm_compute; reflexivity.
Defined.

End Nip19Examples.
