(* ===== verification/Utf8.v ===== *)
(** Unicode conversions behind [URLSearchParams]: the WebIDL conversion of
    a JS string (UTF-16 code units) to a USVString (scalar values, lone
    surrogates replaced by U+FFFD), its way back to UTF-16, the WHATWG
    UTF-8 encoder, and the WHATWG UTF-8 decoder with replacement, written
    as its byte handler over an explicit decoder state. Collaborators
    outside [src/], modelled from the Encoding and WebIDL standards. *)

From Stdlib Require Import ZArith List Lia Bool.
From S2P Require Import Prelude.
Import ListNotations.
Open Scope Z_scope.
Open Scope nostr_scope.

Module Utf16.

Definition is_high (c : Z) : bool := (0xD800 <=? c) && (c <=? 0xDBFF).
Definition is_low (c : Z) : bool := (0xDC00 <=? c) && (c <=? 0xDFFF).

(** WebIDL "convert to a scalar value string": a high surrogate followed
    by a low one is one code point; any other surrogate is U+FFFD. *)
Fixpoint to_usv (s : jsstring) : list Z :=
  match s with
  | [] => []
  | c :: rest =>
      if is_high c then
        match rest with
        | d :: rest' =>
            if is_low d then 0x10000 + (c - 0xD800) * 0x400 + (d - 0xDC00) :: to_usv rest'
            else 0xFFFD :: to_usv rest
        | [] => [0xFFFD]
        end
      else if is_low c then 0xFFFD :: to_usv rest
      else c :: to_usv rest
  end.

(** A scalar value back as UTF-16 code units. *)
Definition cp_to_utf16 (cp : Z) : list Z :=
  if cp <? 0x10000 then [cp]
  else [0xD800 + (cp - 0x10000) / 0x400; 0xDC00 + (cp - 0x10000) mod 0x400].

Definition from_usv (cps : list Z) : jsstring := flat_map cp_to_utf16 cps.

(** A code unit, and a well-formed JS string: no lone surrogate. *)
Definition code_unit (c : Z) : Prop := 0 <= c < 0x10000.

Fixpoint well_formedb (s : jsstring) : bool :=
  match s with
  | [] => true
  | c :: rest =>
      if is_high c then
        match rest with
        | d :: rest' => is_low d && well_formedb rest'
        | [] => false
        end
      else negb (is_low c) && well_formedb rest
  end.

End Utf16.

Module Utf8.

(** A Unicode scalar value: a code point that is not a surrogate. *)
Definition scalar (cp : Z) : Prop := (0 <= cp < 0xD800) \/ (0xDFFF < cp <= 0x10FFFF).

(** The continuation bytes of the WHATWG encoder:
    [while count > 0: temp = cp >> (6 * (count - 1));
     bytes.push(0x80 | (temp & 0x3F)); count -= 1]. *)
Fixpoint continuation_bytes (count : nat) (cp : Z) : list Z :=
  match count with
  | O => []
  | S c => Z.lor 0x80 (Z.land (Z.shiftr cp (6 * Z.of_nat c)) 0x3F) :: continuation_bytes c cp
  end.

(** WHATWG "UTF-8 encode" of one scalar value: ASCII as itself, otherwise
    a lead byte [(cp >> (6 * count)) + offset] then [count] continuation
    bytes. *)
Definition encode_cp (cp : Z) : list Z :=
  if cp <=? 0x7F then [cp]
  else
    let '(count, offset) :=
      if cp <=? 0x7FF then (1%nat, 0xC0)
      else if cp <=? 0xFFFF then (2%nat, 0xE0)
      else (3%nat, 0xF0) in
    Z.shiftr cp (6 * Z.of_nat count) + offset :: continuation_bytes count cp.

Definition encode (cps : list Z) : list Z := flat_map encode_cp cps.

(** The state of the WHATWG UTF-8 decoder. *)
Record dstate := mk_dstate {
  code_point : Z;
  bytes_seen : Z;
  bytes_needed : Z;
  lower_boundary : Z;
  upper_boundary : Z }.

Definition d_init : dstate := mk_dstate 0 0 0 0x80 0xBF.

(** What the handler returns for one byte: continue, a code point, or an
    error (with [true] when the byte is restored to the input). *)
Inductive dresult :=
| DContinue (st : dstate)
| DEmit (cp : Z) (st : dstate)
| DError (st : dstate) (restore : bool).

(** The UTF-8 decoder's handler, steps 3 to 9, for a byte of the input. *)
Definition handler (st : dstate) (byte : Z) : dresult :=
  if bytes_needed st =? 0 then
    if (0x00 <=? byte) && (byte <=? 0x7F) then DEmit byte st
    else if (0xC2 <=? byte) && (byte <=? 0xDF) then
      DContinue (mk_dstate (Z.land byte 0x1F) (bytes_seen st) 1
                           (lower_boundary st) (upper_boundary st))
    else if (0xE0 <=? byte) && (byte <=? 0xEF) then
      DContinue (mk_dstate (Z.land byte 0xF) (bytes_seen st) 2
                           (if byte =? 0xE0 then 0xA0 else lower_boundary st)
                           (if byte =? 0xED then 0x9F else upper_boundary st))
    else if (0xF0 <=? byte) && (byte <=? 0xF4) then
      DContinue (mk_dstate (Z.land byte 0x7) (bytes_seen st) 3
                           (if byte =? 0xF0 then 0x90 else lower_boundary st)
                           (if byte =? 0xF4 then 0x8F else upper_boundary st))
    else DError st false
  else if negb ((lower_boundary st <=? byte) && (byte <=? upper_boundary st)) then
    DError d_init true
  else
    let cp := Z.lor (Z.shiftl (code_point st) 6) (Z.land byte 0x3F) in
    let seen := bytes_seen st + 1 in
    if negb (seen =? bytes_needed st) then
      DContinue (mk_dstate cp seen (bytes_needed st) 0x80 0xBF)
    else DEmit cp d_init.

(** Decoding with replacement: an error emits U+FFFD; a restored byte is
    handled again in the reset state (where it cannot be restored once
    more, since [bytes_needed] is then 0); at the end of the input an
    unfinished sequence is one more U+FFFD. *)
Fixpoint decode_from (st : dstate) (bytes : list Z) : list Z :=
  match bytes with
  | [] => if bytes_needed st =? 0 then [] else [0xFFFD]
  | b :: rest =>
      match handler st b with
      | DContinue st' => decode_from st' rest
      | DEmit cp st' => cp :: decode_from st' rest
      | DError st' false => 0xFFFD :: decode_from st' rest
      | DError st' true =>
          0xFFFD ::
          match handler st' b with
          | DContinue st'' => decode_from st'' rest
          | DEmit cp st'' => cp :: decode_from st'' rest
          | DError st'' _ => 0xFFFD :: decode_from st'' rest
          end
      end
  end.

(** "UTF-8 decode without BOM" (the BOM is kept as U+FEFF). *)
Definition decode (bytes : list Z) : list Z := decode_from d_init bytes.

End Utf8.

Module Utf8Facts.
Import Utf8.

Lemma land_lead x k m : 0 <= k -> 0 <= x < 2 ^ k -> 0 <= m ->
  Z.land (m * 2 ^ k + x) (2 ^ k - 1) = x.
Proof.
  intros Hk Hx Hm. rewrite land_mask by lia. rewrite Z.add_comm, Z.mod_add by lia.
  apply Z.mod_small; lia.
Qed.

Lemma decode_from_continue st b rest st' :
  handler st b = DContinue st' -> decode_from st (b :: rest) = decode_from st' rest.
Proof. intros H. simpl. rewrite H. reflexivity. Qed.

Lemma decode_from_emit st b rest cp st' :
  handler st b = DEmit cp st' -> decode_from st (b :: rest) = cp :: decode_from st' rest.
Proof. intros H. simpl. rewrite H. reflexivity. Qed.

Ltac handler_tac :=
  unfold handler; cbn [bytes_needed lower_boundary upper_boundary code_point bytes_seen d_init];
  ifcase; try reflexivity.

Lemma handler_ascii b : 0 <= b <= 0x7F -> handler d_init b = DEmit b d_init.
Proof. intros Hb. handler_tac. Qed.

Lemma handler_lead2 a : 2 <= a < 32 ->
  handler d_init (192 + a) = DContinue (mk_dstate a 0 1 0x80 0xBF).
Proof.
  intros Ha. unfold handler; cbn [bytes_needed d_init].
  replace (Z.land (192 + a) 0x1F) with a by (symmetry; apply (land_lead a 5 6); lia).
  ifcase; reflexivity.
Qed.

Lemma handler_lead3 a : 0 <= a < 16 ->
  handler d_init (224 + a) =
  DContinue (mk_dstate a 0 2 (if a =? 0 then 0xA0 else 0x80) (if a =? 13 then 0x9F else 0xBF)).
Proof.
  intros Ha. unfold handler; cbn [bytes_needed d_init].
  replace (Z.land (224 + a) 0xF) with a by (symmetry; apply (land_lead a 4 14); lia).
  ifcase; repeat f_equal; ifcase; reflexivity.
Qed.

Lemma handler_lead4 a : 0 <= a <= 4 ->
  handler d_init (240 + a) =
  DContinue (mk_dstate a 0 3 (if a =? 0 then 0x90 else 0x80) (if a =? 4 then 0x8F else 0xBF)).
Proof.
  intros Ha. unfold handler; cbn [bytes_needed d_init].
  replace (Z.land (240 + a) 0x7) with a by (symmetry; apply (land_lead a 3 30); lia).
  ifcase; repeat f_equal; ifcase; reflexivity.
Qed.

(** A continuation byte [0x80 + x] within the boundaries of a state that
    waits for more bytes. *)
Lemma handler_cont_more st x :
  bytes_needed st <> 0 -> 0 <= x < 64 ->
  lower_boundary st <= 128 + x <= upper_boundary st ->
  bytes_seen st + 1 <> bytes_needed st ->
  handler st (128 + x) =
  DContinue (mk_dstate (code_point st * 64 + x) (bytes_seen st + 1) (bytes_needed st) 0x80 0xBF).
Proof.
  intros Hn Hx Hb Hs. unfold handler.
  replace (Z.land (128 + x) 0x3F) with x by (symmetry; apply (land_lead x 6 2); lia).
  ifcase.
  rewrite shiftl_6, lor_mul64 by lia. reflexivity.
Qed.

Lemma handler_cont_last st x :
  bytes_needed st <> 0 -> 0 <= x < 64 ->
  lower_boundary st <= 128 + x <= upper_boundary st ->
  bytes_seen st + 1 = bytes_needed st ->
  handler st (128 + x) = DEmit (code_point st * 64 + x) d_init.
Proof.
  intros Hn Hx Hb Hs. unfold handler.
  replace (Z.land (128 + x) 0x3F) with x by (symmetry; apply (land_lead x 6 2); lia).
  ifcase.
  rewrite shiftl_6, lor_mul64 by lia. reflexivity.
Qed.

Ltac encode_tac :=
  unfold encode_cp; ifcase; cbn [continuation_bytes];
  change (6 * Z.of_nat 3) with 18; change (6 * Z.of_nat 2) with 12;
  change (6 * Z.of_nat 1) with 6; change (6 * Z.of_nat 0) with 0;
  rewrite ?Z.shiftr_0_r; autorewrite with bits_rw; try reflexivity.

Lemma encode_cp_1 cp : 0 <= cp <= 0x7F -> encode_cp cp = [cp].
Proof. intros H. encode_tac. Qed.

Lemma encode_cp_2 cp : 0x80 <= cp <= 0x7FF ->
  encode_cp cp = [192 + cp / 64; 128 + cp mod 64].
Proof. intros H. encode_tac. f_equal. lia. Qed.

Lemma encode_cp_3 cp : 0x800 <= cp <= 0xFFFF ->
  encode_cp cp = [224 + cp / 4096; 128 + (cp / 64) mod 64; 128 + cp mod 64].
Proof. intros H. encode_tac. f_equal. lia. Qed.

Lemma encode_cp_4 cp : 0x10000 <= cp ->
  encode_cp cp = [240 + cp / 262144; 128 + (cp / 4096) mod 64;
                  128 + (cp / 64) mod 64; 128 + cp mod 64].
Proof. intros H. encode_tac. f_equal. lia. Qed.

Ltac dec_step :=
  first
    [ erewrite decode_from_emit by (apply handler_cont_last; cbn [lower_boundary upper_boundary bytes_needed bytes_seen code_point]; ifcase; lia)
    | erewrite decode_from_continue by (apply handler_cont_more; cbn [lower_boundary upper_boundary bytes_needed bytes_seen code_point]; ifcase; lia) ].

Lemma decode_two a b rest : 2 <= a < 32 -> 0 <= b < 64 ->
  decode_from d_init ([192 + a; 128 + b] ++ rest) = a * 64 + b :: decode_from d_init rest.
Proof.
  intros Ha Hb. cbn [app].
  rewrite (decode_from_continue _ _ _ _ (handler_lead2 a Ha)).
  dec_step. reflexivity.
Qed.

Lemma decode_three a b c rest : 0 <= a < 16 -> 0 <= b < 64 -> 0 <= c < 64 ->
  (a = 0 -> 32 <= b) -> (a = 13 -> b < 32) ->
  decode_from d_init ([224 + a; 128 + b; 128 + c] ++ rest)
  = (a * 64 + b) * 64 + c :: decode_from d_init rest.
Proof.
  intros Ha Hb Hc H0 H13. cbn [app].
  rewrite (decode_from_continue _ _ _ _ (handler_lead3 a Ha)).
  do 2 dec_step. reflexivity.
Qed.

Lemma decode_four a b c d rest : 0 <= a <= 4 -> 0 <= b < 64 -> 0 <= c < 64 -> 0 <= d < 64 ->
  (a = 0 -> 16 <= b) -> (a = 4 -> b < 16) ->
  decode_from d_init ([240 + a; 128 + b; 128 + c; 128 + d] ++ rest)
  = ((a * 64 + b) * 64 + c) * 64 + d :: decode_from d_init rest.
Proof.
  intros Ha Hb Hc Hd H0 H4. cbn [app].
  rewrite (decode_from_continue _ _ _ _ (handler_lead4 a Ha)).
  do 3 dec_step. reflexivity.
Qed.

(** Decoding the UTF-8 encoding of one scalar value gives it back and
    leaves the decoder in its initial state. *)
Lemma decode_encode_cp cp rest : scalar cp ->
  decode_from d_init (encode_cp cp ++ rest) = cp :: decode_from d_init rest.
Proof.
  unfold scalar. intros Hcp.
  destruct (Z.le_gt_cases cp 0x7F).
  { rewrite encode_cp_1 by lia. cbn [app].
    apply decode_from_emit, handler_ascii; lia. }
  destruct (Z.le_gt_cases cp 0x7FF).
  { rewrite encode_cp_2 by lia. rewrite decode_two; try (apply Z.mod_pos_bound; lia); try zlia.
    f_equal. zlia. }
  destruct (Z.le_gt_cases cp 0xFFFF).
  { rewrite encode_cp_3 by lia. rewrite decode_three; try (apply Z.mod_pos_bound; lia); try zlia.
    f_equal. zlia. }
  rewrite encode_cp_4 by lia. rewrite decode_four; try (apply Z.mod_pos_bound; lia); try zlia.
  f_equal. zlia.
Qed.

(** UTF-8 decoding after encoding is the identity on scalar values. *)
Theorem decode_encode cps : Forall scalar cps -> decode (encode cps) = cps.
Proof.
  unfold decode, encode. induction 1 as [|cp cps Hcp _ IH]; [reflexivity|].
  cbn [flat_map]. rewrite decode_encode_cp by assumption. f_equal. exact IH.
Qed.

Import Utf16.

Lemma is_high_spec c : is_high c = true <-> 0xD800 <= c <= 0xDBFF.
Proof. unfold is_high. rewrite andb_true_iff, !Z.leb_le. tauto. Qed.

Lemma is_low_spec c : is_low c = true <-> 0xDC00 <= c <= 0xDFFF.
Proof. unfold is_low. rewrite andb_true_iff, !Z.leb_le. tauto. Qed.

Lemma is_high_false c : is_high c = false -> c < 0xD800 \/ 0xDBFF < c.
Proof. unfold is_high. intros H. zcase_in H; cbn [andb] in H; try discriminate; lia. Qed.

Lemma is_low_false c : is_low c = false -> c < 0xDC00 \/ 0xDFFF < c.
Proof. unfold is_low. intros H. zcase_in H; cbn [andb] in H; try discriminate; lia. Qed.

Lemma scalar_fffd : scalar 0xFFFD.
Proof. unfold scalar. lia. Qed.

(** The USVString conversion of code units yields scalar values. *)
Theorem to_usv_scalar s : Forall code_unit s -> Forall scalar (to_usv s).
Proof.
  revert s. fix IH 1. intros [|c rest] Hs; [constructor|].
  inversion Hs as [|? ? Hc Hrest]; subst. unfold code_unit in Hc. cbn [to_usv].
  destruct (is_high c) eqn:Hh.
  - apply is_high_spec in Hh. destruct rest as [|d rest'] eqn:Er.
    + constructor; [apply scalar_fffd | constructor].
    + assert (Hrest' : Forall code_unit rest') by (inversion Hrest; assumption).
      assert (Hd : code_unit d) by (inversion Hrest; assumption). unfold code_unit in Hd.
      destruct (is_low d) eqn:Hl.
      * apply is_low_spec in Hl. constructor; [unfold scalar; lia | apply IH; assumption].
      * rewrite <- Er. constructor; [apply scalar_fffd | apply IH; subst; assumption].
  - apply is_high_false in Hh. destruct (is_low c) eqn:Hl.
    + constructor; [apply scalar_fffd | apply IH; assumption].
    + apply is_low_false in Hl. constructor; [unfold scalar; lia | apply IH; assumption].
Qed.

(** ASCII strings are unchanged by the USVString conversion. *)
Lemma to_usv_ascii s : Forall (fun c => 0 <= c < 128) s -> to_usv s = s.
Proof.
  induction 1 as [|c s Hc _ IH]; [reflexivity|].
  cbn [to_usv]. unfold is_high, is_low. ifcase. rewrite IH. reflexivity.
Qed.

Lemma cp_to_utf16_pair c d : 0xD800 <= c <= 0xDBFF -> 0xDC00 <= d <= 0xDFFF ->
  cp_to_utf16 (0x10000 + (c - 0xD800) * 0x400 + (d - 0xDC00)) = [c; d].
Proof.
  intros Hc Hd. unfold cp_to_utf16. ifcase. f_equal; [zlia|]. f_equal. zlia.
Qed.

Lemma cp_to_utf16_bmp c : 0 <= c < 0x10000 -> cp_to_utf16 c = [c].
Proof. intros Hc. unfold cp_to_utf16. ifcase. reflexivity. Qed.

(** A well-formed JS string survives the USVString conversion. *)
Theorem from_usv_to_usv s : Forall code_unit s -> well_formedb s = true ->
  from_usv (to_usv s) = s.
Proof.
  unfold from_usv. revert s. fix IH 1. intros [|c rest] Hs Hw; [reflexivity|].
  inversion Hs as [|? ? Hc Hrest]; subst. unfold code_unit in Hc. cbn [to_usv well_formedb] in *.
  destruct (is_high c) eqn:Hh.
  - apply is_high_spec in Hh. destruct rest as [|d rest'] eqn:Er; [discriminate|].
    apply andb_true_iff in Hw as [Hl Hw]. rewrite Hl. apply is_low_spec in Hl.
    cbn [flat_map]. rewrite cp_to_utf16_pair by assumption.
    assert (Hrest' : Forall code_unit rest') by (inversion Hrest; assumption).
    cbn [app]. rewrite IH by assumption. reflexivity.
  - apply andb_true_iff in Hw as [Hl Hw]. apply negb_true_iff in Hl. rewrite Hl.
    cbn [flat_map]. rewrite cp_to_utf16_bmp by lia. cbn [app]. rewrite IH by assumption. reflexivity.
Qed.

(** A JS string without lone surrogates survives [TextEncoder] then
    [TextDecoder]: the UTF-8 round trip through code points. *)
Theorem text_roundtrip s : Forall code_unit s -> well_formedb s = true ->
  from_usv (decode (encode (to_usv s))) = s.
Proof.
  intros Hs Hw. rewrite decode_encode by (apply to_usv_scalar; exact Hs).
  apply from_usv_to_usv; assumption.
Qed.

(** ["H"] followed by U+1F600 as a surrogate pair. *)
Lemma text_roundtrip_witness :
  from_usv (decode (encode (to_usv [0x48; 0xD83D; 0xDE00]))) = [0x48; 0xD83D; 0xDE00].
Proof.
  apply text_roundtrip; [repeat constructor; unfold code_unit; lia | reflexivity].
Defined.

End Utf8Facts.
