(* ===== verification/UrlSearchParams.v ===== *)
(** [URLSearchParams] as the component uses it ([new URLSearchParams()],
    [append], [toString]) and as a reader of the URI would use it
    ([new URLSearchParams(query)]): the WHATWG URL standard's
    [application/x-www-form-urlencoded] serializer and parser over the
    Utf8 model. The object's state is its list of name-value pairs, in
    insertion order, duplicates kept. A collaborator outside [src/],
    modelled from the URL standard. *)

From Stdlib Require Import ZArith List Lia Bool.
From S2P Require Import Prelude Bytes Utf8.
Import ListNotations.
Open Scope Z_scope.
Open Scope nostr_scope.

Module Form.

(** Bytes outside the [application/x-www-form-urlencoded] percent-encode
    set: [*], [-], [.], digits, upper and lower ASCII letters, [_]. *)
Definition unreserved (b : Z) : bool :=
  (b =? 0x2A) || (b =? 0x2D) || (b =? 0x2E) || ((0x30 <=? b) && (b <=? 0x39)) ||
  ((0x41 <=? b) && (b <=? 0x5A)) || (b =? 0x5F) || ((0x61 <=? b) && (b <=? 0x7A)).

(** Percent-encoding writes two uppercase hex digits. *)
Definition upper_hex (d : Z) : Z := if d <? 10 then 48 + d else 55 + d.

(** "percent-encode after encoding" of one byte, with [spaceAsPlus]. *)
Definition percent_encode_byte (b : Z) : jsstring :=
  if b =? 0x20 then [0x2B]
  else if unreserved b then [b]
  else [0x25; upper_hex (b / 16); upper_hex (b mod 16)].

(** A USVString (list of scalar values) as a urlencoded component. *)
Definition serialize_string (s : list Z) : jsstring :=
  flat_map percent_encode_byte (Utf8.encode s).

(** The urlencoded serializer: for each tuple, an [&] when the output is
    not empty, then [name=value]. *)
Definition serialize (tuples : list (list Z * list Z)) : jsstring :=
  fold_left (fun output '(name, value) =>
               (match output with [] => [] | _ => output ++ [0x26] end)
                 ++ serialize_string name ++ [0x3D] ++ serialize_string value)
            tuples [].

(** Percent-decoding: [%] followed by two ASCII hex digits is the byte
    they spell, any other byte is itself. *)
Fixpoint percent_decode (bs : list Z) : list Z :=
  match bs with
  | [] => []
  | b :: rest =>
      if b =? 0x25 then
        match rest with
        | h1 :: h2 :: rest' =>
            match Hex.asciiToBase16 h1, Hex.asciiToBase16 h2 with
            | Some x, Some y => x * 16 + y :: percent_decode rest'
            | _, _ => 0x25 :: percent_decode rest
            end
        | _ => 0x25 :: percent_decode rest
        end
      else b :: percent_decode rest
  end.

Definition plus_to_space (b : Z) : Z := if b =? 0x2B then 0x20 else b.

(** One [&]-separated sequence: name and value split at the first [=]
    (no [=]: the value is empty), [+] replaced by space, percent-decoded,
    UTF-8 decoded without BOM. *)
Definition parse_sequence (seq : list Z) : list Z * list Z :=
  let '(name, value) :=
    match split_first 0x3D seq with
    | Some (n, v) => (n, v)
    | None => (seq, [])
    end in
  (Utf8.decode (percent_decode (map plus_to_space name)),
   Utf8.decode (percent_decode (map plus_to_space value))).

(** The urlencoded parser on bytes: empty sequences are skipped. *)
Definition parse (input : list Z) : list (list Z * list Z) :=
  flat_map (fun seq => match seq with [] => [] | _ => [parse_sequence seq] end)
           (split_on 0x26 input).

(** The string parser used by [new URLSearchParams(init)]: the UTF-8
    encoding of the string's scalar values is parsed. *)
Definition parse_string (s : jsstring) : list (list Z * list Z) :=
  parse (Utf8.encode (Utf16.to_usv s)).

End Form.

Module SearchParams.

(** A [URLSearchParams] object: its list of tuples (USVStrings). *)
Definition t := list (list Z * list Z).

Definition empty : t := [].

(** [append(name, value)]: both arguments are converted to USVStrings
    and the tuple goes at the end of the list. *)
Definition append (name value : jsstring) (p : t) : t :=
  p ++ [(Utf16.to_usv name, Utf16.to_usv value)].

Definition toString (p : t) : jsstring := Form.serialize p.

(** [get(name)]: the value of the first tuple with that name. *)
Definition get (name : list Z) (p : t) : option (list Z) :=
  match find (fun '(n, _) => if list_eq_dec Z.eq_dec n name then true else false) p with
  | Some (_, v) => Some v
  | None => None
  end.

End SearchParams.

Module FormFacts.
Import Form.

Definition pair_text (p : list Z * list Z) : jsstring :=
  serialize_string (fst p) ++ [0x3D] ++ serialize_string (snd p).

Lemma join_cons sep x xs : join sep (x :: xs) = x ++ flat_map (fun y => sep ++ y) xs.
Proof.
  revert x; induction xs as [|y ys IH]; intros x; [simpl; rewrite app_nil_r; reflexivity|].
  change (join sep (x :: y :: ys)) with (x ++ sep ++ join sep (y :: ys)).
  rewrite IH. simpl. rewrite !app_assoc. reflexivity.
Qed.

Lemma serialize_acc l acc : acc <> [] ->
  fold_left (fun output '(name, value) =>
               (match output with [] => [] | _ => output ++ [0x26] end)
                 ++ serialize_string name ++ [0x3D] ++ serialize_string value) l acc
  = acc ++ flat_map (fun p => [0x26] ++ pair_text p) l.
Proof.
  revert acc; induction l as [|[n v] l IH]; intros acc Hacc; simpl; [rewrite app_nil_r; reflexivity|].
  rewrite IH.
  - destruct acc as [|a acc]; [congruence|]. unfold pair_text; simpl. rewrite <- !app_assoc. reflexivity.
  - destruct acc; [congruence|]. discriminate.
Qed.

(** The serializer joins the [name=value] texts with [&]. *)
Lemma serialize_join l : serialize l = join [0x26] (map pair_text l).
Proof.
  unfold serialize. destruct l as [|[n v] l]; [reflexivity|].
  cbn [fold_left map]. rewrite serialize_acc.
  - rewrite join_cons, flat_map_map. reflexivity.
  - destruct (serialize_string n); discriminate.
Qed.

(** The characters a serialized component can hold: ASCII, and none of
    [&], [=], [#], [?]. *)
Definition form_char (c : Z) : Prop :=
  0 <= c < 128 /\ c <> 0x26 /\ c <> 0x3D /\ c <> 0x23 /\ c <> 0x3F.

Lemma upper_hex_range d : 0 <= d < 16 ->
  (48 <= upper_hex d <= 57 /\ d < 10) \/ (65 <= upper_hex d <= 70 /\ 10 <= d).
Proof. unfold upper_hex. intros. ifcase; lia. Qed.

Lemma unreserved_range b : unreserved b = true ->
  b = 0x2A \/ b = 0x2D \/ b = 0x2E \/ 0x30 <= b <= 0x39 \/ 0x41 <= b <= 0x5A \/
  b = 0x5F \/ 0x61 <= b <= 0x7A.
Proof.
  unfold unreserved. intros H. repeat rewrite orb_true_iff in H. rewrite !andb_true_iff in H.
  rewrite !Z.eqb_eq, !Z.leb_le in H. tauto.
Qed.

Lemma percent_encode_byte_chars b : is_byte b -> Forall form_char (percent_encode_byte b).
Proof.
  unfold is_byte, percent_encode_byte, form_char. intros Hb.
  destruct (Z.eqb_spec b 0x20); [repeat constructor; lia|].
  destruct (unreserved b) eqn:Hu.
  - apply unreserved_range in Hu. repeat constructor; lia.
  - pose proof (upper_hex_range (b / 16) ltac:(zlia)).
    pose proof (upper_hex_range (b mod 16) ltac:(zlia)).
    repeat constructor; lia.
Qed.

Lemma asciiToBase16_upper_hex d : 0 <= d < 16 -> Hex.asciiToBase16 (upper_hex d) = Some d.
Proof.
  intros Hd. unfold Hex.asciiToBase16, upper_hex.
  destruct (Z.ltb_spec d 10); ifcase; f_equal; lia.
Qed.

(** Undoing one percent-encoded byte. *)
Lemma percent_decode_byte b rest : is_byte b ->
  percent_decode (map plus_to_space (percent_encode_byte b ++ rest))
  = b :: percent_decode (map plus_to_space rest).
Proof.
  unfold is_byte, percent_encode_byte. intros Hb. rewrite map_app.
  destruct (Z.eqb_spec b 0x20) as [->|Hsp]; [reflexivity|].
  destruct (unreserved b) eqn:Hu.
  - apply unreserved_range in Hu. cbn [map app].
    replace (plus_to_space b) with b
      by (unfold plus_to_space; rewrite (proj2 (Z.eqb_neq b 0x2B)) by lia; reflexivity).
    cbn [percent_decode]. rewrite (proj2 (Z.eqb_neq b 0x25)) by lia. reflexivity.
  - pose proof (upper_hex_range (b / 16) ltac:(zlia)) as H1.
    pose proof (upper_hex_range (b mod 16) ltac:(zlia)) as H2.
    cbn [map app]. unfold plus_to_space at 1 2 3.
    replace (0x25 =? 0x2B) with false by reflexivity.
    replace (upper_hex (b / 16) =? 0x2B) with false by (symmetry; apply Z.eqb_neq; lia).
    replace (upper_hex (b mod 16) =? 0x2B) with false by (symmetry; apply Z.eqb_neq; lia).
    cbn [percent_decode Z.eqb Pos.eqb].
    rewrite !asciiToBase16_upper_hex by zlia. f_equal. zlia.
Qed.

Lemma percent_decode_bytes bs : Forall is_byte bs ->
  percent_decode (map plus_to_space (flat_map percent_encode_byte bs)) = bs.
Proof.
  induction 1 as [|b bs Hb _ IH]; [reflexivity|].
  cbn [flat_map]. rewrite percent_decode_byte by assumption. f_equal. exact IH.
Qed.

(** The UTF-8 encoding of scalar values is made of bytes. *)
Lemma encode_bytes cps : Forall Utf8.scalar cps -> Forall is_byte (Utf8.encode cps).
Proof.
  unfold Utf8.encode, is_byte. induction 1 as [|cp cps Hcp _ IH]; [constructor|].
  cbn [flat_map]. apply Forall_app; split; [|exact IH].
  unfold Utf8.scalar in Hcp.
  destruct (Z.le_gt_cases cp 0x7F); [rewrite Utf8Facts.encode_cp_1 by lia; repeat constructor; lia|].
  destruct (Z.le_gt_cases cp 0x7FF); [rewrite Utf8Facts.encode_cp_2 by lia; repeat constructor; zlia|].
  destruct (Z.le_gt_cases cp 0xFFFF); [rewrite Utf8Facts.encode_cp_3 by lia; repeat constructor; zlia|].
  rewrite Utf8Facts.encode_cp_4 by lia; repeat constructor; zlia.
Qed.

Lemma serialize_string_chars s : Forall Utf8.scalar s -> Forall form_char (serialize_string s).
Proof.
  intros Hs. unfold serialize_string. pose proof (encode_bytes s Hs) as Hb.
  induction Hb as [|b bs Hb _ IH]; [constructor|].
  cbn [flat_map]. apply Forall_app. split; [apply percent_encode_byte_chars; assumption | exact IH].
Qed.

Lemma Forall_not_In (P : Z -> Prop) x l : Forall P l -> ~ P x -> ~ In x l.
Proof. intros H Hx Hin. rewrite Forall_forall in H. apply Hx, H, Hin. Qed.

(** An ASCII string is its own UTF-8 encoding. *)
Lemma encode_ascii s : Forall (fun c => 0 <= c < 128) s -> Utf8.encode (Utf16.to_usv s) = s.
Proof.
  induction 1 as [|c s Hc _ IH]; [reflexivity|].
  cbn [Utf16.to_usv]. unfold Utf16.is_high, Utf16.is_low.
  ifcase. cbn [Utf8.encode flat_map] in *. rewrite Utf8Facts.encode_cp_1 by lia.
  cbn [app]. f_equal. exact IH.
Qed.

Definition scalar_pair (p : list Z * list Z) : Prop :=
  Forall Utf8.scalar (fst p) /\ Forall Utf8.scalar (snd p).

Lemma parse_sequence_pair p : scalar_pair p -> parse_sequence (pair_text p) = p.
Proof.
  destruct p as [n v]. intros [Hn Hv]. unfold parse_sequence, pair_text. cbn [fst snd].
  change ([0x3D] ++ serialize_string v) with (0x3D :: serialize_string v).
  rewrite split_first_app_sep.
  2:{ apply (Forall_not_In form_char); [apply serialize_string_chars; assumption|].
      unfold form_char; lia. }
  unfold serialize_string. rewrite !percent_decode_bytes by (apply encode_bytes; assumption).
  rewrite !Utf8Facts.decode_encode by assumption. reflexivity.
Qed.

Lemma pair_text_not_nil p : pair_text p <> [].
Proof. unfold pair_text. destruct (serialize_string (fst p)); discriminate. Qed.

Lemma pair_text_chars p : scalar_pair p ->
  Forall (fun c => 0 <= c < 128) (pair_text p) /\ ~ In 0x26 (pair_text p) /\
  ~ In 0x23 (pair_text p) /\ ~ In 0x3F (pair_text p).
Proof.
  intros [Hn Hv]. unfold pair_text.
  pose proof (serialize_string_chars _ Hn) as Cn. pose proof (serialize_string_chars _ Hv) as Cv.
  assert (Hall : Forall form_char (serialize_string (fst p)) /\ Forall form_char (serialize_string (snd p)))
    by auto.
  repeat split.
  - apply Forall_app; split; [|apply Forall_app; split; [repeat constructor; lia|]];
      (eapply Forall_impl; [|eassumption]); unfold form_char; lia.
  - repeat apply not_In_app; try (apply (Forall_not_In form_char); [assumption|unfold form_char; lia]);
      simpl; lia.
  - repeat apply not_In_app; try (apply (Forall_not_In form_char); [assumption|unfold form_char; lia]);
      simpl; lia.
  - repeat apply not_In_app; try (apply (Forall_not_In form_char); [assumption|unfold form_char; lia]);
      simpl; lia.
Qed.

Lemma serialize_ascii l : Forall scalar_pair l ->
  Forall (fun c => 0 <= c < 128) (serialize l) /\ ~ In 0x23 (serialize l) /\ ~ In 0x3F (serialize l).
Proof.
  intros Hl. rewrite serialize_join.
  induction Hl as [|p l Hp Hl IH]; [repeat split; [constructor| |]; simpl; tauto|].
  destruct (pair_text_chars p Hp) as (A & _ & B & C).
  destruct l as [|q l'].
  - simpl. auto.
  - change (join [0x26] (map pair_text (p :: q :: l')))
      with (pair_text p ++ 0x26 :: join [0x26] (map pair_text (q :: l'))).
    destruct IH as (A' & B' & C'). repeat split.
    + apply Forall_app; split; [assumption|]. constructor; [lia|assumption].
    + apply not_In_app; [assumption|]. intros [H|H]; [lia|contradiction].
    + apply not_In_app; [assumption|]. intros [H|H]; [lia|contradiction].
Qed.

(** The characters a serialized query is made of: the bytes outside the
    percent-encode set, [%], [+], [=] and [&]. *)
Definition query_char (c : Z) : bool :=
  unreserved c || (c =? 0x25) || (c =? 0x2B) || (c =? 0x3D) || (c =? 0x26).

Lemma upper_hex_unreserved d : 0 <= d < 16 -> unreserved (upper_hex d) = true.
Proof.
  intros Hd. assert (Hin : In d (map Z.of_nat (seq 0 16))).
  { apply in_map_iff. exists (Z.to_nat d). split; [lia|]. apply in_seq. lia. }
  cbn in Hin. repeat (destruct Hin as [<-|Hin]; [reflexivity|]). destruct Hin.
Qed.

Lemma percent_encode_byte_query b : is_byte b ->
  Forall (fun c => query_char c = true) (percent_encode_byte b).
Proof.
  unfold is_byte, percent_encode_byte, query_char. intros Hb.
  destruct (Z.eqb_spec b 0x20); [repeat constructor|].
  destruct (unreserved b) eqn:Hu.
  - constructor; [rewrite Hu; reflexivity|constructor].
  - repeat constructor; rewrite upper_hex_unreserved by zlia; reflexivity.
Qed.

Lemma serialize_query_chars l : Forall scalar_pair l ->
  Forall (fun c => query_char c = true) (serialize l).
Proof.
  intros Hl. rewrite serialize_join. apply Forall_join; [repeat constructor|].
  apply Forall_map. eapply Forall_impl; [|exact Hl]. intros [n v] [Hn Hv].
  unfold pair_text. cbn [fst snd].
  assert (Hs : forall s, Forall Utf8.scalar s ->
            Forall (fun c => query_char c = true) (serialize_string s)).
  { intros s Hs. unfold serialize_string. pose proof (encode_bytes s Hs) as Hb.
    induction Hb as [|b bs Hb _ IH]; [constructor|]. cbn [flat_map].
    apply Forall_app. split; [apply percent_encode_byte_query; assumption|exact IH]. }
  rewrite !Forall_app. repeat split; auto.
Qed.

(** Parsing the serialization of a list of tuples of scalar-value strings
    gives the list back. *)
Theorem parse_serialize l : Forall scalar_pair l -> parse (serialize l) = l.
Proof.
  intros Hl. destruct l as [|p l']; [reflexivity|].
  rewrite serialize_join. unfold parse. rewrite split_on_join.
  - rewrite flat_map_map. rewrite <- (app_nil_r (p :: l')) at 2.
    induction Hl as [|q l Hq _ IH]; [reflexivity|].
    cbn [flat_map]. destruct (pair_text q) eqn:E; [exfalso; apply (pair_text_not_nil q E)|].
    rewrite <- E, parse_sequence_pair by assumption. cbn [app]. f_equal.
    rewrite app_nil_r in IH |- *. exact IH.
  - discriminate.
  - apply Forall_map. eapply Forall_impl; [|exact Hl].
    intros q Hq. apply pair_text_chars; assumption.
Qed.

Theorem parse_string_serialize l : Forall scalar_pair l -> parse_string (serialize l) = l.
Proof.
  intros Hl. unfold parse_string. rewrite encode_ascii by apply (serialize_ascii l Hl).
  apply parse_serialize; assumption.
Qed.

End FormFacts.
