(* ===== verification/WalletConnect.v ===== *)
(** The wallet-connect URI built by [generateWalletConnectURI]
    ([src/NostrKeyGen.js], lines 155-175): once the service ("Buho") public
    key is drawn, the URI is
    [nostr+walletconnect://<buhoPK>?] followed by a [URLSearchParams] with
    [relay] then [secret]. The secret key [clientKeys.sk] is a [Uint8Array]
    (nostr-tools 2 returns bytes from [generateSecretKey]); [append]
    converts it to a string with [ToString], i.e. comma-joined decimals.

    The module [Reader] is what a wallet does with the URI: the query
    (after the first [?], before any [#]) parsed as urlencoded. It is the
    URL standard's query state for this URI, whose authority is hex. *)

From Stdlib Require Import ZArith List Lia Bool.
From S2P Require Import Prelude Bytes Utf8 UrlSearchParams.
Import ListNotations.
Open Scope Z_scope.
Open Scope nostr_scope.

Module WalletConnect.

Definition scheme : jsstring := js "nostr+walletconnect://".

(** The parameters object of lines 166-168. *)
Definition uri_params (relay : jsstring) (clientSecret : list Z) : SearchParams.t :=
  SearchParams.append (js "secret") (Uint8.toString clientSecret)
    (SearchParams.append (js "relay") relay SearchParams.empty).

(** Lines 165-169: [let uri = `nostr+walletconnect://${buhoPK}`; ...;
    uri += `?${params.toString()}`]. *)
Definition build_uri (buhoPK relay : jsstring) (clientSecret : list Z) : jsstring :=
  let uri := scheme ++ buhoPK in
  uri ++ js "?" ++ SearchParams.toString (uri_params relay clientSecret).

End WalletConnect.

Module Reader.

(** The query of a URI: after the first [?], up to the first [#]. *)
Definition query_of (uri : jsstring) : jsstring :=
  match split_first 0x3F uri with
  | Some (_, q) =>
      match split_first 0x23 q with
      | Some (q', _) => q'
      | None => q
      end
  | None => []
  end.

(** The part between the scheme and the [?]. *)
Definition authority_of (uri : jsstring) : jsstring :=
  match split_first 0x3F (skipn (length WalletConnect.scheme) uri) with
  | Some (a, _) => a
  | None => skipn (length WalletConnect.scheme) uri
  end.

Definition params_of (uri : jsstring) : SearchParams.t := Form.parse_string (query_of uri).

End Reader.

Module WalletConnectFacts.
Import WalletConnect.

Definition code_unitb (c : Z) : bool := (0 <=? c) && (c <? 65536).

Lemma code_units_check l : forallb code_unitb l = true -> Forall Utf16.code_unit l.
Proof.
  apply Forall_check. intros c H. unfold code_unitb in H. apply andb_true_iff in H as [H1 H2].
  unfold Utf16.code_unit. lia.
Qed.

Definition ascii (c : Z) : Prop := 0 <= c < 128.

Lemma toString_ascii sk : Forall is_byte sk -> Forall ascii (Uint8.toString sk).
Proof.
  intros Hsk. unfold Uint8.toString.
  assert (Hp : Forall (Forall ascii) (map (Radix.number_toString 10) sk)).
  { apply Forall_map. eapply Forall_impl; [|exact Hsk]. intros b Hb.
    eapply Forall_impl; [|apply Uint8.number_toString_10_chars; unfold is_byte in Hb; lia].
    unfold Uint8.is_decimal_char, ascii. lia. }
  induction Hp as [|x xs Hx Hxs IH]; [constructor|].
  destruct xs as [|y ys]; [simpl; exact Hx|].
  change (join (js ",") (x :: y :: ys)) with (x ++ js "," ++ join (js ",") (y :: ys)).
  apply Forall_app; split; [exact Hx|]. apply Forall_app; split; [|exact IH].
  repeat constructor; unfold ascii; lia.
Qed.

Definition asciib (c : Z) : bool := (0 <=? c) && (c <? 128).

Lemma ascii_check l : forallb asciib l = true -> Forall ascii l.
Proof.
  intros H. apply Forall_forall. intros c Hc. rewrite forallb_forall in H.
  specialize (H c Hc). unfold asciib in H. apply andb_true_iff in H as [H1 H2].
  unfold ascii. lia.
Qed.

Lemma scheme_no_query : ~ In 0x3F scheme.
Proof. unfold scheme. not_in_lit. Qed.

Lemma ascii_scalars s : Forall ascii s -> Forall Utf8.scalar s.
Proof. intros H. eapply Forall_impl; [|exact H]. unfold ascii, Utf8.scalar. lia. Qed.

Lemma uri_params_scalar relay sk : Forall Utf16.code_unit relay -> Forall is_byte sk ->
  Forall FormFacts.scalar_pair (uri_params relay sk).
Proof.
  intros Hr Hsk. unfold uri_params, SearchParams.append, SearchParams.empty.
  rewrite (Utf8Facts.to_usv_ascii (Uint8.toString sk)) by (eapply Forall_impl; [|apply toString_ascii; exact Hsk]; unfold ascii; lia).
  cbn [app]. constructor; [|constructor; [|constructor]]; split; cbn [fst snd].
  - apply ascii_scalars, ascii_check. reflexivity.
  - apply Utf8Facts.to_usv_scalar; assumption.
  - apply ascii_scalars, ascii_check. reflexivity.
  - apply ascii_scalars, toString_ascii; assumption.
Qed.

(** C1: The exact text of the URI (spec section 6): scheme, service key, then
    [relay=] and [secret=] with their urlencoded values, in that order. *)
Theorem build_uri_format pk relay sk : Forall is_byte sk ->
  build_uri pk relay sk =
  scheme ++ pk ++ js "?relay=" ++ Form.serialize_string (Utf16.to_usv relay) ++
  js "&secret=" ++ Form.serialize_string (Uint8.toString sk).
Proof.
  intros Hsk. unfold build_uri, SearchParams.toString. rewrite FormFacts.serialize_join.
  unfold uri_params, SearchParams.append, SearchParams.empty.
  rewrite (Utf8Facts.to_usv_ascii (Uint8.toString sk)) by (eapply Forall_impl; [|apply toString_ascii; exact Hsk]; unfold ascii; lia).
  cbn -[Form.serialize_string Utf16.to_usv Uint8.toString scheme].
  unfold FormFacts.pair_text; cbn [fst snd].
  rewrite !app_assoc. reflexivity.
Qed.

(** Reading the URI back: its query holds exactly the relay (as a
    USVString) and the secret-key text, in that order. *)
Theorem build_uri_params pk relay sk :
  ~ In 0x3F pk -> Forall Utf16.code_unit relay -> Forall is_byte sk ->
  Reader.params_of (build_uri pk relay sk) =
  [(js "relay", Utf16.to_usv relay); (js "secret", Uint8.toString sk)].
Proof.
  intros Hpk Hr Hsk. unfold Reader.params_of, Reader.query_of, build_uri. cbv zeta.
  change (js "?" ++ ?x) with (0x3F :: x).
  rewrite split_first_app_sep by (apply not_In_app; [apply scheme_no_query | exact Hpk]).
  pose proof (uri_params_scalar relay sk Hr Hsk) as Hs.
  destruct (FormFacts.serialize_ascii _ Hs) as (_ & Hhash & _).
  unfold SearchParams.toString. rewrite split_first_none by exact Hhash.
  rewrite FormFacts.parse_string_serialize by exact Hs.
  unfold uri_params, SearchParams.append, SearchParams.empty. cbn [app].
  rewrite (Utf8Facts.to_usv_ascii (Uint8.toString sk)) by (eapply Forall_impl; [|apply toString_ascii; exact Hsk]; unfold ascii; lia).
  reflexivity.
Qed.

(** The authority of the URI is the service public key. *)
Theorem build_uri_authority pk relay sk : ~ In 0x3F pk ->
  Reader.authority_of (build_uri pk relay sk) = pk.
Proof.
  intros Hpk. unfold Reader.authority_of, build_uri. cbv zeta.
  rewrite <- app_assoc, skipn_app, Nat.sub_diag, skipn_all, skipn_O. cbn [app].
  change (js "?" ++ ?x) with (0x3F :: x). rewrite split_first_app_sep by exact Hpk.
  reflexivity.
Qed.

Lemma bytesToHex_no_comma bs : Forall is_byte bs -> ~ In 44 (Hex.bytesToHex bs).
Proof.
  intros Hbs. rewrite Hex.bytesToHex_digits by exact Hbs. intros Hin.
  apply in_map_iff in Hin as (d & Hd & Hin).
  pose proof (Hex.hex_digits_ok bs) as Hok. rewrite Forall_forall in Hok.
  specialize (Hok d Hin). unfold Radix.digit_ok in Hok.
  destruct (Radix.digit_char_range d Hok) as [[H1 _]|[H1 _]]; lia.
Qed.

Lemma toString_comma bs : (2 <= length bs)%nat -> In 44 (Uint8.toString bs).
Proof.
  intros Hlen. destruct bs as [|x [|y ys]]; simpl in Hlen; try lia.
  unfold Uint8.toString. cbn [map].
  change (join (js ",") (Radix.number_toString 10 x :: Radix.number_toString 10 y
                          :: map (Radix.number_toString 10) ys))
    with (Radix.number_toString 10 x ++ 44 :: join (js ",") (Radix.number_toString 10 y
                          :: map (Radix.number_toString 10) ys)).
  apply in_or_app. right. left. reflexivity.
Qed.

(** A byte array of two bytes or more: its [String()] is never its hex. *)
Lemma toString_not_hex sk : Forall is_byte sk -> (2 <= length sk)%nat ->
  Uint8.toString sk <> Hex.bytesToHex sk.
Proof.
  intros Hsk Hlen Heq. apply (bytesToHex_no_comma sk Hsk). rewrite <- Heq. apply toString_comma, Hlen.
Qed.

(** C4: What the [secret] parameter holds: the comma-separated decimal bytes
    of the client secret key, which is never its hex encoding (the spec,
    section 6, and the page's own "URI Details" say hex). *)
Theorem secret_param_not_hex pk relay sk :
  ~ In 0x3F pk -> Forall Utf16.code_unit relay -> Forall is_byte sk -> (2 <= length sk)%nat ->
  SearchParams.get (js "secret") (Reader.params_of (build_uri pk relay sk)) = Some (Uint8.toString sk) /\
  Uint8.toString sk <> Hex.bytesToHex sk.
Proof.
  intros Hpk Hr Hsk Hlen. rewrite build_uri_params by assumption.
  split; [reflexivity|apply toString_not_hex; assumption].
Qed.

(** C26: The relay parameter read back from the URI, turned back into a JS
    string, is the relay typed in, for a well-formed relay. *)
Theorem relay_param_roundtrip pk relay sk :
  ~ In 0x3F pk -> Forall Utf16.code_unit relay -> Utf16.well_formedb relay = true -> Forall is_byte sk ->
  exists v, SearchParams.get (js "relay") (Reader.params_of (build_uri pk relay sk)) = Some v /\
            Utf16.from_usv v = relay.
Proof.
  intros Hpk Hr Hw Hsk. rewrite build_uri_params by assumption.
  eexists. split; [reflexivity|]. apply Utf8Facts.from_usv_to_usv; assumption.
Qed.

(** The characters of a connection URI: those of a serialized query, and
    [?], [:] and [/]. No space, no control character, nothing outside
    ASCII. *)
Definition uri_char (c : Z) : bool :=
  FormFacts.query_char c || (c =? 0x3F) || (c =? 0x3A) || (c =? 0x2F).

Lemma lower_hex_uri_char c : is_lower_hex c -> uri_char c = true.
Proof.
  unfold is_lower_hex. intros Hc.
  assert (Hin : In c (map Z.of_nat (seq 48 10 ++ seq 97 6))).
  { apply in_map_iff. exists (Z.to_nat c). split; [lia|]. apply in_app_iff.
    destruct Hc; [left|right]; apply in_seq; lia. }
  cbn in Hin. repeat (destruct Hin as [<-|Hin]; [reflexivity|]). destruct Hin.
Qed.

(** Every character of a built URI is a URI character. *)
Lemma build_uri_chars pk relay sk :
  Forall is_lower_hex pk -> Forall Utf16.code_unit relay -> Forall is_byte sk ->
  Forall (fun c => uri_char c = true) (build_uri pk relay sk).
Proof.
  intros Hpk Hr Hsk. unfold build_uri. cbv zeta. rewrite !Forall_app. repeat split.
  - unfold scheme. repeat constructor.
  - eapply Forall_impl; [|exact Hpk]. exact lower_hex_uri_char.
  - repeat constructor.
  - eapply Forall_impl; [|apply FormFacts.serialize_query_chars, uri_params_scalar; assumption].
    intros c Hc. unfold uri_char. rewrite Hc. reflexivity.
Qed.

End WalletConnectFacts.

(** Concrete inputs: the public key of the secret key 1 (the generator's
    x coordinate), the spec's relay, and a 32-byte secret key. *)
Module Examples.
Import WalletConnect WalletConnectFacts.

Definition example_pk : jsstring :=
  js "79be667ef9dcbbac55a06295ce870b07029bfcdb2dce28d959f2815b16f81798".
Definition example_relay : jsstring := js "wss://relay.example.com".
Definition example_sk : list Z := map Z.of_nat (seq 1 32).

(** The spec's end-to-end example, as the code really builds it. *)
Example build_uri_spec_example :
  build_uri example_pk example_relay example_sk =
  js "nostr+walletconnect://79be667ef9dcbbac55a06295ce870b07029bfcdb2dce28d959f2815b16f81798?relay=wss%3A%2F%2Frelay.example.com&secret=1%2C2%2C3%2C4%2C5%2C6%2C7%2C8%2C9%2C10%2C11%2C12%2C13%2C14%2C15%2C16%2C17%2C18%2C19%2C20%2C21%2C22%2C23%2C24%2C25%2C26%2C27%2C28%2C29%2C30%2C31%2C32".
Proof. vm_compute. reflexivity. Qed.

Lemma build_uri_format_witness :
  build_uri example_pk example_relay example_sk =
  scheme ++ example_pk ++ js "?relay=" ++ Form.serialize_string (Utf16.to_usv example_relay) ++
  js "&secret=" ++ Form.serialize_string (Uint8.toString example_sk).
Proof. apply build_uri_format. apply bytes_check. reflexivity. Defined.

Lemma build_uri_params_witness :
  Reader.params_of (build_uri example_pk example_relay example_sk) =
  [(js "relay", Utf16.to_usv example_relay); (js "secret", Uint8.toString example_sk)].
Proof.
  apply build_uri_params;
    [apply not_In_check; reflexivity | apply code_units_check; reflexivity | apply bytes_check; reflexivity].
Defined.

Lemma secret_param_not_hex_witness :
  SearchParams.get (js "secret") (Reader.params_of (build_uri example_pk example_relay example_sk))
    = Some (Uint8.toString example_sk) /\
  Uint8.toString example_sk <> Hex.bytesToHex example_sk.
Proof.
  apply secret_param_not_hex;
    [apply not_In_check; reflexivity | apply code_units_check; reflexivity
    | apply bytes_check; reflexivity | simpl; lia].
Defined.

Lemma relay_param_roundtrip_witness :
  exists v, SearchParams.get (js "relay") (Reader.params_of (build_uri example_pk example_relay example_sk))
              = Some v /\ Utf16.from_usv v = example_relay.
Proof.
  apply relay_param_roundtrip;
    [apply not_In_check; reflexivity | apply code_units_check; reflexivity
    | reflexivity | apply bytes_check; reflexivity].
Defined.

(** A relay holding a lone surrogate does not come back as typed: the
    [URLSearchParams] conversion replaced it by U+FFFD. *)
Example relay_lone_surrogate :
  exists v, SearchParams.get (js "relay")
              (Reader.params_of (build_uri example_pk (example_relay ++ [0xD800]) example_sk)) = Some v /\
            Utf16.from_usv v <> example_relay ++ [0xD800].
Proof.
  exists (Utf16.to_usv (example_relay ++ [0xD800])). split.
  - rewrite build_uri_params;
      [reflexivity | apply not_In_check; reflexivity | apply code_units_check; reflexivity
      | apply bytes_check; reflexivity].
  - vm_compute. discriminate.
Qed.

End Examples.
