(* ===== verification/Secp256k1.v ===== *)
(** Key generation of nostr-tools 2 ([pure.ts]) over noble-curves'
    secp256k1: [generateSecretKey = schnorr.utils.randomPrivateKey], i.e.
    [mapHashToField(randomBytes(48), n)], and
    [getPublicKey(sk) = bytesToHex(schnorr.getPublicKey(sk))], the 32-byte
    x coordinate of [d * G] after the private-key checks of
    [normPrivateKeyToScalar]. Collaborators outside [src/], modelled from
    the library and from SEC 2 / BIP-340.

    The scalar multiplication is the mathematical one (affine
    double-and-add over the prime field, inverses by Fermat's little
    theorem); noble computes the same point with projective coordinates and
    precomputed windows, which are not modelled. The random source is an
    input: [None] when [crypto.getRandomValues] is unavailable, otherwise
    the bytes it returned. *)

From Stdlib Require Import ZArith List Lia Bool.
From S2P Require Import Prelude Bytes.
Import ListNotations.
Open Scope Z_scope.
Open Scope nostr_scope.

Module Secp256k1.

(** Curve parameters (SEC 2, section 2.4.1). *)
Definition P : Z := 2 ^ 256 - 2 ^ 32 - 977.
Definition N : Z :=
  0xFFFFFFFFFFFFFFFFFFFFFFFFFFFFFFFEBAAEDCE6AF48A03BBFD25E8CD0364141.
Definition Gx : Z :=
  0x79BE667EF9DCBBAC55A06295CE870B07029BFCDB2DCE28D959F2815B16F81798.
Definition Gy : Z :=
  0x483ADA7726A3C4655DA4FBFC0E1108A8FD17B448A68554199C47D08FFB10D4B8.

(** [getFieldBytesLength(n)] and [getMinHashLength(n)]. *)
Definition fieldLen : nat := 32.
Definition minHashLen : nat := 48.

(** [mapHashToField(key, n)] with its default [isLE = false]: reject
    lengths outside [48, 1024], read the key with
    [isLE ? bytesToNumberBE(key) : bytesToNumberLE(key)] (so little-endian
    here, as noble's source has it), reduce into [1, n-1], write it
    big-endian on 32 bytes. *)
Definition mapHashToField (key : list Z) (fieldOrder : Z) : throws (list Z) :=
  let len := length key in
  assert! negb ((len <? 16)%nat || (len <? minHashLen)%nat || (1024 <? len)%nat)
    else ExnHashToFieldLength ;;
  let num := Hex.bytesToNumberLE key in
  let reduced := num mod (fieldOrder - 1) + 1 in
  Hex.numberToBytesBE reduced fieldLen.

(** [randomBytes(48)]: the bytes of [crypto.getRandomValues], or an
    exception when there is no secure random source. *)
Definition randomBytes (entropy : option (list Z)) : throws (list Z) :=
  match entropy with
  | Some bytes => Ret bytes
  | None => Throw ExnRandomSourceUnavailable
  end.

Definition generateSecretKey (entropy : option (list Z)) : throws (list Z) :=
  key <- randomBytes entropy ;; mapHashToField key N.

(** Field arithmetic modulo [P]. *)
Fixpoint pow_mod_pos (b : Z) (e : positive) (m : Z) : Z :=
  match e with
  | xH => b mod m
  | xO e' => let h := pow_mod_pos b e' m in (h * h) mod m
  | xI e' => let h := pow_mod_pos b e' m in (h * h * b) mod m
  end.

Definition finv (a : Z) : Z :=
  match P - 2 with
  | Zpos e => pow_mod_pos a e P
  | _ => 0
  end.

(** Affine points; [None] is the point at infinity. *)
Definition point := option (Z * Z).

Definition on_curve (x y : Z) : bool := ((y * y - (x * x * x + 7)) mod P =? 0).

Definition point_double (p : point) : point :=
  match p with
  | None => None
  | Some (x, y) =>
      if y mod P =? 0 then None
      else
        let l := (3 * x * x * finv (2 * y)) mod P in
        let x3 := (l * l - 2 * x) mod P in
        Some (x3, (l * (x - x3) - y) mod P)
  end.

Definition point_add (p q : point) : point :=
  match p, q with
  | None, _ => q
  | _, None => p
  | Some (x1, y1), Some (x2, y2) =>
      if (x1 - x2) mod P =? 0 then
        if (y1 - y2) mod P =? 0 then point_double p else None
      else
        let l := ((y2 - y1) * finv (x2 - x1)) mod P in
        let x3 := (l * l - x1 - x2) mod P in
        Some (x3, (l * (x1 - x3) - y1) mod P)
  end.

(** Double-and-add on the binary digits of the scalar. *)
Fixpoint scalar_mult_pos (k : positive) (p : point) : point :=
  match k with
  | xH => p
  | xO k' => point_double (scalar_mult_pos k' p)
  | xI k' => point_add (point_double (scalar_mult_pos k' p)) p
  end.

Definition scalar_mult (k : Z) (p : point) : point :=
  match k with
  | Zpos k' => scalar_mult_pos k' p
  | _ => None
  end.

Definition G : point := Some (Gx, Gy).

(** [normPrivateKeyToScalar]: 32 bytes, and [1 <= d < n]. *)
Definition normPrivateKeyToScalar (key : list Z) : throws Z :=
  assert! (length key =? fieldLen)%nat else ExnPrivateKeyRange ;;
  let d := Hex.bytesToNumberBE key in
  assert! (1 <=? d) && (d <? N) else ExnPrivateKeyRange ;;
  Ret d.

(** [pointToBytes]: the x coordinate on 32 bytes; the point at infinity
    has no encoding (noble throws). *)
Definition pointToBytes (p : point) : throws (list Z) :=
  match p with
  | Some (x, _) => Hex.numberToBytesBE x fieldLen
  | None => Throw ExnPrivateKeyRange
  end.

Definition schnorr_getPublicKey (secretKey : list Z) : throws (list Z) :=
  d <- normPrivateKeyToScalar secretKey ;;
  pointToBytes (scalar_mult d G).

(** nostr-tools [getPublicKey]: hex of the x-only public key. *)
Definition getPublicKey (secretKey : list Z) : throws jsstring :=
  pk <- schnorr_getPublicKey secretKey ;; Ret (Hex.bytesToHex pk).

End Secp256k1.

Module Secp256k1Facts.
Import Secp256k1 Radix.

Lemma N_bounds : 2 <= N < 256 ^ 32.
Proof. unfold N. lia. Qed.

Lemma P_bounds : 2 <= P < 256 ^ 32.
Proof. unfold P. lia. Qed.

(** [numberToBytesBE x 32] for [0 <= x < 256^32]: 32 bytes whose
    big-endian value is [x]. *)
Lemma numberToBytesBE_32 x : 0 <= x < 256 ^ 32 ->
  exists bs, Hex.numberToBytesBE x fieldLen = Ret bs /\ length bs = fieldLen /\
             Forall is_byte bs /\ Hex.bytesToNumberBE bs = x.
Proof.
  intros Hx. exists (fixed_digits 256 fieldLen x).
  rewrite Hex.numberToBytesBE_fits by (unfold fieldLen; simpl; lia).
  split; [reflexivity|]. split; [apply length_fixed_digits|].
  assert (Hok : Forall is_byte (fixed_digits 256 fieldLen x)).
  { eapply Forall_impl; [|apply fixed_digits_ok; lia]. unfold digit_ok, is_byte. tauto. }
  split; [exact Hok|].
  rewrite Hex.bytesToNumberBE_val by exact Hok. apply digits_val_fixed; [lia|]. exact Hx.
Qed.

(** [generateSecretKey] on 48 random bytes: a 32-byte key whose value is
    in [1, n-1], the valid secp256k1 scalar range. *)
Theorem generateSecretKey_range e : length e = minHashLen -> Forall is_byte e ->
  exists sk, generateSecretKey (Some e) = Ret sk /\ length sk = fieldLen /\
             Forall is_byte sk /\ 1 <= Hex.bytesToNumberBE sk <= N - 1.
Proof.
  intros Hlen He. unfold generateSecretKey, randomBytes, mapHashToField.
  rewrite throws_bind_ret, Hlen. cbn [negb orb Nat.ltb Nat.leb minHashLen].
  set (r := Hex.bytesToNumberLE e mod (N - 1) + 1).
  assert (Hr : 1 <= r <= N - 1) by (unfold r; pose proof (Z.mod_pos_bound (Hex.bytesToNumberLE e) (N - 1)); unfold N in *; lia).
  destruct (numberToBytesBE_32 r) as (bs & Heq & Hl & Hb & Hv); [pose proof N_bounds; lia|].
  exists bs. rewrite Heq. rewrite Hv. auto.
Qed.

(** No random source: the exception the component's [catch] receives. *)
Theorem generateSecretKey_no_entropy : generateSecretKey None = Throw ExnRandomSourceUnavailable.
Proof. reflexivity. Qed.

(** Entropy shorter than 48 bytes or longer than 1024 is refused by
    [mapHashToField] with its length error. *)
Theorem generateSecretKey_bad_length e : (length e < minHashLen \/ 1024 < length e)%nat ->
  generateSecretKey (Some e) = Throw ExnHashToFieldLength.
Proof.
  intros Hl. unfold generateSecretKey, randomBytes, mapHashToField. rewrite throws_bind_ret.
  destruct (Nat.ltb_spec (length e) 16), (Nat.ltb_spec (length e) minHashLen),
           (Nat.ltb_spec 1024 (length e)); simpl; try reflexivity; lia.
Qed.

(** A generated key passes noble's private-key checks. *)
Theorem generated_key_valid e sk : generateSecretKey (Some e) = Ret sk ->
  length e = minHashLen -> Forall is_byte e ->
  normPrivateKeyToScalar sk = Ret (Hex.bytesToNumberBE sk).
Proof.
  intros Hgen Hlen He. destruct (generateSecretKey_range e Hlen He) as (sk' & Heq & Hl & _ & Hv).
  rewrite Hgen in Heq. injection Heq as <-.
  unfold normPrivateKeyToScalar. rewrite Hl, Nat.eqb_refl.
  replace ((1 <=? Hex.bytesToNumberBE sk) && (Hex.bytesToNumberBE sk <? N)) with true
    by (symmetry; apply andb_true_iff; split; [apply Z.leb_le | apply Z.ltb_lt]; lia).
  reflexivity.
Qed.

(** Coordinates stay reduced modulo [P]. *)
Definition point_ok (p : point) : Prop :=
  match p with Some (x, y) => 0 <= x < P /\ 0 <= y < P | None => True end.

Lemma mod_P_range a : 0 <= a mod P < P.
Proof. apply Z.mod_pos_bound. unfold P. lia. Qed.

Lemma point_double_ok p : point_ok (point_double p).
Proof.
  destruct p as [[x y]|]; simpl; [|exact I].
  destruct (y mod P =? 0); simpl; [exact I|]. split; apply mod_P_range.
Qed.

Lemma point_add_ok p q : point_ok p -> point_ok q -> point_ok (point_add p q).
Proof.
  intros Hp Hq. destruct p as [[x1 y1]|], q as [[x2 y2]|]; cbn [point_add]; auto.
  destruct ((x1 - x2) mod P =? 0).
  - destruct ((y1 - y2) mod P =? 0); [apply point_double_ok | exact I].
  - cbn [point_ok]. split; apply mod_P_range.
Qed.

Lemma scalar_mult_ok k p : point_ok p -> point_ok (scalar_mult k p).
Proof.
  intros Hp. destruct k as [|k|]; cbn [scalar_mult]; [exact I| |exact I].
  induction k as [k IH|k IH|]; cbn [scalar_mult_pos]; auto using point_add_ok, point_double_ok.
Qed.

Lemma G_ok : point_ok G.
Proof. unfold G, point_ok, Gx, Gy, P. lia. Qed.

Lemma bytesToHex_lower bs : Forall is_byte bs -> Forall is_lower_hex (Hex.bytesToHex bs).
Proof.
  intros Hbs. rewrite Hex.bytesToHex_digits by exact Hbs. apply Forall_map.
  eapply Forall_impl; [|apply Hex.hex_digits_ok]. intros d Hd.
  destruct (digit_char_range d Hd) as [[H _]|[H _]]; unfold is_lower_hex; lia.
Qed.

(** Whatever key [getPublicKey] returns is the hex of 32 bytes. *)
Lemma getPublicKey_bytes sk pk : getPublicKey sk = Ret pk ->
  exists bs, length bs = fieldLen /\ Forall is_byte bs /\ pk = Hex.bytesToHex bs.
Proof.
  unfold getPublicKey, schnorr_getPublicKey. intros H.
  apply throws_bind_Ret_inv in H as (b & Hb & Hpk). apply Ret_inj in Hpk. subst pk.
  apply throws_bind_Ret_inv in Hb as (d & _ & Hpt).
  pose proof (scalar_mult_ok d G G_ok) as Hok.
  unfold pointToBytes in Hpt. destruct (scalar_mult d G) as [[x y]|]; [|discriminate].
  destruct Hok as [Hx _].
  destruct (numberToBytesBE_32 x) as (bs & Heq & Hl & Hbs & _); [pose proof P_bounds; lia|].
  rewrite Heq in Hpt. apply Ret_inj in Hpt. subst b. eauto.
Qed.

(** Whatever key [getPublicKey] returns is 64 lowercase hex characters. *)
Theorem getPublicKey_hex sk pk : getPublicKey sk = Ret pk ->
  length pk = 64%nat /\ Forall is_lower_hex pk.
Proof.
  intros H. destruct (getPublicKey_bytes sk pk H) as (bs & Hl & Hbs & ->).
  split; [rewrite Hex.length_bytesToHex, Hl by exact Hbs; reflexivity|].
  apply bytesToHex_lower; exact Hbs.
Qed.

(** Whatever key [generateSecretKey] returns, from entropy of any length
    and any content, is 32 bytes of a value in [1, n-1]: [mod (n - 1) + 1]
    lands there. *)
Lemma generateSecretKey_bytes e sk : generateSecretKey e = Ret sk ->
  length sk = fieldLen /\ Forall is_byte sk /\ 1 <= Hex.bytesToNumberBE sk <= N - 1.
Proof.
  destruct e as [e|]; [|discriminate]. unfold generateSecretKey, randomBytes, mapHashToField.
  rewrite throws_bind_ret. cbv zeta. destruct (negb _); [|discriminate].
  set (r := Hex.bytesToNumberLE e mod (N - 1) + 1).
  assert (Hr : 1 <= r <= N - 1)
    by (unfold r; pose proof (Z.mod_pos_bound (Hex.bytesToNumberLE e) (N - 1)); unfold N in *; lia).
  destruct (numberToBytesBE_32 r) as (bs & Heq & Hl & Hb & Hv); [pose proof N_bounds; lia|].
  rewrite Heq. intros E. injection E as <-. rewrite Hv. auto.
Qed.

End Secp256k1Facts.

Module Secp256k1Examples.
Import Secp256k1 Secp256k1Facts.

Lemma generateSecretKey_range_witness :
  exists sk, generateSecretKey (Some (repeat 0 48)) = Ret sk /\ length sk = fieldLen /\
             Forall is_byte sk /\ 1 <= Hex.bytesToNumberBE sk <= N - 1.
Proof. apply generateSecretKey_range; [reflexivity | apply bytes_check; reflexivity]. Defined.

Lemma generateSecretKey_bad_length_witness :
  generateSecretKey (Some (repeat 255 32)) = Throw ExnHashToFieldLength.
Proof. apply generateSecretKey_bad_length. left. unfold minHashLen. simpl. lia. Defined.

Lemma generated_key_valid_witness :
  normPrivateKeyToScalar (repeat 0 31 ++ [1]) = Ret (Hex.bytesToNumberBE (repeat 0 31 ++ [1])).
Proof.
  apply (generated_key_valid (repeat 0 48)); [vm_compute; reflexivity | reflexivity |].
  apply bytes_check; reflexivity.
Defined.

(** BIP-340 test vector 0: the secret key 3. *)
Example getPublicKey_bip340_vector0 :
  getPublicKey (repeat 0 31 ++ [3]) =
  Ret (js "f9308a019258c31049344f85f89d5229b531c845836f99b08601f113bce036f9").
Proof. vm_compute. reflexivity. Qed.

End Secp256k1Examples.
