(* ===== verification/NostrTools.v ===== *)
(** The interface between the component and nostr-tools: the four calls
    [src/NostrKeyGen.js] makes ([generateSecretKey], [getPublicKey],
    [nip19.npubEncode], [nip19.nsecEncode]) as a class of operations, and
    the laws the component's theorems rely on as a second class. The
    component ([App]) is proved against these classes; the implementation
    over [Secp256k1] and [Bech32] discharges them ([Main]). *)

From Stdlib Require Import ZArith List Lia Bool.
From S2P Require Import Prelude.
Import ListNotations.
Open Scope Z_scope.
Open Scope nostr_scope.

Class NostrTools := {
  generateSecretKey : option (list Z) -> throws (list Z);
  getPublicKey : list Z -> throws jsstring;
  npubEncode : jsstring -> throws jsstring;
  nsecEncode : list Z -> throws jsstring
}.

Class NostrToolsLaws (T : NostrTools) := {
  (** A generated secret key is a 32-byte [Uint8Array]. *)
  secretKey_bytes : forall e sk, generateSecretKey e = Ret sk ->
    length sk = 32%nat /\ Forall is_byte sk;
  (** A public key is 64 lowercase hex characters. *)
  publicKey_hex : forall sk pk, getPublicKey sk = Ret pk ->
    length pk = 64%nat /\ Forall is_lower_hex pk
}.

Lemma lower_hex_no_query (pk : jsstring) : Forall is_lower_hex pk -> ~ In 0x3F pk.
Proof.
  intros H Hin. rewrite Forall_forall in H. specialize (H _ Hin). unfold is_lower_hex in H. lia.
Qed.
