(* ===== verification/App.v ===== *)
(** The React component [NostrKeyAndWalletConnectDemo]
    ([src/NostrKeyGen.js], lines 116-327) as a labelled state machine.

    - [state] holds the five [useState] hooks of lines 118-124, plus what
      the browser holds for the component: the clipboard writes still in
      flight (the [await] of line 180), the number of pending 2000 ms
      timers (line 186) and the clipboard's content.
    - [event]s are what can happen next: a click on a rendered button
      (carrying, for the two generate buttons, what
      [crypto.getRandomValues] yields during the handler), typing in the
      relay input, a pending clipboard write settling, a pending timer
      firing. Timers all have the same delay, so they fire in the order
      they were set; clipboard writes settle in order too.
    - [handle] runs the handler of an event and returns the new state and
      the effects ([alert], [console.error]); a handler's [setX] calls all
      take effect, as React applies them before the next event.
    - [render] is the JSX of lines 189-327 seen abstractly: what is shown
      and which buttons exist ([Page.page] is the whole element tree;
      lemmas of [PageFacts] such as [page_buttons] relate each of its
      observations to a field of [render]). A click is
      only possible on a rendered button ([enabled]).

    The model is parameterised by the nostr-tools interface
    ([NostrTools], [NostrToolsLaws]). *)

From Stdlib Require Import ZArith List Lia Bool.
From S2P Require Import Prelude Bytes Utf8 UrlSearchParams WalletConnect NostrTools.
Import ListNotations.
Open Scope Z_scope.
Open Scope nostr_scope.

Module Js.

(** ECMAScript WhiteSpace and LineTerminator code units. *)
Definition is_whitespace (c : Z) : bool :=
  (c =? 0x09) || (c =? 0x0B) || (c =? 0x0C) || (c =? 0x20) || (c =? 0xA0) ||
  (c =? 0xFEFF) || (c =? 0x1680) || ((0x2000 <=? c) && (c <=? 0x200A)) ||
  (c =? 0x202F) || (c =? 0x205F) || (c =? 0x3000) ||
  (c =? 0x0A) || (c =? 0x0D) || (c =? 0x2028) || (c =? 0x2029).

Fixpoint trim_start (s : jsstring) : jsstring :=
  match s with
  | c :: rest => if is_whitespace c then trim_start rest else s
  | [] => []
  end.

(** [String.prototype.trim]. *)
Definition trim (s : jsstring) : jsstring := rev (trim_start (rev (trim_start s))).

End Js.

Module App.

Section Component.
Context {T : NostrTools}.

(** The object stored by [setClientKeys({ sk, pk, npub, nsec })]:
    [sk] is the [Uint8Array] secret key, the others are strings. *)
Record ClientKeys := mkClientKeys {
  sk : list Z;
  pk : jsstring;
  npub : jsstring;
  nsec : jsstring }.

(** What the Copy buttons pass to [copyToClipboard]. *)
Inductive copy_target := CopyPk | CopyNpub | CopySk | CopyNsec | CopyURI.

Inductive button :=
| BtnGenerateKeys              (** lines 248 and 254 *)
| BtnTogglePrivate             (** line 228 *)
| BtnCopy (t : copy_target)    (** lines 209, 216, 234, 243, 293 *)
| BtnGenerateURI.              (** line 282 *)

Record state := mkState {
  clientKeys : option ClientKeys;
  showPrivate : bool;
  relay : jsstring;
  walletConnectURI : jsstring;
  copyMessage : jsstring;
  pendingWrites : list jsstring;
  pendingTimers : nat;
  clipboard : jsstring }.

Definition init : state := mkState None false [] [] [] [] 0 [].

Inductive event :=
| Click (b : button) (entropy : option (list Z))
| TypeRelay (value : jsstring)
| ClipboardSettles (ok : bool)
| TimerFires.

(** [alert(msg)] and [console.error(msg, err)], [err] the exception the
    [catch] received (for a failed clipboard write, the promise's
    rejection). *)
Inductive effect :=
| Alert (msg : jsstring)
| ConsoleError (msg : jsstring) (err : exn).

Definition set_clientKeys (k : option ClientKeys) (s : state) : state :=
  mkState k (showPrivate s) (relay s) (walletConnectURI s) (copyMessage s)
          (pendingWrites s) (pendingTimers s) (clipboard s).
Definition set_showPrivate (b : bool) (s : state) : state :=
  mkState (clientKeys s) b (relay s) (walletConnectURI s) (copyMessage s)
          (pendingWrites s) (pendingTimers s) (clipboard s).
Definition set_relay (r : jsstring) (s : state) : state :=
  mkState (clientKeys s) (showPrivate s) r (walletConnectURI s) (copyMessage s)
          (pendingWrites s) (pendingTimers s) (clipboard s).
Definition set_walletConnectURI (u : jsstring) (s : state) : state :=
  mkState (clientKeys s) (showPrivate s) (relay s) u (copyMessage s)
          (pendingWrites s) (pendingTimers s) (clipboard s).
Definition set_copyMessage (m : jsstring) (s : state) : state :=
  mkState (clientKeys s) (showPrivate s) (relay s) (walletConnectURI s) m
          (pendingWrites s) (pendingTimers s) (clipboard s).

(** Lines 128-140. The [try] block draws and encodes the key pair, then
    stores it and clears the URI; any exception is logged and nothing
    changes. *)
Definition make_client_keys (entropy : option (list Z)) : throws ClientKeys :=
  sk <- generateSecretKey entropy ;;
  pk <- getPublicKey sk ;;
  npub <- npubEncode pk ;;
  nsec <- nsecEncode sk ;;
  Ret (mkClientKeys sk pk npub nsec).

Definition generateClientKeys (entropy : option (list Z)) (s : state) : state * list effect :=
  match make_client_keys entropy with
  | Ret k => (set_walletConnectURI [] (set_clientKeys (Some k) s), [])
  | Throw x => (s, [ConsoleError (js "Error generating client keys:") x])
  end.

(** Lines 155-170: the service key pair and the URI. *)
Definition make_uri (entropy : option (list Z)) (k : ClientKeys) (r : jsstring) : throws jsstring :=
  buhoSK <- generateSecretKey entropy ;;
  buhoPK <- getPublicKey buhoSK ;;
  Ret (WalletConnect.build_uri buhoPK r (sk k)).

(** Lines 145-175, with the two guards and their alerts. *)
Definition generateWalletConnectURI (entropy : option (list Z)) (s : state) : state * list effect :=
  match clientKeys s with
  | None => (s, [Alert (js "Please generate your client Nostr keys first!")])
  | Some k =>
      match Js.trim (relay s) with
      | [] => (s, [Alert (js "Relay URL is required!")])
      | _ =>
          match make_uri entropy k (relay s) with
          | Ret uri => (set_walletConnectURI uri s, [])
          | Throw x => (s, [ConsoleError (js "Error generating Wallet Connect URI:") x])
          end
      end
  end.

(** The string [navigator.clipboard.writeText] receives: its argument
    converted with [ToString]; the secret key is a [Uint8Array]. *)
Definition copy_text (k : ClientKeys) (s : state) (t : copy_target) : jsstring :=
  match t with
  | CopyPk => pk k
  | CopyNpub => npub k
  | CopySk => Uint8.toString (sk k)
  | CopyNsec => nsec k
  | CopyURI => walletConnectURI s
  end.

(** Lines 178-180 up to the [await]: the write is started. *)
Definition copyToClipboard (text : jsstring) (s : state) : state :=
  mkState (clientKeys s) (showPrivate s) (relay s) (walletConnectURI s) (copyMessage s)
          (pendingWrites s ++ [text]) (pendingTimers s) (clipboard s).

Definition copy_click (t : copy_target) (s : state) : state :=
  match t, clientKeys s with
  | CopyURI, _ => copyToClipboard (walletConnectURI s) s
  | _, Some k => copyToClipboard (copy_text k s t) s
  | _, None => s
  end.

(** Lines 180-186 after the [await]: the message of the outcome, then the
    2000 ms timer, set whatever the outcome. *)
Definition settle (ok : bool) (s : state) : state * list effect :=
  match pendingWrites s with
  | [] => (s, [])
  | text :: rest =>
      let msg := if ok then js "Copied to clipboard!" else js "Copy failed!" in
      (mkState (clientKeys s) (showPrivate s) (relay s) (walletConnectURI s) msg
               rest (S (pendingTimers s)) (if ok then text else clipboard s),
       if ok then [] else [ConsoleError (js "Copy failed") ExnClipboardWrite])
  end.

(** Line 186: [setTimeout(() => setCopyMessage(""), 2000)] fires. *)
Definition timer_fires (s : state) : state :=
  match pendingTimers s with
  | O => s
  | S n => mkState (clientKeys s) (showPrivate s) (relay s) (walletConnectURI s) []
                   (pendingWrites s) n (clipboard s)
  end.

Definition handle (s : state) (e : event) : state * list effect :=
  match e with
  | Click BtnGenerateKeys ent => generateClientKeys ent s
  | Click BtnTogglePrivate _ => (set_showPrivate (negb (showPrivate s)) s, [])
  | Click (BtnCopy t) _ => (copy_click t s, [])
  | Click BtnGenerateURI ent => generateWalletConnectURI ent s
  | TypeRelay v => (set_relay v s, [])
  | ClipboardSettles ok => settle ok s
  | TimerFires => (timer_fires s, [])
  end.

(** ** The render (lines 189-327) *)

Definition mask : jsstring := repeat 0x2022 36.

(** What the key card shows when [clientKeys] is set (lines 204-251). *)
Record key_view := mkKeyView {
  kv_pk_hex : jsstring;
  kv_npub : jsstring;
  kv_sk_text : jsstring;
  kv_nsec_text : jsstring;
  kv_toggle_label : jsstring }.

Record view := mkView {
  v_keys : option key_view;
  v_generate_label : jsstring;
  v_relay_value : jsstring;
  v_uri : option jsstring;
  v_copy_message : option jsstring;
  v_buttons : list button }.

Definition render_keys (k : ClientKeys) (s : state) : key_view :=
  mkKeyView (pk k) (npub k)
            (if showPrivate s then Uint8.react_text (sk k) else mask)
            (if showPrivate s then nsec k else mask)
            (if showPrivate s then js "Hide" else js "Show").

Definition render (s : state) : view :=
  let keys_buttons :=
    match clientKeys s with
    | Some _ => [BtnCopy CopyPk; BtnCopy CopyNpub; BtnTogglePrivate; BtnCopy CopySk;
                 BtnCopy CopyNsec; BtnGenerateKeys]
    | None => [BtnGenerateKeys]
    end in
  let uri_shown := match walletConnectURI s with [] => false | _ => true end in
  mkView
    (option_map (fun k => render_keys k s) (clientKeys s))
    (match clientKeys s with
     | Some _ => js "Regenerate Client Keys"
     | None => js "Generate Your Client Nostr Keys"
     end)
    (relay s)
    (if uri_shown then Some (walletConnectURI s) else None)
    (if uri_shown then match copyMessage s with [] => None | m => Some m end else None)
    (keys_buttons ++ [BtnGenerateURI] ++ (if uri_shown then [BtnCopy CopyURI] else [])).

(** ** Runs *)

Definition button_eqb (a b : button) : bool :=
  match a, b with
  | BtnGenerateKeys, BtnGenerateKeys | BtnTogglePrivate, BtnTogglePrivate
  | BtnGenerateURI, BtnGenerateURI => true
  | BtnCopy CopyPk, BtnCopy CopyPk | BtnCopy CopyNpub, BtnCopy CopyNpub
  | BtnCopy CopySk, BtnCopy CopySk | BtnCopy CopyNsec, BtnCopy CopyNsec
  | BtnCopy CopyURI, BtnCopy CopyURI => true
  | _, _ => false
  end.

(** An event can happen: a click on a rendered button, typing a JS
    string, or a pending write or timer to complete. *)
Definition enabled (s : state) (e : event) : bool :=
  match e with
  | Click b _ => existsb (button_eqb b) (v_buttons (render s))
  | TypeRelay v => forallb WalletConnectFacts.code_unitb v
  | ClipboardSettles _ => match pendingWrites s with [] => false | _ => true end
  | TimerFires => Nat.ltb 0 (pendingTimers s)
  end.

Inductive step : state -> event -> state -> Prop :=
| step_handle s e : enabled s e = true -> step s e (fst (handle s e)).

Inductive reachable : state -> Prop :=
| reach_init : reachable init
| reach_step s e s' : reachable s -> step s e s' -> reachable s'.

(** Running a list of events from a state, skipping disabled ones. *)
Fixpoint run (s : state) (es : list event) : state :=
  match es with
  | [] => s
  | e :: rest => run (if enabled s e then fst (handle s e) else s) rest
  end.

End Component.

End App.

Module AppFacts.
Import App.

Section Laws.
Context {T : NostrTools} {L : NostrToolsLaws T}.

(** Reduce record projections of the setters, nothing else. *)
Ltac fields :=
  cbn [set_walletConnectURI set_clientKeys set_showPrivate set_relay set_copyMessage
       copyToClipboard clientKeys showPrivate relay walletConnectURI copyMessage
       pendingWrites pendingTimers clipboard fst snd] in *.

(** ** The invariant of reachable states *)

(** The stored key pair is one that nostr-tools produced: the public key
    and both encodings are derived from the secret key. *)
Definition keys_inv (s : state) : Prop :=
  match clientKeys s with
  | Some k => (exists ent, generateSecretKey ent = Ret (sk k)) /\
              getPublicKey (sk k) = Ret (pk k) /\
              npubEncode (pk k) = Ret (npub k) /\ nsecEncode (sk k) = Ret (nsec k)
  | None => True
  end.

(** A shown URI was built from the current client secret, some relay that
    was not blank, and a 64-hex-character service key. *)
Definition uri_inv (s : state) : Prop :=
  walletConnectURI s <> [] ->
  exists k buhoPK r, clientKeys s = Some k /\
    walletConnectURI s = WalletConnect.build_uri buhoPK r (sk k) /\
    length buhoPK = 64%nat /\ Forall is_lower_hex buhoPK /\
    Forall Utf16.code_unit r /\ Js.trim r <> [].

Definition inv (s : state) : Prop :=
  keys_inv s /\ uri_inv s /\ Forall Utf16.code_unit (relay s) /\
  (copyMessage s <> [] -> (0 < pendingTimers s)%nat).

(** ** How each handler changes the state *)

Lemma generateClientKeys_cases ent s :
  fst (generateClientKeys ent s) = s \/
  exists k, make_client_keys ent = Ret k /\
            fst (generateClientKeys ent s) = set_walletConnectURI [] (set_clientKeys (Some k) s).
Proof.
  unfold generateClientKeys. destruct (make_client_keys ent) as [k|e]; [right; eauto | left; reflexivity].
Qed.

Lemma generateWalletConnectURI_cases ent s :
  fst (generateWalletConnectURI ent s) = s \/
  exists k uri, clientKeys s = Some k /\ Js.trim (relay s) <> [] /\
                make_uri ent k (relay s) = Ret uri /\
                fst (generateWalletConnectURI ent s) = set_walletConnectURI uri s.
Proof.
  unfold generateWalletConnectURI. destruct (clientKeys s) as [k|]; [|left; reflexivity].
  destruct (Js.trim (relay s)) as [|c cs] eqn:Et; [left; reflexivity|].
  destruct (make_uri ent k (relay s)) as [uri|e] eqn:Eu; [|left; reflexivity].
  right. exists k, uri. repeat split; auto. congruence.
Qed.

Lemma copy_click_fields t s :
  clientKeys (copy_click t s) = clientKeys s /\ walletConnectURI (copy_click t s) = walletConnectURI s /\
  relay (copy_click t s) = relay s /\ copyMessage (copy_click t s) = copyMessage s /\
  pendingTimers (copy_click t s) = pendingTimers s.
Proof.
  unfold copy_click. destruct t; destruct (clientKeys s) eqn:E; cbn; rewrite ?E; repeat split.
Qed.

(** The events other than the two generate clicks leave the keys and the
    URI alone. *)
Lemma handle_keeps_keys_uri s e :
  (forall ent, e <> Click BtnGenerateKeys ent) -> (forall ent, e <> Click BtnGenerateURI ent) ->
  clientKeys (fst (handle s e)) = clientKeys s /\
  walletConnectURI (fst (handle s e)) = walletConnectURI s.
Proof.
  intros H1 H2. destruct e as [[| |t|] ent|v|ok|]; cbn [handle fst].
  - exfalso; apply (H1 ent); reflexivity.
  - split; reflexivity.
  - destruct (copy_click_fields t s) as (E1 & E2 & _). split; assumption.
  - exfalso; apply (H2 ent); reflexivity.
  - split; reflexivity.
  - unfold settle. destruct (pendingWrites s); split; reflexivity.
  - unfold timer_fires. destruct (pendingTimers s); split; reflexivity.
Qed.

(** ** The invariant is inductive *)

Lemma inv_init : inv init.
Proof.
  unfold inv, keys_inv, uri_inv, init; fields.
  split; [exact I|]. split; [congruence|]. split; [constructor | congruence].
Qed.

(** [inv] depends only on these fields. *)
Lemma inv_frame s s' :
  clientKeys s' = clientKeys s -> walletConnectURI s' = walletConnectURI s ->
  relay s' = relay s -> copyMessage s' = copyMessage s -> pendingTimers s' = pendingTimers s ->
  inv s -> inv s'.
Proof.
  intros E1 E2 E3 E4 E5. unfold inv, keys_inv, uri_inv. rewrite E1, E2, E3, E4, E5. tauto.
Qed.

Lemma make_client_keys_inv ent k : make_client_keys ent = Ret k ->
  (exists ent, generateSecretKey ent = Ret (sk k)) /\ getPublicKey (sk k) = Ret (pk k) /\
  npubEncode (pk k) = Ret (npub k) /\ nsecEncode (sk k) = Ret (nsec k).
Proof.
  unfold make_client_keys. intros H.
  apply throws_bind_Ret_inv in H as (a & Ha & H).
  apply throws_bind_Ret_inv in H as (b & Hb & H).
  apply throws_bind_Ret_inv in H as (c & Hc & H).
  apply throws_bind_Ret_inv in H as (d & Hd & H).
  injection H as <-. cbn. eauto 6.
Qed.

Lemma make_uri_shape ent k r uri : make_uri ent k r = Ret uri ->
  exists buhoPK, uri = WalletConnect.build_uri buhoPK r (sk k) /\
                 length buhoPK = 64%nat /\ Forall is_lower_hex buhoPK.
Proof.
  unfold make_uri. intros H.
  apply throws_bind_Ret_inv in H as (bsk & _ & H).
  apply throws_bind_Ret_inv in H as (bpk & Hpk & H). injection H as <-.
  exists bpk. split; [reflexivity|]. apply (publicKey_hex bsk); assumption.
Qed.

Lemma settle_message ok s : copyMessage (fst (settle ok s)) <> [] ->
  (0 < pendingTimers (fst (settle ok s)))%nat \/ (copyMessage s <> [] /\ fst (settle ok s) = s).
Proof.
  unfold settle. destruct (pendingWrites s); [right; auto|]. left. simpl. lia.
Qed.

Theorem inv_step s e s' : inv s -> step s e s' -> inv s'.
Proof.
  intros Hinv Hstep. inversion Hstep as [? ? Hen]; subst s0 e0 s'.
  pose proof Hinv as (Hk & Hu & Hr & Hm).
  destruct e as [[| |t|] ent|v|ok|].
  - (* generate keys *)
    cbn [handle]. destruct (generateClientKeys_cases ent s) as [->|(k & Hmk & ->)]; [exact Hinv|].
    unfold inv, keys_inv, uri_inv. fields.
    split; [apply (make_client_keys_inv ent); assumption|]. split; [congruence|]. auto.
  - (* toggle *)
    apply (inv_frame s); try reflexivity; exact Hinv.
  - (* copy *)
    destruct (copy_click_fields t s) as (E1 & E2 & E3 & E4 & E5).
    apply (inv_frame s); assumption.
  - (* generate URI *)
    cbn [handle]. destruct (generateWalletConnectURI_cases ent s) as [->|(k & uri & Ek & Ht & Hmu & ->)];
      [exact Hinv|].
    destruct (make_uri_shape ent k (relay s) uri Hmu) as (bpk & -> & Hl & Hx).
    unfold inv, keys_inv, uri_inv in *. fields.
    split; [exact Hk|]. split; [|auto].
    intros _. exists k, bpk, (relay s). auto 7.
  - (* typing *)
    unfold inv, keys_inv, uri_inv in *. cbn [handle]. fields.
    split; [exact Hk|]. split; [exact Hu|]. split; [|exact Hm].
    apply WalletConnectFacts.code_units_check. exact Hen.
  - (* a clipboard write settles *)
    cbn [handle]. unfold settle. destruct (pendingWrites s) as [|text rest]; [exact Hinv|].
    unfold inv, keys_inv, uri_inv in *. fields. split; [exact Hk|]. split; [exact Hu|].
    split; [exact Hr|]. intros _. lia.
  - (* a timer fires *)
    cbn [handle]. unfold timer_fires. destruct (pendingTimers s) as [|n] eqn:Ep; [exact Hinv|].
    unfold inv, keys_inv, uri_inv in *. fields. split; [exact Hk|]. split; [exact Hu|].
    split; [exact Hr|]. congruence.
Qed.

Theorem reachable_inv s : reachable s -> inv s.
Proof. induction 1; eauto using inv_init, inv_step. Qed.

(** Running enabled events keeps a state reachable. *)
Lemma run_reachable s es : reachable s -> reachable (run s es).
Proof.
  revert s; induction es as [|e es IH]; intros s Hs; [exact Hs|].
  cbn [run]. apply IH. destruct (enabled s e) eqn:Ee; [|exact Hs].
  eapply reach_step; [exact Hs|]. constructor. exact Ee.
Qed.

(** The stored secret key is a 32-byte array. *)
Lemma inv_sk_bytes s k : inv s -> clientKeys s = Some k ->
  length (sk k) = 32%nat /\ Forall is_byte (sk k).
Proof.
  intros (Hk & _) Ek. unfold keys_inv in Hk. rewrite Ek in Hk.
  destruct Hk as ((ent & Hgen) & _). exact (secretKey_bytes ent (sk k) Hgen).
Qed.

(** What the invariant says of a shown URI: how it was built. *)
Lemma inv_uri_built s : inv s -> walletConnectURI s <> [] ->
  exists k bpk r, clientKeys s = Some k /\ walletConnectURI s = WalletConnect.build_uri bpk r (sk k) /\
    length bpk = 64%nat /\ Forall is_lower_hex bpk /\ Forall Utf16.code_unit r /\ Js.trim r <> [] /\
    Forall is_byte (sk k).
Proof.
  intros Hinv Hne. pose proof Hinv as (_ & Hu & _ & _).
  destruct (Hu Hne) as (k & bpk & r & Ek & Eu & Hl & Hx & Hcu & Ht).
  destruct (inv_sk_bytes s k Hinv Ek) as (_ & Hb).
  exists k, bpk, r. auto 8.
Qed.

(** What the invariant says of a shown URI, read back as a query. *)
Lemma inv_uri_params s : inv s -> walletConnectURI s <> [] ->
  exists k r, clientKeys s = Some k /\ Js.trim r <> [] /\
    Reader.params_of (walletConnectURI s) =
      [(js "relay", Utf16.to_usv r); (js "secret", Uint8.toString (sk k))] /\
    length (Reader.authority_of (walletConnectURI s)) = 64%nat.
Proof.
  intros Hinv Hne.
  destruct (inv_uri_built s Hinv Hne) as (k & bpk & r & Ek & Eu & Hl & Hx & Hcu & Ht & Hb).
  exists k, r. split; [exact Ek|]. split; [exact Ht|]. rewrite Eu. split.
  - apply WalletConnectFacts.build_uri_params; auto using lower_hex_no_query.
  - rewrite WalletConnectFacts.build_uri_authority by auto using lower_hex_no_query. exact Hl.
Qed.

(** ** Properties of reachable states *)

(** C2: A shown URI always carries the secret key of the key pair currently
    stored (regenerating the keys clears it), a non-blank relay and a
    64-character service key. *)
Theorem uri_embeds_current_secret s : reachable s -> walletConnectURI s <> [] ->
  exists k r, clientKeys s = Some k /\ Js.trim r <> [] /\
    Reader.params_of (walletConnectURI s) =
      [(js "relay", Utf16.to_usv r); (js "secret", Uint8.toString (sk k))] /\
    length (Reader.authority_of (walletConnectURI s)) = 64%nat.
Proof. intros Hr. apply inv_uri_params, reachable_inv, Hr. Qed.

(** C6: The stored public key and both NIP-19 strings are those of the stored
    secret key (spec section 3's KeyPair invariant). *)
Theorem client_keys_derived s k : reachable s -> clientKeys s = Some k ->
  getPublicKey (sk k) = Ret (pk k) /\ npubEncode (pk k) = Ret (npub k) /\
  nsecEncode (sk k) = Ret (nsec k) /\ length (sk k) = 32%nat.
Proof.
  intros Hr Ek. pose proof (reachable_inv s Hr) as Hinv.
  destruct (inv_sk_bytes s k Hinv Ek) as (Hl & _). destruct Hinv as (Hk & _).
  unfold keys_inv in Hk. rewrite Ek in Hk. destruct Hk as (_ & H1 & H2 & H3). auto.
Qed.

(** C18: A copy message always has a timer pending that will clear it. *)
Theorem copy_message_cleared s : reachable s -> copyMessage s <> [] ->
  enabled s TimerFires = true /\ copyMessage (fst (handle s TimerFires)) = [].
Proof.
  intros Hr Hne. destruct (reachable_inv s Hr) as (_ & _ & _ & Hm).
  specialize (Hm Hne). cbn [enabled handle fst]. unfold timer_fires.
  destruct (pendingTimers s) as [|n]; [lia|]. split; reflexivity.
Qed.

(** ** The handlers *)

(** C27: Two URIs built for the same keys and relay carry the same [relay] and
    [secret] values, whatever service keys were drawn (spec section 8). *)
Theorem uri_params_independent ent1 ent2 k r u1 u2 :
  Forall is_byte (sk k) -> Forall Utf16.code_unit r ->
  make_uri ent1 k r = Ret u1 -> make_uri ent2 k r = Ret u2 ->
  Reader.params_of u1 = Reader.params_of u2.
Proof.
  intros Hb Hr E1 E2.
  destruct (make_uri_shape ent1 k r u1 E1) as (p1 & -> & _ & H1).
  destruct (make_uri_shape ent2 k r u2 E2) as (p2 & -> & _ & H2).
  rewrite !WalletConnectFacts.build_uri_params by auto using lower_hex_no_query. reflexivity.
Qed.

(** C10: [generateClientKeys]: a new key pair replaces the old one and the URI
    is cleared; an exception changes nothing and is logged. *)
Theorem generateClientKeys_spec ent s :
  (forall k, make_client_keys ent = Ret k ->
     handle s (Click BtnGenerateKeys ent) =
       (set_walletConnectURI [] (set_clientKeys (Some k) s), [])) /\
  (forall e, make_client_keys ent = Throw e ->
     handle s (Click BtnGenerateKeys ent) = (s, [ConsoleError (js "Error generating client keys:") e])).
Proof.
  split; intros x Hx; cbn [handle]; unfold generateClientKeys; rewrite Hx; reflexivity.
Qed.

(** C9: [generateWalletConnectURI]'s error paths: no keys, a blank relay, an
    exception while drawing the service key; in all three the state,
    including a URI shown before, is unchanged. *)
Theorem generateWalletConnectURI_errors ent s :
  (clientKeys s = None ->
     handle s (Click BtnGenerateURI ent) = (s, [Alert (js "Please generate your client Nostr keys first!")])) /\
  (forall k, clientKeys s = Some k -> Js.trim (relay s) = [] ->
     handle s (Click BtnGenerateURI ent) = (s, [Alert (js "Relay URL is required!")])) /\
  (forall k e, clientKeys s = Some k -> Js.trim (relay s) <> [] -> make_uri ent k (relay s) = Throw e ->
     handle s (Click BtnGenerateURI ent) = (s, [ConsoleError (js "Error generating Wallet Connect URI:") e])).
Proof.
  cbn [handle]; unfold generateWalletConnectURI. split; [|split].
  - intros E. rewrite E. reflexivity.
  - intros k E Et. rewrite E, Et. reflexivity.
  - intros k e E Et Eu. rewrite E. destruct (Js.trim (relay s)); [congruence|]. rewrite Eu. reflexivity.
Qed.

(** C16: Two copies in a row: the first copy's timer clears the message of the
    second one while the second timer is still pending (no
    [clearTimeout]). *)
Theorem copy_timer_race s a b :
  pendingWrites s = [a; b] ->
  let s' := run s [ClipboardSettles true; ClipboardSettles true; TimerFires] in
  copyMessage s' = [] /\ pendingTimers s' = S (pendingTimers s) /\ clipboard s' = b.
Proof.
  intros Hw. destruct s as [ck sp r u m w n c]. cbn in Hw. subst w.
  cbn. repeat split.
Qed.

(** C14: Copying the secret key writes its comma-separated decimal bytes to
    the clipboard. *)
Theorem copy_secret_clipboard s k ent :
  clientKeys s = Some k -> pendingWrites s = [] ->
  clipboard (run s [Click (BtnCopy CopySk) ent; ClipboardSettles true]) = Uint8.toString (sk k).
Proof.
  intros Ek Ew. destruct s as [ck sp r u m w n c]. cbn in Ek, Ew. subst ck w.
  reflexivity.
Qed.

(** ** The render *)

(** C21: With [showPrivate] off, the secret key and the nsec are masked. *)
Theorem render_masks_secret s k : clientKeys s = Some k -> showPrivate s = false ->
  v_keys (render s) = Some (mkKeyView (pk k) (npub k) mask mask (js "Show")).
Proof. intros Ek Es. unfold render, render_keys. rewrite Ek, Es. reflexivity. Qed.

(** C22: Whatever the masking, a shown URI carries the secret key in clear
    text: its [secret] parameter is the secret key's decimal bytes. *)
Theorem render_uri_exposes_secret s : reachable s -> walletConnectURI s <> [] ->
  exists k u, clientKeys s = Some k /\ v_uri (render s) = Some u /\
    SearchParams.get (js "secret") (Reader.params_of u) = Some (Uint8.toString (sk k)).
Proof.
  intros Hr Hne. destruct (inv_uri_params s (reachable_inv s Hr) Hne) as (k & r & Ek & _ & Hp & _).
  exists k, (walletConnectURI s). split; [exact Ek|]. split.
  - unfold render. cbn [v_uri]. destruct (walletConnectURI s); [congruence|reflexivity].
  - rewrite Hp. reflexivity.
Qed.

(** C24: The copy message is only rendered inside the URI card: copying a key
    before a URI exists gives no visible feedback. *)
Theorem copy_message_hidden_without_uri s : walletConnectURI s = [] -> v_copy_message (render s) = None.
Proof. intros E. unfold render. cbn [v_copy_message]. rewrite E. reflexivity. Qed.

(** ** Runs *)

Lemma run_app s es1 es2 : run s (es1 ++ es2) = run (run s es1) es2.
Proof. revert s; induction es1 as [|e es IH]; intros s; [reflexivity|]. apply IH. Qed.

(** C25: Every URI the component shows is made of URI characters: the
    serialized query's ([A-Za-z0-9*-._], [%], [+], [=], [&]) and [?], [:],
    [/]; no space, control character or non-ASCII character. *)
Theorem uri_well_formed s : reachable s ->
  Forall (fun c => WalletConnectFacts.uri_char c = true) (walletConnectURI s).
Proof.
  intros Hr. destruct (walletConnectURI s) eqn:E; [constructor|]. rewrite <- E.
  destruct (inv_uri_built s (reachable_inv s Hr) ltac:(congruence))
    as (k & bpk & r & _ & -> & _ & Hx & Hcu & _ & Hb).
  apply WalletConnectFacts.build_uri_chars; assumption.
Qed.

End Laws.

End AppFacts.
