(* ===== verification/Page.v ===== *)
(** The JSX of lines 189-327 as the React element tree it evaluates to.

    Module [Jsx] is the tree: elements with their tag, attributes and
    children, text, and fragments. A JSX child [{e}] is the value of [e]:
    a string is a text node (also the empty string, which React DOM then
    skips), [{a && b}] is [a] when [a] is falsy (the empty string) and [b]
    otherwise, a fragment [<>...</>] keeps its children in place, and an
    iterable such as the [Uint8Array] [clientKeys.sk] is rendered like an
    array, one text node per item ([Items]), a number as its decimal text. Static
    text follows JSX's whitespace rule: each line is trimmed, blank lines
    dropped, the remaining lines joined by one space; entities ([&lt;],
    [&gt;], [&amp;]) are decoded. An event handler is recorded by what it
    does: [AOnClick b] is the click on button [b] of [App], [AOnChange] the
    [setRelay(e.target.value)] of the relay input.

    Module [Page] is the tree of [NostrKeyAndWalletConnectDemo]'s
    [return]; module [PageFacts] relates it to the abstract [App.render]. *)

From Stdlib Require Import ZArith List Lia Bool Morphisms RelationClasses.
From S2P Require Import Prelude Styles Bytes Utf8 UrlSearchParams WalletConnect NostrTools App.
Import ListNotations.
Open Scope Z_scope.
Open Scope nostr_scope.

Module Jsx.
Import Style App.

Inductive attr :=
| AStyle (o : object)
| AOnClick (b : button)
| AOnChange
| ATitle (t : jsstring)
| AType (t : jsstring)
| APlaceholder (t : jsstring)
| AValue (v : jsstring).

#[warnings="-register-all"]
Inductive node :=
| El (tag : jsstring) (attrs : list attr) (children : list node)
| Text (t : jsstring)
| Frag (children : list node)
| Items (texts : list jsstring).

(** [{s}] for a string [s]. *)
Definition str_child (s : jsstring) : node := Text s.

(** [{a && b}] for a string [a]. *)
Definition and_child (a : jsstring) (b : node) : node :=
  match a with [] => Text a | _ => b end.

(** An iterable of numbers as a child, [{clientKeys.sk}]: one text node per
    item, a number as its decimal text. *)
Definition bytes_child (b : list Z) : node := Items (map (Radix.number_toString 10) b).

Definition el (tag : String.string) attrs children : node := El (js tag) attrs children.
Definition txt (s : String.string) : node := Text (js s).
Arguments el tag%_string_scope attrs children.
Arguments txt s%_string_scope.

(** The concatenation of the children's texts (a lone child's text is
    returned as it is). *)
Definition join_texts (l : list jsstring) : jsstring :=
  fold_right (fun t acc => match acc with [] => t | _ => t ++ acc end) [] l.

(** The text content of a node. *)
Fixpoint text_content (n : node) : jsstring :=
  match n with
  | Text t => t
  | El _ _ ch | Frag ch => join_texts (map text_content ch)
  | Items ts => concat ts
  end.

(** What an observation [f] sees at every element, in document order. *)
Fixpoint collect {A} (f : list attr -> list node -> list A) (n : node) : list A :=
  match n with
  | Text _ | Items _ => []
  | El _ attrs ch => f attrs ch ++ flat_map (collect f) ch
  | Frag ch => flat_map (collect f) ch
  end.

Fixpoint onclick (attrs : list attr) : option button :=
  match attrs with
  | [] => None
  | AOnClick b :: _ => Some b
  | _ :: rest => onclick rest
  end.

(** The clickable elements with their labels. *)
Definition buttons (n : node) : list (button * jsstring) :=
  collect (fun attrs ch =>
             match onclick attrs with
             | Some b => [(b, join_texts (map text_content ch))]
             | None => []
             end) n.

Definition label_of (b : button) (n : node) : option jsstring :=
  option_map snd (find (fun p => button_eqb b (fst p)) (buttons n)).

Definition value_eqb (a b : value) : bool :=
  match a, b with
  | VStr x, VStr y => jseqb x y
  | VNum x, VNum y => x =? y
  | _, _ => false
  end.

Fixpoint object_eqb (a b : object) : bool :=
  match a, b with
  | [], [] => true
  | (k, v) :: a', (k', v') :: b' => jseqb k k' && value_eqb v v' && object_eqb a' b'
  | _, _ => false
  end.

Definition has_style (o : object) (attrs : list attr) : bool :=
  existsb (fun a => match a with AStyle o' => object_eqb o o' | _ => false end) attrs.

(** The text of the elements styled with [o]. *)
Definition styled (o : object) (n : node) : list jsstring :=
  collect (fun attrs ch => if has_style o attrs then [join_texts (map text_content ch)] else []) n.

(** The values of the controlled inputs (a [value] and an [onChange]). *)
Definition inputs (n : node) : list jsstring :=
  collect (fun attrs _ =>
             if existsb (fun a => match a with AOnChange => true | _ => false end) attrs
             then flat_map (fun a => match a with AValue v => [v] | _ => [] end) attrs
             else []) n.

(** The text nodes of the tree, in document order. *)
Definition texts (n : node) : list jsstring :=
  collect (fun _ ch => flat_map (fun c => match c with Text t => [t] | _ => [] end) ch) n.

End Jsx.

Module Page.
Import Style Styles Jsx App.

Definition rsquo : jsstring := [0x2019].

Definition blueButton : object := buttonStyle (js "#4dabf7").

Definition copy_button (t : copy_target) : node :=
  el "button" [AOnClick (BtnCopy t); AStyle blueButton] [txt "Copy"].

(** Lines 194-202. *)
Definition overview : node :=
  el "div" [AStyle infoStyle]
    [el "p" []
      [el "strong" [] [txt "Overview:"]; el "br" [] [];
       txt "This tool generates your unique Nostr key pair. Your ";
       el "em" [] [txt "private key"];
       txt " (nsec) signs your events and must remain secret, while the ";
       el "em" [] [txt "public key"];
       txt " (npub) identifies you on the network.";
       el "br" [] [];
       el "strong" [] [txt "Technical Details:"];
       txt " Uses elliptic curve cryptography (secp256k1) and Bech32 encoding (NIP-19) for secure key generation."]].

(** Lines 204-251: the key card when [clientKeys] is set. *)
Definition keys_card (k : ClientKeys) (showPrivate : bool) : node :=
  Frag
    [el "div" [AStyle (literal [str "marginBottom" "25px"])]
       [el "div" [AStyle labelStyle] [txt "Client Public Key (Hex):"];
        el "div" [AStyle keyBoxStyle]
          [el "span" [AStyle hexKeyTextStyle] [str_child (pk k)]; copy_button CopyPk];
        el "div" [AStyle labelStyle] [txt "Client Public Key (NIP-19):"];
        el "div" [AStyle keyBoxStyle]
          [el "span" [AStyle nipKeyTextStyle] [str_child (npub k)]; copy_button CopyNpub]];
     el "div" [AStyle (literal [str "marginBottom" "25px"])]
       [el "div" [AStyle labelStyle] [txt "Client Private Key (Hex):"];
        el "div" [AStyle keyBoxStyle]
          [el "span" [AStyle hexKeyTextStyle]
             [if showPrivate then bytes_child (sk k) else str_child mask];
           el "button" [AOnClick BtnTogglePrivate; AStyle blueButton;
                        ATitle (js "Toggle Private Key Visibility")]
             [str_child (if showPrivate then js "Hide" else js "Show")];
           copy_button CopySk];
        el "div" [AStyle labelStyle] [txt "Client Private Key (NIP-19):"];
        el "div" [AStyle keyBoxStyle]
          [el "span" [AStyle nipKeyTextStyle]
             [str_child (if showPrivate then nsec k else mask)];
           copy_button CopyNsec]];
     el "button" [AOnClick BtnGenerateKeys; AStyle blueButton] [txt "Regenerate Client Keys"]].

(** Lines 253-257: no keys yet. *)
Definition no_keys_card : node :=
  el "div" [AStyle (literal [str "textAlign" "center"; str "marginTop" "20px"])]
    [el "button" [AOnClick BtnGenerateKeys; AStyle blueButton]
       [txt "Generate Your Client Nostr Keys"]].

(** Lines 264-271. *)
Definition workflow : node :=
  el "div" [AStyle infoStyle]
    [el "p" []
      [el "strong" [] [txt "Workflow:"]; el "br" [] [];
       Text (js "Every time a connection is created, Buho (your NWC string generator) generates a unique Nostr key pair. The generated URI uses Buho" ++
             rsquo ++ js "s public key to identify the wallet service and your client" ++
             rsquo ++ js "s secret key for signing and encryption.")]].

(** Lines 272-285: the relay input and the URI button. *)
Definition relay_form (relay : jsstring) : node :=
  el "div" []
    [el "label" [AStyle labelStyle] [txt "Relay URL (required):"];
     el "input" [AType (js "text"); APlaceholder (js "wss://relay.example.com");
                 AStyle inputStyle; AValue relay; AOnChange] [];
     el "button" [AOnClick BtnGenerateURI; AStyle blueButton] [txt "Generate URI"]].

(** Line 297. *)
Definition messageStyle : object := literal [str "marginLeft" "10px"; str "color" "#4caf50"].

(** The text of line 318. *)
Definition secret_doc : jsstring :=
  js ": A required query parameter containing your client" ++ rsquo ++
  js "s private key (in hex) for signing and encryption.".

(** Lines 301-321. *)
Definition details_box : node :=
  el "div" [AStyle detailsBoxStyle]
    [el "strong" [] [txt "URI Details:"]; el "br" [] [];
     el "code" [] [txt "nostr+walletconnect://<buhoPublicKey>?relay=<relay>&secret=<clientSecret>"];
     el "br" [] []; el "br" [] [];
     el "strong" [] [txt "Components:"];
     el "ul" [AStyle (literal [str "margin" "5px 0 0 20px"])]
       [el "li" [] [el "code" [] [txt "nostr+walletconnect://"];
                    txt ": Specifies the protocol for Nostr Wallet Connect."];
        el "li" [] [el "code" [] [txt "<buhoPublicKey>"];
                    txt ": The unique public key generated by Buho for this connection."];
        el "li" [] [el "code" [] [txt "relay=<relay>"];
                    txt ": A required query parameter specifying the relay URL where messages are exchanged."];
        el "li" [] [el "code" [] [txt "secret=<clientSecret>"];
                    Text secret_doc]]].

(** Lines 287-323: the URI card, shown when [walletConnectURI] is set. *)
Definition uri_card (uri msg : jsstring) : node :=
  and_child uri
    (Frag
      [el "h2" [AStyle uriHeaderStyle] [txt "Generated URI"];
       el "div" [AStyle uriBoxStyle] [str_child uri];
       el "button" [AOnClick (BtnCopy CopyURI); AStyle blueButton] [txt "Copy URI"];
       and_child msg (el "span" [AStyle messageStyle] [str_child msg]);
       details_box]).

(** Lines 189-327. *)
Definition page (s : state) : node :=
  el "div" [AStyle containerStyle]
    [el "div" [AStyle cardStyle]
       [el "h1" [AStyle headerStyle] [txt "Client Nostr Key Generator"];
        overview;
        match clientKeys s with
        | Some k => keys_card k (showPrivate s)
        | None => no_keys_card
        end];
     el "div" [AStyle cardStyle]
       [el "h1" [AStyle headerStyle] [txt "Buho Wallet Connect URI Generator"];
        workflow;
        relay_form (relay s);
        uri_card (walletConnectURI s) (copyMessage s)]].

Definition opt_list {A} (o : option A) : list A := match o with Some a => [a] | None => [] end.

(** What the page may depend on: every field it shows, the secret key and
    the nsec only while [showPrivate] is on. *)
Definition low (s : state) :=
  (showPrivate s, relay s, walletConnectURI s, copyMessage s,
   option_map (fun k => (pk k, npub k, if showPrivate s then Some (sk k, nsec k) else None))
              (clientKeys s)).

Definition low_eq (s1 s2 : state) : Prop := low s1 = low s2.

End Page.

Module PageFacts.
Import Style Styles Jsx App Page.

Lemma join_texts_concat l : join_texts l = concat l.
Proof.
  induction l as [|t l IH]; [reflexivity|]. cbn [join_texts fold_right concat].
  fold (join_texts l). rewrite IH. destruct (concat l); [rewrite app_nil_r|]; reflexivity.
Qed.

(** Evaluate the observations of a page whose fields are split. *)
Ltac page_eval := lazy.

Ltac page_cases s :=
  unfold page, render, render_keys; cbn [option_map v_keys v_buttons v_uri v_copy_message
    v_relay_value v_generate_label kv_toggle_label kv_pk_hex kv_npub kv_sk_text kv_nsec_text];
  destruct (clientKeys s) as [k|], (showPrivate s), (walletConnectURI s) as [|c u],
    (copyMessage s) as [|m ms]; page_eval.

Lemma page_buttons s : map fst (buttons (page s)) = v_buttons (render s).
Proof. page_cases s; reflexivity. Qed.

Lemma page_uri_box s : styled uriBoxStyle (page s) = opt_list (v_uri (render s)).
Proof. page_cases s; reflexivity. Qed.

Lemma page_labels s :
  label_of BtnGenerateKeys (page s) = Some (v_generate_label (render s)) /\
  label_of BtnTogglePrivate (page s) = option_map kv_toggle_label (v_keys (render s)).
Proof. page_cases s; split; reflexivity. Qed.

Lemma page_inputs s : inputs (page s) = [v_relay_value (render s)].
Proof. page_cases s; reflexivity. Qed.

Lemma page_message s : styled messageStyle (page s) = opt_list (v_copy_message (render s)).
Proof. page_cases s; reflexivity. Qed.

Lemma page_hex_texts s :
  styled hexKeyTextStyle (page s) =
  match v_keys (render s) with Some kv => [kv_pk_hex kv; kv_sk_text kv] | None => [] end.
Proof. page_cases s; reflexivity. Qed.

Lemma page_nip_texts s :
  styled nipKeyTextStyle (page s) =
  match v_keys (render s) with Some kv => [kv_npub kv; kv_nsec_text kv] | None => [] end.
Proof. page_cases s; reflexivity. Qed.

#[export] Instance low_eq_equiv : Equivalence low_eq.
Proof. unfold low_eq. split; red; congruence. Qed.

Lemma keys_card_low k1 k2 sp : pk k1 = pk k2 -> npub k1 = npub k2 ->
  (sp = true -> sk k1 = sk k2 /\ nsec k1 = nsec k2) -> keys_card k1 sp = keys_card k2 sp.
Proof.
  intros Hp Hn Hs. unfold keys_card. rewrite Hp, Hn.
  destruct sp; [destruct (Hs eq_refl) as [-> ->]|]; reflexivity.
Qed.

(** The page only depends on [low]. *)
#[export] Instance page_low : Proper (low_eq ==> eq) page.
Proof.
  intros s1 s2 H. unfold low_eq, low in H. unfold page.
  injection H as Hsp Hr Hu Hm Hk. rewrite Hsp, Hr, Hu, Hm. rewrite Hsp in Hk.
  destruct (clientKeys s1) as [k1|], (clientKeys s2) as [k2|]; try discriminate; [|reflexivity].
  cbn in Hk. injection Hk as Hp Hn Hs.
  rewrite (keys_card_low k1 k2 (showPrivate s2)); [reflexivity|exact Hp|exact Hn|].
  intros Et. rewrite Et in Hs. injection Hs as ? ?. auto.
Qed.

(** C5: The masking is complete: while the private key is hidden, the page
    (every element, attribute and text) is the same for two stored key
    pairs with the same public key and npub, whatever their secret keys
    and nsec; the secret only reaches the page through the URI. *)
Theorem page_hides_secret s k1 k2 :
  showPrivate s = false -> pk k1 = pk k2 -> npub k1 = npub k2 ->
  page (set_clientKeys (Some k1) s) = page (set_clientKeys (Some k2) s).
Proof.
  intros Hs Hp Hn. apply page_low. unfold low_eq, low. cbn. rewrite Hs, Hp, Hn. reflexivity.
Qed.

Section Documentation.
Context {T : NostrTools} {L : NostrToolsLaws T}.

Lemma page_secret_doc s : walletConnectURI s <> [] -> In secret_doc (texts (page s)).
Proof.
  intros H. unfold page, uri_card. destruct (walletConnectURI s) as [|c u]; [congruence|].
  destruct (clientKeys s), (showPrivate s), (copyMessage s);
    lazy -[secret_doc]; repeat (first [left; reflexivity | right]).
Qed.

(** C23: The page contradicts itself: whenever it shows a URI, its "URI
    Details" say the [secret] parameter is the private key in hex, while
    the URI box it shows carries, as [secret], the comma-separated decimal
    bytes of the stored secret key, which are not its hex. *)
Theorem page_secret_doc_mismatch s : reachable s -> walletConnectURI s <> [] ->
  In secret_doc (texts (page s)) /\
  exists k, clientKeys s = Some k /\ styled uriBoxStyle (page s) = [walletConnectURI s] /\
    SearchParams.get (js "secret") (Reader.params_of (walletConnectURI s)) = Some (Uint8.toString (sk k)) /\
    Uint8.toString (sk k) <> Hex.bytesToHex (sk k).
Proof.
  intros Hr Hne. split; [apply page_secret_doc, Hne|].
  pose proof (AppFacts.reachable_inv s Hr) as Hinv.
  destruct (AppFacts.inv_uri_params s Hinv Hne) as (k & r & Ek & _ & Ep & _).
  exists k. split; [exact Ek|]. split.
  - rewrite page_uri_box. unfold render. cbn [v_uri]. destruct (walletConnectURI s); [congruence|reflexivity].
  - rewrite Ep. split; [reflexivity|].
    destruct (AppFacts.inv_sk_bytes s k Hinv Ek) as (Hl & Hb).
    apply WalletConnectFacts.toString_not_hex; [exact Hb|lia].
Qed.

(** C15: With the private key shown, its box and the Copy button next to it
    disagree: the box shows the bytes' decimals run together (React's text
    for the [Uint8Array]), the button writes them comma-separated
    ([String()]), and the two texts differ for every stored key. *)
Theorem page_sk_copy_differs s k e : reachable s -> clientKeys s = Some k -> showPrivate s = true ->
  styled hexKeyTextStyle (page s) = [pk k; Uint8.react_text (sk k)] /\
  pendingWrites (fst (handle s (Click (BtnCopy CopySk) e))) = pendingWrites s ++ [Uint8.toString (sk k)] /\
  Uint8.react_text (sk k) <> Uint8.toString (sk k).
Proof.
  intros Hr Ek Es. split; [|split].
  - rewrite page_hex_texts. unfold render, render_keys. rewrite Ek, Es. reflexivity.
  - cbn [handle fst]. unfold copy_click. rewrite Ek. reflexivity.
  - destruct (AppFacts.inv_sk_bytes s k (AppFacts.reachable_inv s Hr) Ek) as (Hl & Hb).
    intros Heq. apply (Uint8.react_text_no_comma (sk k) Hb). rewrite Heq.
    apply WalletConnectFacts.toString_comma. lia.
Qed.

End Documentation.

End PageFacts.

Module PageExamples.
Import App Page PageFacts.

Definition key_a : ClientKeys := mkClientKeys [1; 2] (js "ab") (js "npub1x") (js "nsec1a").
Definition key_b : ClientKeys := mkClientKeys [3; 4] (js "ab") (js "npub1x") (js "nsec1b").

Lemma page_hides_secret_witness :
  page (set_clientKeys (Some key_a) init) = page (set_clientKeys (Some key_b) init).
Proof. apply page_hides_secret; reflexivity. Defined.

(** With the private key shown, the two pages differ. *)
Example page_shows_secret_when_revealed :
  page (set_showPrivate true (set_clientKeys (Some key_a) init)) <>
  page (set_showPrivate true (set_clientKeys (Some key_b) init)).
Proof. vm_compute. discriminate. Qed.

End PageExamples.
