(* ===== verification/AppRuns.v ===== *)
(** The end of the component's asynchronous work: the clipboard writes
    the copy helper leaves in flight and its 2000 ms timers. Run to the end
    ([pending_events]), they leave nothing pending and the copy message
    cleared, and touch neither the keys, nor the relay, nor the URI. *)

From Stdlib Require Import ZArith List Lia Bool.
From S2P Require Import Prelude Bytes Utf8 UrlSearchParams WalletConnect NostrTools App.
Import ListNotations.
Open Scope Z_scope.
Open Scope nostr_scope.

Module AppRuns.
Import App AppFacts.

Section Runs.
Context {T : NostrTools} {L : NostrToolsLaws T}.


(** [n] clipboard writes settling, one after the other. *)
Lemma run_settles ok : forall l s, pendingWrites s = l ->
  let s' := run s (repeat (ClipboardSettles ok) (length l)) in
  pendingWrites s' = [] /\ pendingTimers s' = (pendingTimers s + length l)%nat /\
  clientKeys s' = clientKeys s /\ walletConnectURI s' = walletConnectURI s /\ relay s' = relay s.
Proof.
  induction l as [|t l IH]; intros s Hw; cbv zeta; cbn [length repeat run].
  - repeat split; auto; try lia.
  - assert (En : enabled s (ClipboardSettles ok) = true) by (cbn [enabled]; rewrite Hw; reflexivity).
    rewrite En. cbn [handle]. unfold settle. rewrite Hw. cbn [fst].
    match goal with |- context [run ?s1 _] =>
      destruct (IH s1 eq_refl) as (A1 & A2 & A3 & A4 & A5) end.
    cbn [pendingTimers clientKeys walletConnectURI relay] in A2, A3, A4, A5.
    repeat split; auto; try lia.
Qed.

(** [n] pending timers firing: the last one clears the message. *)
Lemma run_timers : forall n s, pendingTimers s = n ->
  let s' := run s (repeat TimerFires n) in
  pendingTimers s' = O /\ pendingWrites s' = pendingWrites s /\
  (n <> O -> copyMessage s' = []) /\ (n = O -> s' = s) /\
  clientKeys s' = clientKeys s /\ walletConnectURI s' = walletConnectURI s /\ relay s' = relay s.
Proof.
  induction n as [|n IH]; intros s Ht; cbv zeta; cbn [repeat run].
  - repeat split; auto. congruence.
  - assert (En : enabled s TimerFires = true) by (cbn [enabled]; rewrite Ht; reflexivity).
    rewrite En. cbn [handle fst]. unfold timer_fires. rewrite Ht.
    match goal with |- context [run ?s1 _] =>
      destruct (IH s1 eq_refl) as (A1 & A2 & A3 & A4 & A5 & A6 & A7) end.
    cbn [pendingWrites copyMessage clientKeys walletConnectURI relay] in *.
    repeat split; auto; try congruence.
    intros _. destruct n as [|n]; [rewrite A4 by reflexivity; reflexivity|]. apply A3. congruence.
Qed.


(** The events that finish the copy helper's pending work: every write in
    flight settles, then every timer (those pending and those the writes
    start) fires. *)
Definition pending_events (ok : bool) (s : state) : list event :=
  repeat (ClipboardSettles ok) (length (pendingWrites s)) ++
  repeat TimerFires (pendingTimers s + length (pendingWrites s)).

(** C20: The copy helper's asynchronous work ends: from any reachable state,
    once every clipboard write in flight has settled and every timer has
    fired, nothing is pending and the copy message is cleared, while the
    keys, the relay and the URI are as they were. *)
Theorem copy_work_terminates s ok : reachable s ->
  let s' := run s (pending_events ok s) in
  pendingWrites s' = [] /\ pendingTimers s' = O /\ copyMessage s' = [] /\
  clientKeys s' = clientKeys s /\ walletConnectURI s' = walletConnectURI s /\ relay s' = relay s.
Proof.
  intros Hr. cbv zeta. unfold pending_events. rewrite run_app.
  destruct (run_settles ok (pendingWrites s) s eq_refl) as (A1 & A2 & A3 & A4 & A5).
  cbv zeta in A1, A2, A3, A4, A5.
  set (s1 := run s (repeat (ClipboardSettles ok) (length (pendingWrites s)))) in *.
  destruct (run_timers _ s1 A2) as (B1 & B2 & B3 & B4 & B5 & B6 & B7).
  repeat split; try congruence.
  destruct (Nat.eq_dec (pendingTimers s + length (pendingWrites s)) 0) as [Z0|NZ]; [|auto].
  rewrite B4 by exact Z0. unfold s1.
  replace (length (pendingWrites s)) with O by lia. cbn [repeat run].
  destruct (reachable_inv s Hr) as (_ & _ & _ & Hm).
  destruct (copyMessage s) eqn:Em; [reflexivity|]. exfalso.
  specialize (Hm ltac:(congruence)). lia.
Qed.


End Runs.

End AppRuns.
