(* ===== verification/Clock.v ===== *)
(** The component under the browser's clock: [setTimeout(..., 2000)] of
    line 186 with its delay.

    [App] counts the pending timers and fires them by a [TimerFires]
    event, in the order they were set. Here the state also holds the
    current time [now] (milliseconds) and the deadline of each pending
    timer, in the order the timers were set; events are the component's
    own (a click, a key stroke, a clipboard write settling, all at the
    current time) and the passing of time, [Wait dt], which runs the
    callback of every timer due by [now + dt], in deadline order, before
    the clock reaches [now + dt]. A write settling at time [t] sets a timer
    due at [t + 2000].

    A timed step moves [App]'s state as [App.run] of the events [untimed]
    gives it, with one [TimerFires] per timer that comes due
    ([tstep_untimed]), so [App]'s timer counter stays the number of
    deadlines ([counted]); [treachable]
    states have their deadlines sorted, after [now] and at most 2000 ms
    ahead of it. From that, the copy message never stays more than 2000 ms
    ([message_gone_after_delay]), and the race of two copies is measured:
    a second copy [d] ms after the first keeps its message for only
    [2000 - d] ms ([timer_race_duration]). *)

From Stdlib Require Import ZArith List Lia Bool Sorting.Sorted.
From S2P Require Import Prelude Bytes Utf8 UrlSearchParams WalletConnect NostrTools App AppRuns.
Import ListNotations.
Open Scope Z_scope.
Open Scope nostr_scope.

Module Clock.
Import App.

Section Timed.
Context {T : NostrTools}.

(** The delay of line 186. *)
Definition delay : Z := 2000.

Record tstate := mkT {
  app : state;
  now : Z;
  deadlines : list Z }.

Definition tinit : tstate := mkT init 0 [].

Inductive tevent :=
| Act (e : event)
| Wait (dt : N).

(** The timer callbacks due by time [t], in deadline order. *)
Fixpoint fire_due (t : Z) (s : state) (ds : list Z) : state * list Z :=
  match ds with
  | d :: rest => if d <=? t then fire_due t (timer_fires s) rest else (s, ds)
  | [] => (s, [])
  end.

(** How many timers are due by time [t]. *)
Fixpoint ndue (t : Z) (ds : list Z) : nat :=
  match ds with
  | d :: rest => if d <=? t then S (ndue t rest) else O
  | [] => O
  end.

(** Lines 178-186 under the clock: an event of the component at [now]; a
    settling write sets a timer due [delay] ms later. Timers only fire by
    the passing of time. *)
Definition tstep (ts : tstate) (e : tevent) : tstate :=
  match e with
  | Act TimerFires => ts
  | Act e =>
      if enabled (app ts) e then
        mkT (fst (handle (app ts) e)) (now ts)
            (deadlines ts ++ match e with ClipboardSettles _ => [now ts + delay] | _ => [] end)
      else ts
  | Wait dt =>
      let t := now ts + Z.of_N dt in
      let (s, ds) := fire_due t (app ts) (deadlines ts) in
      mkT s t ds
  end.

Fixpoint trun (ts : tstate) (es : list tevent) : tstate :=
  match es with
  | [] => ts
  | e :: rest => trun (tstep ts e) rest
  end.

Inductive treachable : tstate -> Prop :=
| tr_init : treachable tinit
| tr_step ts e : treachable ts -> treachable (tstep ts e).

(** The events of [App] a timed event amounts to. *)
Definition untimed (ts : tstate) (e : tevent) : list event :=
  match e with
  | Act TimerFires => []
  | Act e => [e]
  | Wait dt => repeat TimerFires (ndue (now ts + Z.of_N dt) (deadlines ts))
  end.

(** The deadlines agree with [App]'s timer counter. *)
Definition counted (ts : tstate) : Prop := length (deadlines ts) = pendingTimers (app ts).

(** The well-formed timed states: reachable in [App], counted, deadlines
    sorted and within [(now, now + delay]]. *)
Definition twf (ts : tstate) : Prop :=
  reachable (app ts) /\ counted ts /\ StronglySorted Z.le (deadlines ts) /\
  Forall (fun d => now ts < d <= now ts + delay) (deadlines ts).

End Timed.

End Clock.

Module ClockFacts.
Import App AppFacts AppRuns Clock.

Section Laws.
Context {T : NostrTools} {L : NostrToolsLaws T}.

(** Firing the due timers is [App]'s [TimerFires], once per due timer. *)
Lemma fire_due_run t : forall ds s, length ds = pendingTimers s ->
  fst (fire_due t s ds) = run s (repeat TimerFires (ndue t ds)) /\
  snd (fire_due t s ds) = skipn (ndue t ds) ds /\
  length (snd (fire_due t s ds)) = pendingTimers (fst (fire_due t s ds)).
Proof.
  induction ds as [|d ds IH]; intros s Hl; cbn [fire_due ndue].
  - repeat split; auto.
  - destruct (d <=? t); [|repeat split; auto].
    assert (En : enabled s TimerFires = true) by (cbn [enabled]; rewrite <- Hl; reflexivity).
    cbn [repeat run skipn]. rewrite En. cbn [handle fst]. apply IH.
    unfold timer_fires. rewrite <- Hl. reflexivity.
Qed.

(** The timers an event of the component sets: one per settling write. *)
Lemma handle_timers s e : e <> TimerFires -> enabled s e = true ->
  pendingTimers (fst (handle s e)) =
  (pendingTimers s + match e with ClipboardSettles _ => 1 | _ => 0 end)%nat.
Proof.
  intros Hne En. destruct e as [[| |t|] ent|v|ok|]; cbn [handle fst].
  - destruct (generateClientKeys_cases ent s) as [->|(k & _ & ->)]; cbn; lia.
  - cbn. lia.
  - rewrite (proj2 (proj2 (proj2 (proj2 (copy_click_fields t s))))). lia.
  - destruct (generateWalletConnectURI_cases ent s) as [->|(k & u & _ & _ & _ & ->)]; cbn; lia.
  - cbn. lia.
  - cbn [enabled] in En. unfold settle. destruct (pendingWrites s); [discriminate|cbn; lia].
  - contradiction.
Qed.

Lemma tstep_untimed ts e : counted ts ->
  app (tstep ts e) = run (app ts) (untimed ts e) /\ counted (tstep ts e).
Proof.
  unfold counted. intros Hc. destruct e as [e|dt].
  - assert (D : e = TimerFires \/ e <> TimerFires)
      by (destruct e; [right; discriminate..|left; reflexivity]).
    destruct D as [->|Hne]; [split; [reflexivity|exact Hc]|].
    replace (tstep ts (Act e)) with
      (if enabled (app ts) e then
         mkT (fst (handle (app ts) e)) (now ts)
             (deadlines ts ++ match e with ClipboardSettles _ => [now ts + delay] | _ => [] end)
       else ts) by (destruct e; [reflexivity..|contradiction]).
    replace (untimed ts (Act e)) with [e] by (destruct e; [reflexivity..|contradiction]).
    cbn [run]. destruct (enabled (app ts) e) eqn:En; [|split; [reflexivity|exact Hc]].
    split; [reflexivity|]. cbn [deadlines app]. rewrite length_app, (handle_timers _ _ Hne En), Hc.
    destruct e; reflexivity.
  - cbn [tstep untimed].
    destruct (fire_due_run (now ts + Z.of_N dt) (deadlines ts) (app ts) Hc) as (E1 & _ & E3).
    destruct (fire_due _ _ _) as [s ds] eqn:E. cbn in E1, E3 |- *. split; [exact E1|exact E3].
Qed.

Lemma StronglySorted_snoc l x : StronglySorted Z.le l -> Forall (fun d => d <= x) l ->
  StronglySorted Z.le (l ++ [x]).
Proof.
  induction l as [|a l IH]; intros Hs Hf; cbn; [repeat constructor|].
  apply StronglySorted_inv in Hs as [Hs Ha]. inversion Hf; subst.
  constructor; [auto|]. apply Forall_app. split; [exact Ha|constructor; [assumption|constructor]].
Qed.

Lemma StronglySorted_skipn n : forall l, StronglySorted Z.le l -> StronglySorted Z.le (skipn n l).
Proof.
  induction n as [|n IH]; intros [|a l] Hs; cbn; auto using StronglySorted.
  apply IH. exact (proj1 (StronglySorted_inv Hs)).
Qed.

(** The timers left after time [t] are all due after [t]. *)
Lemma ndue_rest t : forall ds, StronglySorted Z.le ds -> Forall (fun d => t < d) (skipn (ndue t ds) ds).
Proof.
  induction ds as [|d ds IH]; intros Hs; cbn [ndue]; [constructor|].
  apply StronglySorted_inv in Hs as [Hs Hd].
  destruct (Z.leb_spec d t) as [Hle|Hgt]; [apply IH, Hs|].
  cbn [skipn]. constructor; [exact Hgt|]. eapply Forall_impl; [|exact Hd]. intros x Hx; cbn in Hx. lia.
Qed.

Lemma ndue_all t : forall ds, Forall (fun d => d <= t) ds -> ndue t ds = length ds.
Proof.
  induction ds as [|d ds IH]; intros Hf; [reflexivity|]. inversion Hf; subst. cbn [ndue length].
  rewrite (proj2 (Z.leb_le d t) ltac:(assumption)). f_equal. auto.
Qed.

Lemma Forall_skipn {A} (P : A -> Prop) n : forall l, Forall P l -> Forall P (skipn n l).
Proof. induction n as [|n IH]; intros [|a l] H; cbn; auto. inversion H; auto. Qed.

(** An event of the component keeps the clock and adds at most one
    deadline, [delay] ms ahead. *)
Lemma deadlines_act ts e :
  now (tstep ts (Act e)) = now ts /\
  (deadlines (tstep ts (Act e)) = deadlines ts \/
   deadlines (tstep ts (Act e)) = deadlines ts ++ [now ts + delay]).
Proof.
  destruct e; cbn [tstep]; try (split; [reflexivity|left; reflexivity]);
    destruct (enabled _ _); cbn; rewrite ?app_nil_r; auto.
Qed.

Lemma deadlines_wait ts dt :
  now (tstep ts (Wait dt)) = now ts + Z.of_N dt /\
  deadlines (tstep ts (Wait dt)) =
    snd (fire_due (now ts + Z.of_N dt) (app ts) (deadlines ts)).
Proof. cbn [tstep]. destruct (fire_due _ _ _); split; reflexivity. Qed.

Lemma twf_tstep ts e : twf ts -> twf (tstep ts e).
Proof.
  intros (Hr & Hc & Hs & Hb). destruct (tstep_untimed ts e Hc) as (E & Hc').
  split; [rewrite E; apply run_reachable, Hr|]. split; [exact Hc'|].
  destruct e as [e|dt].
  - destruct (deadlines_act ts e) as (-> & [->| ->]); [split; assumption|]. split.
    + apply StronglySorted_snoc; [exact Hs|]. eapply Forall_impl; [|exact Hb]. cbn. lia.
    + apply Forall_app. split; [exact Hb|]. unfold delay. repeat constructor; lia.
  - destruct (deadlines_wait ts dt) as (-> & ->).
    destruct (fire_due_run (now ts + Z.of_N dt) (deadlines ts) (app ts) Hc) as (_ & -> & _).
    split; [apply StronglySorted_skipn, Hs|].
    pose proof (ndue_rest (now ts + Z.of_N dt) _ Hs) as Hlo.
    pose proof (Forall_skipn _ (ndue (now ts + Z.of_N dt) (deadlines ts)) _ Hb) as Hhi.
    rewrite Forall_forall in Hlo, Hhi |- *. intros d Hd.
    specialize (Hlo d Hd). specialize (Hhi d Hd). cbn in Hhi. lia.
Qed.

Lemma treachable_twf ts : treachable ts -> twf ts.
Proof.
  induction 1 as [|ts e _ IH]; [|apply twf_tstep, IH].
  repeat split; [apply reach_init | constructor | constructor].
Qed.

Lemma trun_treachable ts es : treachable ts -> treachable (trun ts es).
Proof. revert ts; induction es as [|e es IH]; intros ts H; [exact H|]. apply IH. constructor; exact H. Qed.

(** C19: The copy message never outlives the delay: from any state under
    the clock, 2000 ms later every timer has fired, none is pending and the
    copy message is empty. *)
Theorem message_gone_after_delay ts : treachable ts ->
  let ts' := tstep ts (Wait 2000) in
  now ts' = now ts + 2000 /\ deadlines ts' = [] /\
  pendingTimers (app ts') = O /\ copyMessage (app ts') = [].
Proof.
  intros Hr. cbv zeta. destruct (treachable_twf ts Hr) as (Hreach & Hc & Hs & Hb).
  destruct (deadlines_wait ts 2000) as (En & Ed).
  destruct (tstep_untimed ts (Wait 2000) Hc) as (Ea & _).
  destruct (fire_due_run (now ts + Z.of_N 2000) (deadlines ts) (app ts) Hc) as (_ & Eskip & _).
  assert (Hall : ndue (now ts + Z.of_N 2000) (deadlines ts) = pendingTimers (app ts)).
  { rewrite ndue_all, Hc; [reflexivity|]. eapply Forall_impl; [|exact Hb]. cbn. unfold delay. lia. }
  cbn [untimed] in Ea. rewrite Hall in Ea, Eskip.
  destruct (run_timers (pendingTimers (app ts)) (app ts) eq_refl) as (A1 & _ & A3 & A4 & _).
  cbv zeta in A1, A3, A4. rewrite <- Ea in A1, A3, A4.
  split; [exact En|]. split; [rewrite Ed, Eskip, <- Hc; apply skipn_all|]. split; [exact A1|].
  destruct (Nat.eq_dec (pendingTimers (app ts)) 0) as [Z0|NZ]; [|exact (A3 NZ)].
  rewrite (A4 Z0). destruct (reachable_inv _ Hreach) as (_ & _ & _ & Hm).
  destruct (copyMessage (app ts)); [reflexivity|]. exfalso. specialize (Hm ltac:(discriminate)). lia.
Qed.

(** C17: The race of two copies, measured: when two clipboard writes settle
    [d] ms apart (0 < d < 2000), the first copy's timer erases the
    "Copied to clipboard!" of the second at the first copy's time plus
    2000 ms, so the second message is shown for [2000 - d] ms only, while
    its own timer is still pending. *)
Theorem timer_race_duration ts a b d : treachable ts -> pendingWrites (app ts) = [a; b] ->
  deadlines ts = [] -> (0 < d < 2000)%N ->
  let ts1 := trun ts [Act (ClipboardSettles true); Wait d; Act (ClipboardSettles true)] in
  let ts2 := tstep ts1 (Wait (2000 - d)) in
  copyMessage (app ts1) = js "Copied to clipboard!" /\
  deadlines ts1 = [now ts + 2000; now ts + Z.of_N d + 2000] /\
  copyMessage (app ts2) = [] /\ deadlines ts2 = [now ts + Z.of_N d + 2000] /\
  now ts2 = now ts + 2000.
Proof.
  intros Hr Hw Hd Hdr. destruct (treachable_twf _ Hr) as (_ & Hc & _).
  unfold counted in Hc. rewrite Hd in Hc. cbn in Hc.
  destruct ts as [s n ds]. cbn [app deadlines now] in *. subst ds. cbv zeta.
  set (msg := js "Copied to clipboard!").
  set (s1 := mkState (clientKeys s) (showPrivate s) (relay s) (walletConnectURI s) msg [b] 1 a).
  set (s2 := mkState (clientKeys s) (showPrivate s) (relay s) (walletConnectURI s) msg [] 2 b).
  assert (E1 : tstep (mkT s n []) (Act (ClipboardSettles true)) = mkT s1 n [n + 2000]).
  { cbn [tstep app]. cbn [enabled]. rewrite Hw. cbn [handle fst]. unfold settle. rewrite Hw, <- Hc.
    reflexivity. }
  assert (E2 : tstep (mkT s1 n [n + 2000]) (Wait d) = mkT s1 (n + Z.of_N d) [n + 2000]).
  { unfold tstep. cbn [fire_due app now deadlines].
    replace (n + 2000 <=? n + Z.of_N d) with false by (symmetry; apply Z.leb_gt; lia). reflexivity. }
  assert (E3 : tstep (mkT s1 (n + Z.of_N d) [n + 2000]) (Act (ClipboardSettles true)) =
               mkT s2 (n + Z.of_N d) [n + 2000; n + Z.of_N d + 2000]).
  { reflexivity. }
  change (trun (mkT s n []) [Act (ClipboardSettles true); Wait d; Act (ClipboardSettles true)])
    with (tstep (tstep (tstep (mkT s n []) (Act (ClipboardSettles true))) (Wait d))
                (Act (ClipboardSettles true))).
  rewrite E1, E2, E3. unfold tstep. cbn [fire_due app now deadlines].
  replace (n + Z.of_N d + Z.of_N (2000 - d)) with (n + 2000) by lia.
  rewrite (proj2 (Z.leb_le (n + 2000) (n + 2000)) ltac:(lia)).
  replace (n + Z.of_N d + 2000 <=? n + 2000) with false by (symmetry; apply Z.leb_gt; lia).
  repeat split; reflexivity.
Qed.

End Laws.

End ClockFacts.
