(* ===== verification/Spec.v ===== *)
(** The abstract specification of [spec.md], sections 4, 7 and 9: a
    session that owns the client secret key (section 9: "the client
    KeyPair is a value owned by the caller's session context"), the relay
    address the caller supplies, and the last ConnectionURI, seen as what a
    consumer reads from it: its authority and its query parameters.

    The operations are [generate] (section 4.1, with [RandomSourceUnavailable]
    as its only error), setting the relay, and [buildURI] (section 4.2:
    [MissingClientKey], [MissingRelay], a fresh service key per call, and a
    query of exactly [relay] then [secret]). Errors leave the session as
    it was (section 7). A URI is for the current key pair: generating a new
    one discards it. The relay in the query is the relay as a USVString,
    the text a standard URI decoder returns.

    The section's parameters are what the specification leaves open: the
    key generator, the service-key draw, and how the secret key is written
    in the query (hex, says the spec). Copying and revealing are UI-only
    (section 9) and are not operations of the specification. *)

From Stdlib Require Import ZArith List Lia Bool.
From S2P Require Import Prelude Utf8.
Import ListNotations.
Open Scope Z_scope.
Open Scope nostr_scope.

Module Spec.

(** Section 7's error kinds, without [InvalidKeyLength] (an [encode]
    error, not one of the session's). *)
Inductive error := MissingClientKey | MissingRelay | RandomSourceUnavailable.

(** A ConnectionURI as a consumer reads it. *)
Record uri_value := mkURI {
  authority : jsstring;
  query : list (list Z * list Z) }.

Record astate := mkAState {
  a_secret : option (list Z);
  a_relay : jsstring;
  a_uri : option uri_value }.

Definition ainit : astate := mkAState None [] None.

Inductive op :=
| Generate (entropy : option (list Z))
| SetRelay (v : jsstring)
| BuildURI (entropy : option (list Z)).

Section Ops.
Variable generate : option (list Z) -> throws (list Z).
Variable serviceKey : option (list Z) -> throws jsstring.
Variable encodeSecret : list Z -> jsstring.

(** [buildURI(clientSecretKey, relayAddress)] of section 4.2. *)
Definition buildURI (secret : option (list Z)) (relay : jsstring) (entropy : option (list Z))
  : error + uri_value :=
  match secret with
  | None => inl MissingClientKey
  | Some sk =>
      match relay with
      | [] => inl MissingRelay
      | _ =>
          match serviceKey entropy with
          | Ret pk => inr (mkURI pk [(js "relay", Utf16.to_usv relay); (js "secret", encodeSecret sk)])
          | Throw _ => inl RandomSourceUnavailable
          end
      end
  end.

(** One operation of the session: the new session and the error reported. *)
Definition astep (a : astate) (o : op) : astate * option error :=
  match o with
  | Generate e =>
      match generate e with
      | Ret sk => (mkAState (Some sk) (a_relay a) None, None)
      | Throw _ => (a, Some RandomSourceUnavailable)
      end
  | SetRelay v => (mkAState (a_secret a) v (a_uri a), None)
  | BuildURI e =>
      match buildURI (a_secret a) (a_relay a) e with
      | inl err => (a, Some err)
      | inr u => (mkAState (a_secret a) (a_relay a) (Some u), None)
      end
  end.

Fixpoint arun (a : astate) (os : list op) : astate :=
  match os with
  | [] => a
  | o :: rest => arun (fst (astep a o)) rest
  end.

End Ops.

End Spec.
