(* ===== verification/Refinement.v ===== *)
(** The component refines the abstract specification [Spec]. As in a
    refinement by decomposition, there is a map of states ([abs]: the
    secret key of the stored key pair, the relay, the shown URI as a
    consumer reads it) and a map of events ([ev_op]): the two generate
    buttons and the relay input are the specification's operations,
    everything else (copying, the toggle, clipboard writes settling, timers)
    maps to no operation and must leave the abstract state alone. The
    effects map to the specification's errors ([report]): the two alerts
    are [MissingClientKey] and [MissingRelay], the two logged exceptions
    are [RandomSourceUnavailable].

    The specification is instantiated with the component's own choices:
    the key generator is the whole [try] block of [generateClientKeys], the
    service key is lines 157-158, and the secret is written with
    [Uint8.toString] ([String()] of the [Uint8Array]). With the spec's hex
    the refinement fails (see [Main.Session.hex_spec_not_refined]). The
    relay guard of the code trims, the specification's does not: the
    refinement holds for relays that are empty or not blank. *)

From Stdlib Require Import ZArith List Lia Bool.
From S2P Require Import Prelude Bytes Utf8 UrlSearchParams WalletConnect NostrTools App Spec.
Import ListNotations.
Open Scope Z_scope.
Open Scope nostr_scope.

Module Refinement.
Import App AppFacts Spec.

Section Refines.
Context {T : NostrTools} {L : NostrToolsLaws T}.

(** The specification's generator: the [try] block of lines 129-134. *)
Definition spec_generate (e : option (list Z)) : throws (list Z) :=
  k <- make_client_keys e ;; Ret (sk k).

(** The service key of lines 157-158. *)
Definition spec_serviceKey (e : option (list Z)) : throws jsstring :=
  bsk <- generateSecretKey e ;; getPublicKey bsk.

Definition spec_step : astate -> op -> astate * option error :=
  astep spec_generate spec_serviceKey Uint8.toString.

Definition spec_run : astate -> list op -> astate :=
  arun spec_generate spec_serviceKey Uint8.toString.

(** The map of states. *)
Definition abs (s : state) : astate :=
  mkAState (option_map sk (clientKeys s)) (relay s)
    (match walletConnectURI s with
     | [] => None
     | u => Some (mkURI (Reader.authority_of u) (Reader.params_of u))
     end).

(** The map of events. *)
Definition ev_op (e : event) : option op :=
  match e with
  | Click BtnGenerateKeys ent => Some (Generate ent)
  | Click BtnGenerateURI ent => Some (BuildURI ent)
  | TypeRelay v => Some (SetRelay v)
  | _ => None
  end.

Definition msg_eqb (a b : jsstring) : bool := if list_eq_dec Z.eq_dec a b then true else false.

(** The map of effects to the specification's errors. *)
Definition report (effs : list effect) : option error :=
  match effs with
  | [Alert m] =>
      if msg_eqb m (js "Please generate your client Nostr keys first!") then Some MissingClientKey
      else if msg_eqb m (js "Relay URL is required!") then Some MissingRelay
      else None
  | [ConsoleError m _] =>
      if msg_eqb m (js "Error generating client keys:") ||
         msg_eqb m (js "Error generating Wallet Connect URI:")
      then Some RandomSourceUnavailable else None
  | _ => None
  end.

(** A relay that trims to nothing is empty: where the code's guard and the
    specification's agree. *)
Definition relay_ok (r : jsstring) : Prop := Js.trim r = [] -> r = [].

(** The specification's operations a list of events performs: the relay
    input only takes JS strings. *)
Definition ops_of (es : list event) : list op :=
  flat_map (fun e =>
              match e with
              | TypeRelay v => if forallb WalletConnectFacts.code_unitb v then [SetRelay v] else []
              | _ => match ev_op e with Some o => [o] | None => [] end
              end) es.

Definition typed_ok (e : event) : Prop :=
  match e with TypeRelay v => relay_ok v | _ => True end.

Lemma handle_relay s e :
  relay (fst (handle s e)) = match e with TypeRelay v => v | _ => relay s end.
Proof.
  destruct e as [[| |t|] ent|v|ok|]; cbn [handle fst].
  - destruct (generateClientKeys_cases ent s) as [->|(k & _ & ->)]; reflexivity.
  - reflexivity.
  - apply copy_click_fields.
  - destruct (generateWalletConnectURI_cases ent s) as [->|(k & u & _ & _ & _ & ->)]; reflexivity.
  - reflexivity.
  - unfold settle. destruct (pendingWrites s); reflexivity.
  - unfold timer_fires. destruct (pendingTimers s); reflexivity.
Qed.

Lemma make_uri_service ent k r : make_uri ent k r =
  match spec_serviceKey ent with
  | Ret pk => Ret (WalletConnect.build_uri pk r (sk k))
  | Throw x => Throw x
  end.
Proof.
  unfold make_uri, spec_serviceKey. destruct (generateSecretKey ent) as [b|]; [|reflexivity].
  cbn [throws_bind]. destruct (getPublicKey b); reflexivity.
Qed.

Lemma serviceKey_no_query ent pk : spec_serviceKey ent = Ret pk -> ~ In 0x3F pk.
Proof.
  unfold spec_serviceKey. intros H. apply throws_bind_Ret_inv in H as (b & _ & H).
  apply lower_hex_no_query, (publicKey_hex b pk H).
Qed.

Lemma build_uri_not_nil pk r sk : WalletConnect.build_uri pk r sk <> [].
Proof.
  unfold WalletConnect.build_uri. cbv zeta. intros H.
  apply app_eq_nil in H as [H _]. apply app_eq_nil in H as [H _]. discriminate.
Qed.

Lemma abs_set_uri s u : u <> [] ->
  abs (set_walletConnectURI u s) =
  mkAState (option_map sk (clientKeys s)) (relay s)
           (Some (mkURI (Reader.authority_of u) (Reader.params_of u))).
Proof. intros Hu. unfold abs. cbn. destruct u; [congruence|reflexivity]. Qed.

(** The URI button against [buildURI]. *)
Lemma generateWalletConnectURI_refines ent s : inv s -> relay_ok (relay s) ->
  (abs (fst (generateWalletConnectURI ent s)), report (snd (generateWalletConnectURI ent s))) =
  spec_step (abs s) (BuildURI ent).
Proof.
  intros Hinv Hrel. pose proof Hinv as (_ & _ & Hr & _).
  unfold generateWalletConnectURI, spec_step, astep, buildURI. cbn [a_secret a_relay abs].
  destruct (clientKeys s) as [k|] eqn:Ek; [|reflexivity]. cbn [option_map].
  destruct (Js.trim (relay s)) as [|c cs] eqn:Et; [rewrite (Hrel Et); reflexivity|].
  destruct (relay s) as [|c' r'] eqn:Er; [discriminate|]. rewrite <- Er in *.
  rewrite make_uri_service. destruct (spec_serviceKey ent) as [pk|x] eqn:Es; [|reflexivity].
  destruct (inv_sk_bytes s k Hinv Ek) as (_ & Hb).
  cbn [fst snd]. rewrite abs_set_uri by apply build_uri_not_nil. rewrite Ek.
  rewrite WalletConnectFacts.build_uri_authority, WalletConnectFacts.build_uri_params
    by (try apply (serviceKey_no_query ent); assumption).
  reflexivity.
Qed.

(** Each event of an invariant state is the specification's operation it
    maps to, or leaves the abstract state alone and reports nothing. *)
Lemma handle_refines s e : inv s -> relay_ok (relay s) ->
  match ev_op e with
  | Some o => (abs (fst (handle s e)), report (snd (handle s e))) = spec_step (abs s) o
  | None => abs (fst (handle s e)) = abs s /\ report (snd (handle s e)) = None
  end.
Proof.
  intros Hinv Hrel. destruct e as [[| |t|] ent|v|ok|]; cbn [ev_op handle fst snd].
  - unfold generateClientKeys, spec_step, astep, spec_generate.
    destruct (make_client_keys ent); reflexivity.
  - split; reflexivity.
  - destruct (copy_click_fields t s) as (E1 & E2 & E3 & _).
    unfold abs. rewrite E1, E2, E3. split; reflexivity.
  - apply generateWalletConnectURI_refines; assumption.
  - reflexivity.
  - unfold settle. destruct (pendingWrites s); [split; reflexivity|].
    destruct ok; split; reflexivity.
  - unfold timer_fires. destruct (pendingTimers s); split; reflexivity.
Qed.

Lemma arun_app a os1 os2 : spec_run a (os1 ++ os2) = spec_run (spec_run a os1) os2.
Proof. revert a; induction os1 as [|o os IH]; intros a; [reflexivity|]. apply IH. Qed.

Lemma enabled_generate s ent :
  enabled s (Click BtnGenerateKeys ent) = true /\ enabled s (Click BtnGenerateURI ent) = true.
Proof.
  unfold enabled, render. cbn [v_buttons].
  destruct (clientKeys s), (walletConnectURI s); split; reflexivity.
Qed.

Lemma spec_run_single a o : spec_run a [o] = fst (spec_step a o).
Proof. reflexivity. Qed.

(** One event of the run against the operations it maps to. *)
Lemma run1_refines s e : reachable s -> relay_ok (relay s) -> typed_ok e ->
  let s' := if enabled s e then fst (handle s e) else s in
  abs s' = spec_run (abs s) (ops_of [e]) /\ reachable s' /\ relay_ok (relay s').
Proof.
  intros Hr Hrel He. cbv zeta.
  pose proof (handle_refines s e (reachable_inv s Hr) Hrel) as Href.
  assert (Hnext : enabled s e = true ->
            reachable (fst (handle s e)) /\ relay_ok (relay (fst (handle s e)))).
  { intros En. split; [eapply reach_step; [exact Hr|constructor; exact En]|].
    rewrite handle_relay. destruct e; auto. }
  split; [|destruct (enabled s e); [apply Hnext; reflexivity|auto]].
  unfold ops_of. cbn [flat_map]. rewrite app_nil_r.
  destruct e as [[| |t|] ent|v|ok|]; cbn [ev_op] in Href |- *.
  - rewrite (proj1 (enabled_generate s ent)), spec_run_single, <- Href. reflexivity.
  - destruct (enabled s _); [apply Href|reflexivity].
  - destruct (enabled s _); [apply Href|reflexivity].
  - rewrite (proj2 (enabled_generate s ent)), spec_run_single, <- Href. reflexivity.
  - cbn [enabled]. destruct (forallb _ v); [|reflexivity].
    rewrite spec_run_single, <- Href. reflexivity.
  - destruct (enabled s _); [apply Href|reflexivity].
  - destruct (enabled s _); [apply Href|reflexivity].
Qed.

(** C3: The component refines the specification: from any reachable state
    whose relay is empty or not blank, running a list of events (typing no
    blank relay) leaves the abstract state that the specification's
    operations for those events produce: the stored secret, the relay and
    the URI a consumer reads are those of [generate], [buildURI] and the
    relay updates, whatever copying, toggling, clipboard writes and timers
    happen in between. *)
Theorem run_refines s es : reachable s -> relay_ok (relay s) -> Forall typed_ok es ->
  abs (run s es) = spec_run (abs s) (ops_of es).
Proof.
  revert s. induction es as [|e es IH]; intros s Hr Hrel Hes; [reflexivity|].
  apply Forall_cons_iff in Hes as [He Hes].
  destruct (run1_refines s e Hr Hrel He) as (E & Hr' & Hrel').
  change (e :: es) with ([e] ++ es). unfold ops_of at 1. rewrite flat_map_app, arun_app.
  fold (ops_of [e]) (ops_of es). rewrite <- E. cbn [run]. apply IH; assumption.
Qed.

End Refines.

End Refinement.
