(* ===== verification/Main.v ===== *)
(** The component over the modelled nostr-tools: the instance
    [Main.nostr_tools] of the interface [NostrTools] built from
    [Secp256k1] and [Bech32] ([nip19]), with its laws; the properties of
    the component that depend on these collaborators ([MainFacts]); and a
    concrete session ([Session]) with the random source returning zero
    bytes, so that the secret key is 1 and the public key the generator's x
    coordinate: its URI, the spec's error scenarios, and the witnesses of
    the component's theorems, evaluated by [vm_compute]. *)

From Stdlib Require Import ZArith List Lia Bool.
From S2P Require Import Prelude Styles Bytes Bech32 Utf8 UrlSearchParams WalletConnect Secp256k1.
From S2P Require Import NostrTools App Page AppRuns Clock Spec Refinement.
Import ListNotations.
Open Scope Z_scope.
Open Scope nostr_scope.

Module Main.

#[export] Instance nostr_tools : NostrTools := {|
  generateSecretKey := Secp256k1.generateSecretKey;
  getPublicKey := Secp256k1.getPublicKey;
  npubEncode := Nip19.npubEncode;
  nsecEncode := Nip19.nsecEncode |}.

#[export] Instance nostr_tools_laws : NostrToolsLaws nostr_tools.
Proof.
  constructor.
  - intros e sk H. apply Secp256k1Facts.generateSecretKey_bytes in H. tauto.
  - exact Secp256k1Facts.getPublicKey_hex.
Qed.

End Main.

Module MainFacts.
Import App AppFacts Main Bech32.

(** A NIP-19 encoding of 32 bytes under a four-letter prefix: the prefix,
    ['1'] and 58 letters. *)
Lemma encodeBytes_32 prefix b s :
  prefix <> [] -> (length prefix <= 10)%nat -> toLowerCase prefix = prefix ->
  forallb printable prefix = true -> Forall is_byte b -> length b = 32%nat ->
  Nip19.encodeBytes prefix b = Ret s -> exists d, s = prefix ++ js "1" ++ d /\ length d = 58%nat.
Proof.
  intros H1 H2 H3 H4 Hb Hl E.
  destruct (Bech32Facts.encodeBytes_ok prefix b H1 H2 H3 H4 Hb ltac:(lia)) as (d & E' & L & _).
  rewrite E in E'. injection E' as ->. exists d. split; [reflexivity|]. rewrite Hl in L. cbn in L. lia.
Qed.

(** The four calls behind a stored key pair, over the modelled nostr-tools. *)
Lemma stored_keys_calls s k : @reachable nostr_tools s -> clientKeys s = Some k ->
  (exists ent, Secp256k1.generateSecretKey ent = Ret (sk k)) /\
  Secp256k1.getPublicKey (sk k) = Ret (pk k) /\
  Nip19.npubEncode (pk k) = Ret (npub k) /\ Nip19.encodeBytes (js "nsec") (sk k) = Ret (nsec k).
Proof.
  intros Hr Ek. destruct (reachable_inv s Hr) as (Hk & _). unfold keys_inv in Hk.
  rewrite Ek in Hk. exact Hk.
Qed.

(** C7: In every reachable state of the component running over the modelled
    nostr-tools, the stored key pair is well formed: a 32-byte secret key
    of value in [1, n-1], a 64-character public key, and the two NIP-19
    strings ["npub1..."] and ["nsec1..."] of 63 characters each. *)
Theorem stored_keys_format s k : @reachable nostr_tools s -> clientKeys s = Some k ->
  length (sk k) = 32%nat /\ 1 <= Hex.bytesToNumberBE (sk k) <= Secp256k1.N - 1 /\
  length (pk k) = 64%nat /\
  (exists d, npub k = js "npub1" ++ d /\ length d = 58%nat) /\
  (exists d, nsec k = js "nsec1" ++ d /\ length d = 58%nat).
Proof.
  intros Hr Ek. destruct (stored_keys_calls s k Hr Ek) as ((ent & Hgen) & Hpk & Hnpub & Hnsec).
  destruct (Secp256k1Facts.generateSecretKey_bytes ent (sk k) Hgen) as (Hl & Hb & Hv).
  destruct (Secp256k1Facts.getPublicKey_hex _ _ Hpk) as (Hpl & Hpx).
  unfold Nip19.npubEncode in Hnpub.
  destruct (Hex.hexToBytes_lower (pk k) 32 Hpx Hpl) as (b & Eb & Lb & Fb).
  rewrite Eb in Hnpub. cbn [throws_bind] in Hnpub.
  repeat split; auto; try lia.
  - eapply encodeBytes_32 in Hnpub; try (cbn; congruence || lia); auto.
  - eapply encodeBytes_32 in Hnsec; try (cbn; congruence || lia); auto.
Qed.

(** C11: The key draw of lines 130 and 157 on 48 random bytes: a 32-byte key of
    value in [1, n-1], which noble's private-key check accepts. *)
Theorem secret_key_call e : length e = 48%nat -> Forall is_byte e ->
  exists sk, @generateSecretKey nostr_tools (Some e) = Ret sk /\ length sk = 32%nat /\
    1 <= Hex.bytesToNumberBE sk <= Secp256k1.N - 1 /\
    Secp256k1.normPrivateKeyToScalar sk = Ret (Hex.bytesToNumberBE sk).
Proof.
  intros Hl Hb. destruct (Secp256k1Facts.generateSecretKey_range e Hl Hb) as (sk & E & L & _ & V).
  exists sk. split; [exact E|]. split; [exact L|]. split; [exact V|].
  apply (Secp256k1Facts.generated_key_valid e); assumption.
Qed.

(** C12: Line 132 never throws on what line 131 returns: the npub of a public
    key is ["npub1"] and 58 letters of the bech32 alphabet. *)
Theorem npub_call_format sk pk : @getPublicKey nostr_tools sk = Ret pk ->
  exists d, @npubEncode nostr_tools pk = Ret (js "npub1" ++ d) /\ length d = 58%nat /\
    Forall Bech32Facts.in_alphabet d.
Proof.
  intros H. destruct (Secp256k1Facts.getPublicKey_hex sk pk H) as [Hl Hx].
  apply Nip19Facts.npubEncode_format; assumption.
Qed.

(** C13: The [nsecEncode] of line 133 checks no length: every byte array of up
    to 3000 bytes is encoded, as ["nsec1"] and [ceil(8n/5) + 6] letters. *)
Theorem nsec_call_any_length key : Forall is_byte key -> (length key <= 3000)%nat ->
  exists d, @nsecEncode nostr_tools key = Ret (js "nsec1" ++ d) /\
    Z.of_nat (length d) = (8 * Z.of_nat (length key) + 4) / 5 + 6.
Proof.
  intros Hb Hl. destruct (Nip19Facts.nsecEncode_any_length key Hb Hl) as (d & E & L & _).
  exists d. auto.
Qed.

(** C8: The stored NIP-19 strings decode to the stored keys (spec section 8's
    round trip): the nsec to the secret key's bytes, the npub to the bytes
    whose hex is the stored public key; each with its role prefix. *)
Theorem stored_keys_decode s k : @reachable nostr_tools s -> clientKeys s = Some k ->
  Nip19.decodeBytes (nsec k) = Ret (js "nsec", sk k) /\
  exists b, Nip19.decodeBytes (npub k) = Ret (js "npub", b) /\ Hex.bytesToHex b = pk k.
Proof.
  intros Hr Ek. destruct (stored_keys_calls s k Hr Ek) as ((ent & Hgen) & Hpk & Hnpub & Hnsec).
  destruct (Secp256k1Facts.generateSecretKey_bytes ent (sk k) Hgen) as (Hl & Hb & _).
  destruct (Secp256k1Facts.getPublicKey_bytes _ _ Hpk) as (bs & Hbl & Hbs & Epk).
  unfold Nip19.npubEncode in Hnpub. rewrite Epk, Hex.hexToBytes_bytesToHex in Hnpub by exact Hbs.
  cbn [throws_bind] in Hnpub. unfold Secp256k1.fieldLen in Hl, Hbl.
  split; [|exists bs; split; [|symmetry; exact Epk]];
    (eapply Bech32Facts.decodeBytes_encodeBytes; [..|eassumption]);
    try (cbn; congruence || lia); try not_in_lit; auto.
Qed.

End MainFacts.

(** A session in the browser, with the secure random source returning
    zero bytes: the secret key is then [0 mod (n - 1) + 1 = 1], whose public
    key is the generator's x coordinate, and the service key is the same. *)
Module Session.
Import App AppFacts Main.

Definition zeros : list Z := repeat 0 48.
Definition sk1 : list Z := repeat 0 31 ++ [1].
Definition pk1 : jsstring := js "79be667ef9dcbbac55a06295ce870b07029bfcdb2dce28d959f2815b16f81798".
Definition keys1 : ClientKeys :=
  mkClientKeys sk1 pk1
    (js "npub10xlxvlhemja6c4dqv22uapctqupfhlxm9h8z3k2e72q4k9hcz7vqpkge6d")
    (js "nsec1qqqqqqqqqqqqqqqqqqqqqqqqqqqqqqqqqqqqqqqqqqqqqqqqqqqsmhltgl").
Definition relay1 : jsstring := js "wss://relay.example.com".

Definition s_keys : state := run init [Click BtnGenerateKeys (Some zeros)].
Definition s_uri : state :=
  run init [Click BtnGenerateKeys (Some zeros); TypeRelay relay1; Click BtnGenerateURI (Some zeros)].
Definition s_copied : state :=
  run init [Click BtnGenerateKeys (Some zeros); Click (BtnCopy CopyPk) None; ClipboardSettles true].
Definition s_two_copies : state :=
  run init [Click BtnGenerateKeys (Some zeros); Click (BtnCopy CopyPk) None;
            Click (BtnCopy CopyNpub) None].
Definition s_shown : state :=
  run init [Click BtnGenerateKeys (Some zeros); Click BtnTogglePrivate None].

Lemma session_reachable es : reachable (run init es).
Proof. apply run_reachable, reach_init. Qed.

Ltac reach := match goal with |- reachable ?s => unfold s; apply session_reachable end.

Example s_keys_keys : clientKeys s_keys = Some keys1.
Proof. vm_compute. reflexivity. Qed.

(** The URI of the session, the secret as comma-separated decimals. *)
Example s_uri_text :
  walletConnectURI s_uri =
  js "nostr+walletconnect://79be667ef9dcbbac55a06295ce870b07029bfcdb2dce28d959f2815b16f81798?relay=wss%3A%2F%2Frelay.example.com&secret=0%2C0%2C0%2C0%2C0%2C0%2C0%2C0%2C0%2C0%2C0%2C0%2C0%2C0%2C0%2C0%2C0%2C0%2C0%2C0%2C0%2C0%2C0%2C0%2C0%2C0%2C0%2C0%2C0%2C0%2C0%2C1".
Proof. vm_compute. reflexivity. Qed.

(** Editing the relay afterwards leaves the URI with the old relay. *)
Example stale_relay_after_edit :
  walletConnectURI (run s_uri [TypeRelay (js "wss://other.example.org")]) = walletConnectURI s_uri.
Proof. vm_compute. reflexivity. Qed.

(** The spec's error scenarios, from the initial state. *)
Example uri_before_keys :
  handle init (Click BtnGenerateURI (Some zeros)) =
  (init, [Alert (js "Please generate your client Nostr keys first!")]).
Proof. reflexivity. Qed.

Example keys_without_random_source :
  handle init (Click BtnGenerateKeys None) =
    (init, [ConsoleError (js "Error generating client keys:") ExnRandomSourceUnavailable]).
Proof. reflexivity. Qed.

Lemma uri_embeds_current_secret_witness :
  exists k r, clientKeys s_uri = Some k /\ Js.trim r <> [] /\
    Reader.params_of (walletConnectURI s_uri) =
      [(js "relay", Utf16.to_usv r); (js "secret", Uint8.toString (sk k))] /\
    length (Reader.authority_of (walletConnectURI s_uri)) = 64%nat.
Proof.
  apply uri_embeds_current_secret; [reach | vm_compute; discriminate].
Defined.

Lemma client_keys_derived_witness :
  getPublicKey (sk keys1) = Ret (pk keys1) /\ npubEncode (pk keys1) = Ret (npub keys1) /\
  nsecEncode (sk keys1) = Ret (nsec keys1) /\ length (sk keys1) = 32%nat.
Proof.
  apply (client_keys_derived s_keys); [reach | vm_compute; reflexivity].
Defined.

Lemma copy_message_cleared_witness :
  enabled s_copied TimerFires = true /\ copyMessage (fst (handle s_copied TimerFires)) = [].
Proof.
  apply copy_message_cleared; [reach | vm_compute; discriminate].
Defined.

Lemma copy_timer_race_witness :
  let s' := run s_two_copies [ClipboardSettles true; ClipboardSettles true; TimerFires] in
  copyMessage s' = [] /\ pendingTimers s' = S (pendingTimers s_two_copies) /\
  clipboard s' = npub keys1.
Proof. apply (copy_timer_race s_two_copies pk1). vm_compute. reflexivity. Defined.

Lemma copy_secret_clipboard_witness :
  clipboard (run s_keys [Click (BtnCopy CopySk) None; ClipboardSettles true]) = Uint8.toString sk1.
Proof. apply (copy_secret_clipboard s_keys keys1 None); vm_compute; reflexivity. Defined.

Lemma render_masks_secret_witness :
  v_keys (render s_keys) = Some (mkKeyView pk1 (npub keys1) mask mask (js "Show")).
Proof. apply (render_masks_secret s_keys keys1); vm_compute; reflexivity. Defined.

Lemma render_uri_exposes_secret_witness :
  exists k u, clientKeys s_uri = Some k /\ v_uri (render s_uri) = Some u /\
    SearchParams.get (js "secret") (Reader.params_of u) = Some (Uint8.toString (sk k)).
Proof.
  apply render_uri_exposes_secret; [reach | vm_compute; discriminate].
Defined.

Lemma copy_message_hidden_without_uri_witness : v_copy_message (render s_copied) = None.
Proof. apply copy_message_hidden_without_uri. vm_compute. reflexivity. Defined.

Lemma generateWalletConnectURI_errors_witness :
  handle s_keys (Click BtnGenerateURI (Some zeros)) = (s_keys, [Alert (js "Relay URL is required!")]).
Proof.
  apply (proj1 (proj2 (generateWalletConnectURI_errors (Some zeros) s_keys)) keys1);
    vm_compute; reflexivity.
Defined.

Lemma stored_keys_format_witness :
  length (sk keys1) = 32%nat /\ 1 <= Hex.bytesToNumberBE (sk keys1) <= Secp256k1.N - 1 /\
  length (pk keys1) = 64%nat /\
  (exists d, npub keys1 = js "npub1" ++ d /\ length d = 58%nat) /\
  (exists d, nsec keys1 = js "nsec1" ++ d /\ length d = 58%nat).
Proof. apply (MainFacts.stored_keys_format s_keys); [reach | vm_compute; reflexivity]. Defined.

Lemma secret_key_call_witness :
  exists sk, generateSecretKey (Some zeros) = Ret sk /\ length sk = 32%nat /\
    1 <= Hex.bytesToNumberBE sk <= Secp256k1.N - 1 /\
    Secp256k1.normPrivateKeyToScalar sk = Ret (Hex.bytesToNumberBE sk).
Proof. apply MainFacts.secret_key_call; [reflexivity | apply bytes_check; reflexivity]. Defined.

Lemma npub_call_format_witness :
  exists d, npubEncode pk1 = Ret (js "npub1" ++ d) /\ length d = 58%nat /\
    Forall Bech32Facts.in_alphabet d.
Proof. apply (MainFacts.npub_call_format sk1). vm_compute. reflexivity. Defined.

(** The spec's 17-byte key. *)
Lemma nsec_call_any_length_witness :
  exists d, nsecEncode (repeat 7 17) = Ret (js "nsec1" ++ d) /\
    Z.of_nat (length d) = (8 * Z.of_nat (length (repeat 7 17)) + 4) / 5 + 6.
Proof. apply MainFacts.nsec_call_any_length; [apply bytes_check; reflexivity | simpl; lia]. Defined.

Lemma stored_keys_decode_witness :
  Nip19.decodeBytes (nsec keys1) = Ret (js "nsec", sk keys1) /\
  exists b, Nip19.decodeBytes (npub keys1) = Ret (js "npub", b) /\ Hex.bytesToHex b = pk keys1.
Proof. apply (MainFacts.stored_keys_decode s_keys); [reach | vm_compute; reflexivity]. Defined.

Definition session : list event :=
  [Click BtnGenerateKeys (Some zeros); TypeRelay relay1; Click BtnGenerateURI (Some zeros);
   Click (BtnCopy CopyURI) None; ClipboardSettles true; TimerFires].

Lemma copy_work_terminates_witness :
  let s' := run s_two_copies (AppRuns.pending_events true s_two_copies) in
  pendingWrites s' = [] /\ pendingTimers s' = O /\ copyMessage s' = [] /\
  clientKeys s' = clientKeys s_two_copies /\ walletConnectURI s' = walletConnectURI s_two_copies /\
  relay s' = relay s_two_copies.
Proof. apply AppRuns.copy_work_terminates. reach. Defined.

Lemma uri_well_formed_witness :
  Forall (fun c => WalletConnectFacts.uri_char c = true) (walletConnectURI s_uri).
Proof. apply AppFacts.uri_well_formed. reach. Defined.

Lemma page_secret_doc_mismatch_witness :
  In Page.secret_doc (Jsx.texts (Page.page s_uri)) /\
  exists k, clientKeys s_uri = Some k /\
    Jsx.styled Styles.uriBoxStyle (Page.page s_uri) = [walletConnectURI s_uri] /\
    SearchParams.get (js "secret") (Reader.params_of (walletConnectURI s_uri)) = Some (Uint8.toString (sk k)) /\
    Uint8.toString (sk k) <> Hex.bytesToHex (sk k).
Proof. apply PageFacts.page_secret_doc_mismatch; [reach | vm_compute; discriminate]. Defined.

Lemma page_sk_copy_differs_witness :
  Jsx.styled Styles.hexKeyTextStyle (Page.page s_shown) = [pk keys1; Uint8.react_text (sk keys1)] /\
  pendingWrites (fst (handle s_shown (Click (BtnCopy CopySk) None))) =
    pendingWrites s_shown ++ [Uint8.toString (sk keys1)] /\
  Uint8.react_text (sk keys1) <> Uint8.toString (sk keys1).
Proof.
  apply (PageFacts.page_sk_copy_differs s_shown keys1 None);
    [reach | vm_compute; reflexivity | vm_compute; reflexivity].
Defined.

(** The session under the clock: keys, two copies, the first write
    settling, half a second, the second settling. *)
Definition tsession : list Clock.tevent :=
  [Clock.Act (Click BtnGenerateKeys (Some zeros)); Clock.Act (Click (BtnCopy CopyPk) None);
   Clock.Act (Click (BtnCopy CopyNpub) None)].

Definition ts_two : Clock.tstate := Clock.trun Clock.tinit tsession.

Lemma message_gone_after_delay_witness :
  let ts' := Clock.tstep ts_two (Clock.Wait 2000) in
  Clock.now ts' = Clock.now ts_two + 2000 /\ Clock.deadlines ts' = [] /\
  pendingTimers (Clock.app ts') = O /\ copyMessage (Clock.app ts') = [].
Proof. apply (ClockFacts.message_gone_after_delay ts_two). apply ClockFacts.trun_treachable, Clock.tr_init. Defined.

Lemma timer_race_duration_witness :
  let ts1 := Clock.trun ts_two [Clock.Act (ClipboardSettles true); Clock.Wait 500; Clock.Act (ClipboardSettles true)] in
  let ts2 := Clock.tstep ts1 (Clock.Wait (2000 - 500)) in
  copyMessage (Clock.app ts1) = js "Copied to clipboard!" /\
  Clock.deadlines ts1 = [Clock.now ts_two + 2000; Clock.now ts_two + Z.of_N 500 + 2000] /\
  copyMessage (Clock.app ts2) = [] /\ Clock.deadlines ts2 = [Clock.now ts_two + Z.of_N 500 + 2000] /\
  Clock.now ts2 = Clock.now ts_two + 2000.
Proof.
  apply (ClockFacts.timer_race_duration ts_two (pk keys1) (npub keys1) 500);
    [apply ClockFacts.trun_treachable, Clock.tr_init | vm_compute; reflexivity | vm_compute; reflexivity | lia].
Defined.

(** A second URI for the same keys and relay, with another service key. *)
Definition zeros' : list Z := [1] ++ repeat 0 47.

Definition uri_text (u : throws jsstring) : jsstring := match u with Ret t => t | Throw _ => [] end.

Lemma uri_params_independent_witness :
  uri_text (make_uri (Some zeros) keys1 relay1) <> uri_text (make_uri (Some zeros') keys1 relay1) /\
  Reader.params_of (uri_text (make_uri (Some zeros) keys1 relay1)) =
    Reader.params_of (uri_text (make_uri (Some zeros') keys1 relay1)).
Proof.
  split; [vm_compute; discriminate|].
  apply (uri_params_independent (Some zeros) (Some zeros') keys1 relay1);
    [apply bytes_check; reflexivity | apply WalletConnectFacts.code_units_check; reflexivity
    | vm_compute; reflexivity | vm_compute; reflexivity].
Defined.

Lemma run_refines_witness :
  Refinement.abs (run init session) = Refinement.spec_run (Refinement.abs init) (Refinement.ops_of session).
Proof.
  apply Refinement.run_refines; [apply reach_init | intros _; reflexivity |].
  repeat constructor. unfold Refinement.relay_ok. vm_compute. discriminate.
Defined.

(** With the secret written in hex, as the spec says, the same session is
    not refined: the URI the component shows reads back a decimal secret. *)
Example hex_spec_not_refined :
  Refinement.abs (run init session) <>
  Spec.arun Refinement.spec_generate Refinement.spec_serviceKey Hex.bytesToHex
       (Refinement.abs init) (Refinement.ops_of session).
Proof. vm_compute. discriminate. Qed.

End Session.
